(** * healthchecks: ping ingestion, status, alerting, rate limiting and the
    object-key codec

    A shallow embedding of [hc/lib/s3.py] and of the models of
    [hc/api/models.py] ([Check], [Ping], [Channel], [Notification], [Flip],
    [TokenBucket]), with the properties of the specification stated and
    proved over it.

    Conventions.
    - A [datetime] is the number of microseconds since the epoch ([Z]); a
      [timedelta] is a number of microseconds ([Z]).
    - A Python [str] is a [string]; a status is the string the code
      compares against (["up"], ["down"], ["new"], ["paused"], ...).
    - A Python [float] is a binary64 [float] of the kernel ([PrimFloat]),
      so the token arithmetic rounds exactly as the interpreter's does.
    - A call that may raise returns a [result]: [Ok v] or [Raise e].
    - The database is an explicit value passed through every operation;
      a table is the list of its rows in insertion (id) order. *)

From Stdlib Require Import ZArith List Bool Ascii String Lia Floats Uint63
  DecimalString.
From stdpp Require Import base option list sorting gmap strings.

Local Open Scope string_scope.
Local Open Scope Z_scope.

(** ** Exceptions and results *)

Inductive exn : Type :=
| ValueError
| TypeError
| AttributeError
| NotImplementedError
| ZeroDivisionError
| DoesNotExist
| ConfigError.   (* the bare [Exception] of [s3.client] *)

Inductive result (A : Type) : Type :=
| Ok (a : A)
| Raise (e : exn).
Arguments Ok {A} a.
Arguments Raise {A} e.

Definition bind {A B} (r : result A) (k : A -> result B) : result B :=
  match r with
  | Ok a => k a
  | Raise e => Raise e
  end.

Notation "'do' x <- r ; k" := (bind r (fun x => k))
  (at level 10, x name, r at level 100, k at level 200).
Notation "'do' ' p <- r ; k" := (bind r (fun p => k))
  (at level 10, p strict pattern, r at level 100, k at level 200).

Fixpoint mapM {A B} (f : A -> result B) (l : list A) : result (list B) :=
  match l with
  | [] => Ok []
  | a :: l' => do b <- f a; do bs <- mapM f l'; Ok (b :: bs)
  end.

(** ** hc/lib/s3.py *)

Module S3.

Definition ASCII_J : Z := 106.
Definition ASCII_Z : Z := 122.

(** [chr(i)]: [ValueError] below zero.  The characters of the model are the
    code points 0..255; [enc] never asks for a larger one (its arguments
    are at most [ASCII_Z]). *)
Definition chr (i : Z) : result ascii :=
  if (0 <=? i) && (i <? 256) then Ok (ascii_of_N (Z.to_N i))
  else Raise ValueError.

Definition ord (c : ascii) : Z := Z.of_N (N_of_ascii c).

(** The character of a decimal digit. *)
Definition digit_char (d : Z) : ascii := ascii_of_N (Z.to_N (48 + d)).

(** The decimal digits of a non-negative [n], most significant first.
    [fuel] bounds the number of divisions. *)
Fixpoint digits_fuel (fuel : nat) (n : Z) : list Z :=
  match fuel with
  | O => [n]
  | S f => if n <? 10 then [n] else digits_fuel f (n / 10) ++ [n mod 10]
  end.

Definition digits (n : Z) : list Z :=
  digits_fuel (S (Z.to_nat (Z.log2 n))) n.

(** [str(n)] on an [int]. *)
Definition str (n : Z) : string :=
  if n <? 0
  then String "-" (string_of_list_ascii (map digit_char (digits (- n))))
  else string_of_list_ascii (map digit_char (digits n)).

(** [int(c)] on a one-character string: [ValueError] on the sign. *)
Definition int_of_char (c : ascii) : result Z :=
  let v := ord c in
  if (48 <=? v) && (v <=? 57) then Ok (v - 48) else Raise ValueError.

Definition enc (n : Z) : result string :=
  let s := str n in
  do len_inverted <- chr (ASCII_Z - Z.of_nat (String.length s) + 1);
  do inverted <- mapM (fun c => do d <- int_of_char c; chr (ASCII_J - d))
                      (list_ascii_of_string s);
  Ok (String len_inverted (string_of_list_ascii inverted ++ "-" ++ s)).

(** *** The object store

    The bucket behind [client()] is a finite map from object names to
    bodies.  MinIO's calls are modelled at their interface: [get_object]
    finds a body or fails with [S3Error], [put_object] stores one (the
    retry loop ends as soon as the store accepts the write),
    [list_objects] lists, in lexicographic order, the names that start
    with [prefix] and lie strictly after [start_after], and
    [remove_objects] (of the client) deletes the names it is given. *)

Record settings : Type := mkSettings {
  S3_BUCKET : option string
}.

(** [if settings.S3_BUCKET]: set and not the empty string. *)
Definition configured (cfg : settings) : bool :=
  match S3_BUCKET cfg with
  | Some b => negb (b =? "")%string
  | None => false
  end.

Definition client (cfg : settings) : result unit :=
  if configured cfg then Ok tt else Raise ConfigError.

Definition str_le (a b : string) : Prop := Is_true (a <=? b)%string.

Definition list_objects (bucket : gmap string string)
    (prefix start_after : string) : list string :=
  merge_sort str_le
    (filter (fun k => Is_true (String.prefix prefix k && (start_after <? k)%string))
            (elements (dom bucket))).

Definition object_key (code : string) (n : Z) : result string :=
  do k <- enc n; Ok (code ++ "/" ++ k)%string.

Definition get_object (cfg : settings) (bucket : gmap string string)
    (code : string) (n : Z) : result (option string) :=
  do key <- object_key code n;
  do _ <- client cfg;
  Ok (bucket !! key).

Definition put_object (cfg : settings) (bucket : gmap string string)
    (code : string) (n : Z) (data : string) : result (gmap string string) :=
  do key <- object_key code n;
  do _ <- client cfg;
  Ok (<[key := data]> bucket).

Definition delete_all (names : list string) (bucket : gmap string string)
    : gmap string string :=
  foldr delete bucket names.

Definition _remove_objects (cfg : settings) (bucket : gmap string string)
    (code : string) (upto_n : Z) : result (gmap string string) :=
  let prefix := (code ++ "/")%string in
  do k <- enc (upto_n + 1);
  let start_after := (prefix ++ k)%string in
  do _ <- client cfg;
  let delete_objs := list_objects bucket prefix start_after in
  Ok (delete_all delete_objs bucket).

(** [Thread(target=_remove_objects, ...).start()]: the caller goes on; an
    exception raised in the thread ends the thread and leaves the bucket
    as it was. *)
Definition remove_objects (cfg : settings) (bucket : gmap string string)
    (check_code : string) (upto_n : Z) : gmap string string :=
  match _remove_objects cfg bucket check_code upto_n with
  | Ok bucket' => bucket'
  | Raise _ => bucket
  end.

End S3.

(** ** hc/api/models.py *)

Module Models.

Definition NEVER : Z := 32503680000000000.   (* 3000-01-01T00:00:00Z *)

Definition CHANNEL_KINDS : list string :=
  [ "email"; "webhook"; "hipchat"; "slack"; "pd"; "pagertree"; "pagerteam";
    "po"; "pushbullet"; "opsgenie"; "victorops"; "discord"; "telegram";
    "sms"; "zendesk"; "trello"; "matrix"; "whatsapp"; "apprise";
    "mattermost"; "msteams"; "shell"; "zulip"; "spike"; "call";
    "linenotify"; "signal" ].

(** [x in (a, b, ...)] on strings. *)
Definition str_in (x : string) (l : list string) : bool :=
  existsb (String.eqb x) l.

(** *** Rows

    Each record lists the columns that the methods below read or write;
    the remaining columns of the Django models (names, tags, descriptions,
    the notification's random [code], ...) are touched by none of them. *)

Record Check : Type := mkCheck {
  check_id : Z;
  code : string;
  project : Z;
  kind : string;
  timeout : Z;
  grace : Z;
  schedule : string;
  tz : string;
  manual_resume : bool;
  n_pings : Z;
  last_ping : option Z;
  last_start : option Z;
  last_duration : option Z;
  has_confirmation_link : bool;
  alert_after : option Z;
  status : string
}.

Record Ping : Type := mkPing {
  ping_id : Z;
  n : option Z;
  ping_owner : Z;
  ping_created : Z;
  ping_kind : option string;
  scheme : string;
  remote_addr : option string;
  method : string;
  ua : string;
  body_raw : option string;
  object_size : option Z;
  exitstatus : option Z
}.

Record Channel : Type := mkChannel {
  channel_id : Z;
  channel_kind : string;
  value : string;
  email_verified : bool;
  disabled : option bool;
  last_notify : option Z;
  last_error : string;
  channel_checks : list Z      (* the ids of the assigned checks *)
}.

Record Notification : Type := mkNotification {
  notification_id : Z;
  notification_owner : option Z;
  check_status : string;
  notification_channel : Z;
  notification_created : Z;
  error : string
}.

Record Flip : Type := mkFlip {
  flip_id : Z;
  flip_owner : Z;
  flip_created : Z;
  processed : option Z;
  old_status : string;
  new_status : string
}.

Record TokenBucket : Type := mkTokenBucket {
  tokens : float;
  updated : Z
}.

(** [transports.TransportError] *)
Record TransportError : Type := mkTransportError {
  message : string;
  permanent : bool
}.

(** *** The database, the object store and the clock

    [journal] records every write in the order the code issues it:
    [save()] of a new row ([Insert...]), [save()] of a loaded [Check]
    ([SaveCheck], every column, [n_pings] by the [F] expression),
    [filter(...).update(...)] with the columns it names ([Update...]),
    [filter(...).delete()] ([Delete...]) and the calls to the object
    store. *)

Inductive dbop : Type :=
| InsertFlip (f : Flip)
| SaveCheck (c : Check)
| InsertPing (p : Ping)
| PutObject (check_code : string) (seq : Z)
| RemoveObjects (check_code : string) (upto_n : Z)
| DeletePings (owner threshold : Z)
| DeleteNotifications (owner before : Z)
| InsertNotification (nt : Notification)
| UpdateNotificationError (id : Z) (err : string)
| UpdateChannelOutcome (id : Z) (notified : Z) (err : string) (dis : option bool)
| CreateTokenBucket (key : string)
| SaveTokenBucket (key : string) (b : TokenBucket).

Record World : Type := mkWorld {
  (* the clock: what [now()] returns *)
  now : Z;
  (* [django.conf.settings] *)
  cfg : S3.settings;
  (* the objects of [settings.S3_BUCKET] *)
  bucket : gmap string string;
  (* [project.owner_profile.ping_log_limit], by project id *)
  ping_log_limit : Z -> Z;
  checks : list Check;
  pings : list Ping;
  (* the next [Ping.id] *)
  ping_seq : Z;
  flips : list Flip;
  (* the next [Flip.id] *)
  flip_seq : Z;
  channels : list Channel;
  notifications : list Notification;
  (* the next [Notification.id] *)
  notification_seq : Z;
  (* [TokenBucket] rows by their unique [value] *)
  token_buckets : gmap string TokenBucket;
  (* the writes issued so far, oldest first *)
  journal : list dbop
}.

Definition set_now (v : Z) (w : World) : World :=
  {| now := v;
     cfg := cfg w;
     bucket := bucket w;
     ping_log_limit := ping_log_limit w;
     checks := checks w;
     pings := pings w;
     ping_seq := ping_seq w;
     flips := flips w;
     flip_seq := flip_seq w;
     channels := channels w;
     notifications := notifications w;
     notification_seq := notification_seq w;
     token_buckets := token_buckets w;
     journal := journal w |}.

Definition set_bucket (v : gmap string string) (w : World) : World :=
  {| now := now w;
     cfg := cfg w;
     bucket := v;
     ping_log_limit := ping_log_limit w;
     checks := checks w;
     pings := pings w;
     ping_seq := ping_seq w;
     flips := flips w;
     flip_seq := flip_seq w;
     channels := channels w;
     notifications := notifications w;
     notification_seq := notification_seq w;
     token_buckets := token_buckets w;
     journal := journal w |}.

Definition set_checks (v : list Check) (w : World) : World :=
  {| now := now w;
     cfg := cfg w;
     bucket := bucket w;
     ping_log_limit := ping_log_limit w;
     checks := v;
     pings := pings w;
     ping_seq := ping_seq w;
     flips := flips w;
     flip_seq := flip_seq w;
     channels := channels w;
     notifications := notifications w;
     notification_seq := notification_seq w;
     token_buckets := token_buckets w;
     journal := journal w |}.

Definition set_pings (v : list Ping) (w : World) : World :=
  {| now := now w;
     cfg := cfg w;
     bucket := bucket w;
     ping_log_limit := ping_log_limit w;
     checks := checks w;
     pings := v;
     ping_seq := ping_seq w;
     flips := flips w;
     flip_seq := flip_seq w;
     channels := channels w;
     notifications := notifications w;
     notification_seq := notification_seq w;
     token_buckets := token_buckets w;
     journal := journal w |}.

Definition set_ping_seq (v : Z) (w : World) : World :=
  {| now := now w;
     cfg := cfg w;
     bucket := bucket w;
     ping_log_limit := ping_log_limit w;
     checks := checks w;
     pings := pings w;
     ping_seq := v;
     flips := flips w;
     flip_seq := flip_seq w;
     channels := channels w;
     notifications := notifications w;
     notification_seq := notification_seq w;
     token_buckets := token_buckets w;
     journal := journal w |}.

Definition set_flips (v : list Flip) (w : World) : World :=
  {| now := now w;
     cfg := cfg w;
     bucket := bucket w;
     ping_log_limit := ping_log_limit w;
     checks := checks w;
     pings := pings w;
     ping_seq := ping_seq w;
     flips := v;
     flip_seq := flip_seq w;
     channels := channels w;
     notifications := notifications w;
     notification_seq := notification_seq w;
     token_buckets := token_buckets w;
     journal := journal w |}.

Definition set_flip_seq (v : Z) (w : World) : World :=
  {| now := now w;
     cfg := cfg w;
     bucket := bucket w;
     ping_log_limit := ping_log_limit w;
     checks := checks w;
     pings := pings w;
     ping_seq := ping_seq w;
     flips := flips w;
     flip_seq := v;
     channels := channels w;
     notifications := notifications w;
     notification_seq := notification_seq w;
     token_buckets := token_buckets w;
     journal := journal w |}.

Definition set_channels (v : list Channel) (w : World) : World :=
  {| now := now w;
     cfg := cfg w;
     bucket := bucket w;
     ping_log_limit := ping_log_limit w;
     checks := checks w;
     pings := pings w;
     ping_seq := ping_seq w;
     flips := flips w;
     flip_seq := flip_seq w;
     channels := v;
     notifications := notifications w;
     notification_seq := notification_seq w;
     token_buckets := token_buckets w;
     journal := journal w |}.

Definition set_notifications (v : list Notification) (w : World) : World :=
  {| now := now w;
     cfg := cfg w;
     bucket := bucket w;
     ping_log_limit := ping_log_limit w;
     checks := checks w;
     pings := pings w;
     ping_seq := ping_seq w;
     flips := flips w;
     flip_seq := flip_seq w;
     channels := channels w;
     notifications := v;
     notification_seq := notification_seq w;
     token_buckets := token_buckets w;
     journal := journal w |}.

Definition set_notification_seq (v : Z) (w : World) : World :=
  {| now := now w;
     cfg := cfg w;
     bucket := bucket w;
     ping_log_limit := ping_log_limit w;
     checks := checks w;
     pings := pings w;
     ping_seq := ping_seq w;
     flips := flips w;
     flip_seq := flip_seq w;
     channels := channels w;
     notifications := notifications w;
     notification_seq := v;
     token_buckets := token_buckets w;
     journal := journal w |}.

Definition set_token_buckets (v : gmap string TokenBucket) (w : World) : World :=
  {| now := now w;
     cfg := cfg w;
     bucket := bucket w;
     ping_log_limit := ping_log_limit w;
     checks := checks w;
     pings := pings w;
     ping_seq := ping_seq w;
     flips := flips w;
     flip_seq := flip_seq w;
     channels := channels w;
     notifications := notifications w;
     notification_seq := notification_seq w;
     token_buckets := v;
     journal := journal w |}.

Definition set_journal (v : list dbop) (w : World) : World :=
  {| now := now w;
     cfg := cfg w;
     bucket := bucket w;
     ping_log_limit := ping_log_limit w;
     checks := checks w;
     pings := pings w;
     ping_seq := ping_seq w;
     flips := flips w;
     flip_seq := flip_seq w;
     channels := channels w;
     notifications := notifications w;
     notification_seq := notification_seq w;
     token_buckets := token_buckets w;
     journal := v |}.

Definition log (op : dbop) (w : World) : World :=
  set_journal (journal w ++ [op]) w.

(** *** Collaborators outside this module

    [cronsim.CronSim], the transports of [hc.api.transports] and the text
    search on a decoded body are used through their interface. *)

Class Externals : Type := {
  (* [next(CronSim(schedule, last_ping.astimezone(ZoneInfo(tz))))] *)
  cron_next : string -> string -> Z -> result Z;
  (* ["confirm" in body.decode(errors="replace").lower()] *)
  has_confirm : string -> bool;
  (* [channel.transport.is_noop(check)] *)
  is_noop : Channel -> Check -> bool;
  (* [channel.transport.notify(check, notification=n)]: [None] when it
     returns, [Some e] when it raises [TransportError]; and the time the
     call took, in microseconds *)
  transport_notify :
    Channel -> Check -> Notification -> option TransportError * Z
}.

Section WithExternals.
Context `{Externals}.

(** *** Check *)

Definition get_grace_start (self : Check) (with_started : bool)
    : result (option Z) :=
  do result0 <-
    (if (kind self =? "simple")%string && (status self =? "up")%string then
       match last_ping self with
       | Some lp => Ok (lp + timeout self)
       | None => Raise TypeError
       end
     else if (kind self =? "cron")%string && (status self =? "up")%string then
       match last_ping self with
       | Some lp => cron_next (schedule self) (tz self) lp
       | None => Raise AttributeError
       end
     else Ok NEVER);
  let result1 :=
    match last_start self with
    | Some ls =>
        if with_started && negb (status self =? "down")%string
        then (if ls <? result0 then ls else result0)    (* min(result, ls) *)
        else result0
    | None => result0
    end in
  Ok (if result1 =? NEVER then None else Some result1).

Definition going_down_after (self : Check) : result (option Z) :=
  do grace_start <- get_grace_start self true;
  Ok (match grace_start with
      | Some gs => Some (gs + grace self)
      | None => None
      end).

(** The [if self.last_start:] block of [get_status]: [Some] when it
    returns. *)
Definition started_status (self : Check) (with_started : bool)
    (frozen_now : Z) : option string :=
  match last_start self with
  | Some ls =>
      if ls + grace self <=? frozen_now then Some "down"
      else if with_started then Some "started"
      else None
  | None => None
  end.

Definition get_status (self : Check) (with_started : bool) (w : World)
    : result string :=
  let frozen_now := now w in
  match started_status self with_started frozen_now with
  | Some s => Ok s
  | None =>
      if str_in (status self) ["new"; "paused"; "down"] then Ok (status self)
      else
        do grace_start <- get_grace_start self with_started;
        match grace_start with
        | None => Raise TypeError          (* None + timedelta *)
        | Some gs =>
            let grace_end := gs + grace self in
            if grace_end <=? frozen_now then Ok "down"
            else if gs <=? frozen_now then Ok "grace"
            else Ok "up"
        end
  end.

(** [self.ping_set.filter(n__lte=threshold)]: a row with a null [n] does
    not match. *)
Definition n_lte (owner threshold : Z) (p : Ping) : bool :=
  (ping_owner p =? owner) &&
  match n p with
  | Some k => k <=? threshold
  | None => false
  end.

(** [self.ping_set.earliest("id")] *)
Fixpoint earliest (owner : Z) (ps : list Ping) : option Ping :=
  match ps with
  | [] => None
  | p :: ps' =>
      if ping_owner p =? owner then
        match earliest owner ps' with
        | Some q => if ping_id q <? ping_id p then Some q else Some p
        | None => Some p
        end
      else earliest owner ps'
  end.

(** [self.notification_set.filter(created__lt=t)] *)
Definition created_lt (owner t : Z) (nt : Notification) : bool :=
  match notification_owner nt with
  | Some o => (o =? owner) && (notification_created nt <? t)
  | None => false
  end.

Definition prune (self : Check) (w : World) : World :=
  let threshold := n_pings self - ping_log_limit w (project self) in
  let w1 :=
    if S3.configured (cfg w)
    then log (RemoveObjects (code self) threshold)
           (set_bucket
              (S3.remove_objects (cfg w) (bucket w) (code self) threshold) w)
    else w in
  let w2 :=
    log (DeletePings (check_id self) threshold)
      (set_pings
         (List.filter (fun p => negb (n_lte (check_id self) threshold p))
                      (pings w1)) w1) in
  match earliest (check_id self) (pings w2) with
  | Some ping =>
      log (DeleteNotifications (check_id self) (ping_created ping))
        (set_notifications
           (List.filter
              (fun nt => negb (created_lt (check_id self) (ping_created ping) nt))
              (notifications w2)) w2)
  | None => w2                          (* except Ping.DoesNotExist: pass *)
  end.

(** The action [ping] goes on with: a paused check with [manual_resume]
    ignores whatever arrives. *)
Definition effective_action (self : Check) (action : string) : string :=
  if (status self =? "paused")%string && manual_resume self then "ign"
  else action.

Definition set_last_start (v : option Z) (c : Check) : Check :=
  {| check_id := check_id c; code := code c; project := project c;
     kind := kind c; timeout := timeout c; grace := grace c;
     schedule := schedule c; tz := tz c; manual_resume := manual_resume c;
     n_pings := n_pings c; last_ping := last_ping c; last_start := v;
     last_duration := last_duration c;
     has_confirmation_link := has_confirmation_link c;
     alert_after := alert_after c; status := status c |}.

(** The [else] branch of [ping] up to the test on the status: sets
    [last_ping], [last_duration] and clears [last_start]. *)
Definition record_finish (frozen_now : Z) (c : Check) : Check :=
  {| check_id := check_id c; code := code c; project := project c;
     kind := kind c; timeout := timeout c; grace := grace c;
     schedule := schedule c; tz := tz c; manual_resume := manual_resume c;
     n_pings := n_pings c; last_ping := Some frozen_now; last_start := None;
     last_duration :=
       match last_start c with
       | Some ls => Some (frozen_now - ls)
       | None => None
       end;
     has_confirmation_link := has_confirmation_link c;
     alert_after := alert_after c; status := status c |}.

Definition set_status (v : string) (c : Check) : Check :=
  {| check_id := check_id c; code := code c; project := project c;
     kind := kind c; timeout := timeout c; grace := grace c;
     schedule := schedule c; tz := tz c; manual_resume := manual_resume c;
     n_pings := n_pings c; last_ping := last_ping c;
     last_start := last_start c; last_duration := last_duration c;
     has_confirmation_link := has_confirmation_link c;
     alert_after := alert_after c; status := v |}.

(** [alert_after], [n_pings] and [has_confirmation_link] as [ping] sets
    them before [self.save()]. *)
Definition set_bookkeeping (aa : option Z) (np : Z) (link : bool) (c : Check)
    : Check :=
  {| check_id := check_id c; code := code c; project := project c;
     kind := kind c; timeout := timeout c; grace := grace c;
     schedule := schedule c; tz := tz c; manual_resume := manual_resume c;
     n_pings := np; last_ping := last_ping c;
     last_start := last_start c; last_duration := last_duration c;
     has_confirmation_link := link;
     alert_after := aa; status := status c |}.

Definition find_check (id : Z) (w : World) : option Check :=
  List.find (fun c => check_id c =? id) (checks w).

(** [flip.save()] of a new [Flip]. *)
Definition save_flip (owner created : Z) (old new : string) (w : World)
    : World :=
  let f := {| flip_id := flip_seq w; flip_owner := owner;
              flip_created := created; processed := None;
              old_status := old; new_status := new |} in
  log (InsertFlip f) (set_flip_seq (flip_seq w + 1) (set_flips (flips w ++ [f]) w)).

(** [self.n_pings = F("n_pings") + 1; self.save(); self.refresh_from_db()]:
    every column of the stored row is overwritten with the instance's,
    except the counter, which the database increments from its own value;
    the instance is then reloaded.  Saving an instance that has no stored
    row would insert one, which Django refuses for an [F] expression. *)
Definition save_and_refresh (self : Check) (aa : option Z) (link : bool)
    (w : World) : result (Check * World) :=
  match find_check (check_id self) w with
  | None => Raise ValueError
  | Some stored =>
      let row := set_bookkeeping aa (n_pings stored + 1) link self in
      Ok (row,
          log (SaveCheck row)
            (set_checks
               (map (fun c => if check_id c =? check_id self then row else c)
                    (checks w)) w))
  end.

(** [new_status = "down" if action == "fail" else "up"] *)
Definition new_status_for (action : string) : string :=
  if (action =? "fail")%string then "down" else "up".

(** The [if action == "start": ... elif action == "ign": ... else: ...]
    statement of [ping], on the action [ping] goes on with. *)
Definition apply_action (self : Check) (action : string) (frozen_now : Z)
    (w : World) : Check * World :=
  if (action =? "start")%string then
    (set_last_start (Some frozen_now) self, w)
  else if (action =? "ign")%string then (self, w)
  else
    let self' := record_finish frozen_now self in
    let new_status := new_status_for action in
    if negb (status self' =? new_status)%string then
      (set_status new_status self',
       save_flip (check_id self') frozen_now (status self') new_status w)
    else (self', w).

(** [ping], from its first line to [ping.save()]. *)
Definition ingest (self : Check) (remote_addr_ : option string)
    (scheme_ method_ ua_ body action : string) (exitstatus_ : option Z)
    (w : World) : result (Check * World) :=
  let frozen_now := now w in
  let action := effective_action self action in
  let '(self1, w1) := apply_action self action frozen_now w in
  do aa <- going_down_after self1;
  do '(self2, w2) <- save_and_refresh self1 aa (has_confirm body) w1;
  let archive :=
    (100 <? Z.of_nat (String.length body)) && S3.configured (cfg w2) in
  do w3 <-
    (if archive then
       do b <- S3.put_object (cfg w2) (bucket w2) (code self2) (n_pings self2) body;
       Ok (log (PutObject (code self2) (n_pings self2)) (set_bucket b w2))
     else Ok w2);
  let p := {| ping_id := ping_seq w3;
              n := Some (n_pings self2);
              ping_owner := check_id self2;
              ping_created := frozen_now;
              ping_kind :=
                if str_in action ["start"; "fail"; "ign"] then Some action
                else None;
              scheme := scheme_;
              remote_addr := remote_addr_;
              method := method_;
              ua := String.substring 0 200 ua_;
              body_raw := if archive then None else Some body;
              object_size :=
                if archive then Some (Z.of_nat (String.length body)) else None;
              exitstatus := exitstatus_ |} in
  Ok (self2,
      log (InsertPing p)
        (set_ping_seq (ping_seq w3 + 1) (set_pings (pings w3 ++ [p]) w3))).

Definition ping (self : Check) (remote_addr_ : option string)
    (scheme_ method_ ua_ body action : string) (exitstatus_ : option Z)
    (w : World) : result (Check * World) :=
  do '(self2, w4) <-
    ingest self remote_addr_ scheme_ method_ ua_ body action exitstatus_ w;
  (* Every 100 received pings, prune old pings and notifications *)
  if n_pings self2 mod 100 =? 0 then Ok (self2, prune self2 w4)
  else Ok (self2, w4).

(** *** Channel *)

(** The [transport] property: the name of the transport class that the
    chain of tests on [self.kind] selects, and [NotImplementedError] when
    no test matches. *)
Definition transport (self : Channel) : result string :=
  let kind := channel_kind self in
  if (kind =? "email")%string then Ok "Email"
  else if (kind =? "webhook")%string then Ok "Webhook"
  else if str_in kind ["slack"; "mattermost"] then Ok "Slack"
  else if (kind =? "hipchat")%string then Ok "HipChat"
  else if (kind =? "pd")%string then Ok "PagerDuty"
  else if (kind =? "pagertree")%string then Ok "PagerTree"
  else if (kind =? "pagerteam")%string then Ok "PagerTeam"
  else if (kind =? "victorops")%string then Ok "VictorOps"
  else if (kind =? "pushbullet")%string then Ok "Pushbullet"
  else if (kind =? "po")%string then Ok "Pushover"
  else if (kind =? "opsgenie")%string then Ok "Opsgenie"
  else if (kind =? "discord")%string then Ok "Discord"
  else if (kind =? "telegram")%string then Ok "Telegram"
  else if (kind =? "sms")%string then Ok "Sms"
  else if (kind =? "trello")%string then Ok "Trello"
  else if (kind =? "matrix")%string then Ok "Matrix"
  else if (kind =? "whatsapp")%string then Ok "WhatsApp"
  else if (kind =? "apprise")%string then Ok "Apprise"
  else if (kind =? "msteams")%string then Ok "MsTeams"
  else if (kind =? "shell")%string then Ok "Shell"
  else if (kind =? "zulip")%string then Ok "Zulip"
  else if (kind =? "spike")%string then Ok "Spike"
  else if (kind =? "call")%string then Ok "Call"
  else if (kind =? "linenotify")%string then Ok "LineNotify"
  else if (kind =? "signal")%string then Ok "Signal"
  else Raise NotImplementedError.

Definition set_error (v : string) (nt : Notification) : Notification :=
  {| notification_id := notification_id nt;
     notification_owner := notification_owner nt;
     check_status := check_status nt;
     notification_channel := notification_channel nt;
     notification_created := notification_created nt;
     error := v |}.

(** The three columns [notify] owns on a stored channel. *)
Definition set_outcome (notified : Z) (err : string) (dis : option bool)
    (c : Channel) : Channel :=
  {| channel_id := channel_id c; channel_kind := channel_kind c;
     value := value c; email_verified := email_verified c;
     disabled := dis; last_notify := Some notified; last_error := err;
     channel_checks := channel_checks c |}.

(** [Notification.objects.filter(id=id).update(error=err)] *)
Definition update_notification_error (id : Z) (err : string) (w : World)
    : World :=
  log (UpdateNotificationError id err)
    (set_notifications
       (map (fun nt => if notification_id nt =? id then set_error err nt else nt)
            (notifications w)) w).

(** [Channel.objects.filter(id=id).update(last_notify=..., last_error=...,
    disabled=...)] *)
Definition update_channel_outcome (id notified : Z) (err : string)
    (dis : option bool) (w : World) : World :=
  log (UpdateChannelOutcome id notified err dis)
    (set_channels
       (map (fun c => if channel_id c =? id then set_outcome notified err dis c
                      else c)
            (channels w)) w).

Definition notify (self : Channel) (check : Check) (is_test : bool)
    (w : World) : result (string * World) :=
  do _ <- transport self;
  if is_noop self check then Ok ("no-op", w)
  else
    let nt := {| notification_id := notification_seq w;
                 notification_owner :=
                   if is_test then None else Some (check_id check);
                 check_status := status check;
                 notification_channel := channel_id self;
                 notification_created := now w;
                 error := "Sending" |} in
    let w1 :=
      log (InsertNotification nt)
        (set_notification_seq (notification_seq w + 1)
           (set_notifications (notifications w ++ [nt]) w)) in
    let '(outcome, elapsed) := transport_notify self check nt in
    let w2 := set_now (now w1 + elapsed) w1 in
    let '(err, dis) :=
      match outcome with
      | Some e =>
          (message e, if permanent e then Some true else disabled self)
      | None => ("", disabled self)
      end in
    let w3 := update_notification_error (notification_id nt) err w2 in
    let w4 := update_channel_outcome (channel_id self) (now w3) err dis w3 in
    Ok (err, w4).

(** *** Flip *)

(** [self.owner.channel_set.exclude(disabled=True)] *)
Definition enabled_channels (owner : Z) (w : World) : list Channel :=
  List.filter
    (fun c =>
       existsb (Z.eqb owner) (channel_checks c) &&
       negb match disabled c with Some true => true | _ => false end)
    (channels w).

(** The [for] loop of [send_alerts], with the triples it yields; the send
    time is in microseconds. *)
Fixpoint send_loop (owner : Check) (chans : list Channel) (w : World)
    : result (list (Channel * string * Z) * World) :=
  match chans with
  | [] => Ok ([], w)
  | channel :: rest =>
      let start := now w in
      do '(err, w1) <- notify channel owner false w;
      if (err =? "no-op")%string then send_loop owner rest w1
      else
        let send_time := now w1 - start in
        do '(ys, w2) <- send_loop owner rest w1;
        Ok ((channel, err, send_time) :: ys, w2)
  end.

(** [send_alerts], iterated to its end.  The message of the
    [NotImplementedError] is formatted from [self.status], an attribute
    that a [Flip] does not have: evaluating it raises [AttributeError]. *)
Definition send_alerts (self : Flip) (w : World)
    : result (list (Channel * string * Z) * World) :=
  if (new_status self =? "up")%string
     && str_in (old_status self) ["new"; "paused"] then Ok ([], w)
  else if negb (str_in (new_status self) ["up"; "down"]) then
    Raise AttributeError
  else
    match find_check (flip_owner self) w with
    | None => Raise DoesNotExist
    | Some owner => send_loop owner (enabled_channels (check_id owner) w) w
    end.

(** *** TokenBucket *)

(** [float(z)] for an [int] below 2^63 in magnitude. *)
Definition float_of_Z (z : Z) : float :=
  if z <? 0 then (- PrimFloat.of_uint63 (Uint63.of_Z (- z)))%float
  else PrimFloat.of_uint63 (Uint63.of_Z z).

(** [timedelta.total_seconds()], for a difference below 2^53
    microseconds. *)
Definition total_seconds (microseconds : Z) : float :=
  (float_of_Z microseconds / 1000000)%float.

(** [min(a, b)] of the built-ins: [b] when [b < a], else [a]. *)
Definition py_min (a b : float) : float :=
  if (b <? a)%float then b else a.

(** [TokenBucket.objects.get_or_create(value=value)] *)
Definition get_or_create (key : string) (w : World)
    : TokenBucket * bool * World :=
  match token_buckets w !! key with
  | Some obj => (obj, false, w)
  | None =>
      let obj := {| tokens := 1; updated := now w |} in
      (obj, true,
       log (CreateTokenBucket key)
         (set_token_buckets (<[key := obj]> (token_buckets w)) w))
  end.

(** The balance after the top-up and the debit. *)
Definition debited (obj : TokenBucket) (created : bool) (frozen_now : Z)
    (capacity refill_time_secs : Z) : result float :=
  do topped <-
    (if created then Ok (tokens obj)
     else
       let delta_secs := total_seconds (frozen_now - updated obj) in
       if refill_time_secs =? 0 then Raise ZeroDivisionError
       else Ok (py_min 1 (tokens obj + delta_secs / float_of_Z refill_time_secs)));
  if capacity =? 0 then Raise ZeroDivisionError
  else Ok (topped - 1 / float_of_Z capacity)%float.

Definition authorize (key : string) (capacity refill_time_secs : Z)
    (w : World) : result (bool * World) :=
  let frozen_now := now w in
  let '(obj, created, w1) := get_or_create key w in
  do balance <- debited obj created frozen_now capacity refill_time_secs;
  if (balance <? 0)%float then
    (* Not enough tokens *)
    Ok (false, w1)
  else
    let obj' := {| tokens := balance; updated := frozen_now |} in
    Ok (true,
        log (SaveTokenBucket key obj')
          (set_token_buckets (<[key := obj']> (token_buckets w1)) w1)).

End WithExternals.

(** *** Ping: reading a body back

    The text column [body] of older rows, which [ping()] never writes, is
    no field of [Ping]; the two methods take it beside the row.
    [decode] is [bytes.decode(errors="replace")]. *)

(** Truth of an optional integer and of an optional string or bytes value:
    [None], [0] and the empty value are false. *)
Definition truthy_int (o : option Z) : bool :=
  match o with
  | Some z => negb (z =? 0)
  | None => false
  end.

Definition truthy_text (o : option string) : bool :=
  match o with
  | Some s => negb (s =? "")%string
  | None => false
  end.

Definition has_body (body : option string) (self : Ping) : bool :=
  truthy_text body || truthy_text (body_raw self) || truthy_int (object_size self).

Section Bodies.
Variable decode : string -> string.

Definition get_body (body : option string) (self : Ping) (w : World)
    : result (option string) :=
  if truthy_text body then Ok body
  else
    do archived <-
      (if truthy_int (object_size self) then
         match find_check (ping_owner self) w with
         | None => Raise DoesNotExist            (* self.owner *)
         | Some owner =>
             match n self with
             | None => Raise ValueError          (* enc(None) *)
             | Some k =>
                 do body_raw <- S3.get_object (cfg w) (bucket w) (code owner) k;
                 Ok (if truthy_text body_raw then option_map decode body_raw
                     else None)
             end
         end
       else Ok None);
    match archived with
    | Some text => Ok (Some text)
    | None =>
        if truthy_text (body_raw self)
        then Ok (option_map decode (body_raw self))
        else Ok None
    end.

End Bodies.

(** *** TokenBucket: the derived policies

    [sha1_hex s] is [hashlib.sha1(s.encode()).hexdigest()] and
    [SECRET_KEY] is [settings.SECRET_KEY].  A user is given by its [id];
    [telegram_id] and [code] are given as the text [%s] formats. *)

(** [s.split(sep)] for a separator of one character. *)
Fixpoint split_on (sep : ascii) (s : string) : list string :=
  match s with
  | EmptyString => [EmptyString]
  | String c s' =>
      if Ascii.eqb c sep then EmptyString :: split_on sep s'
      else
        match split_on sep s' with
        | h :: t => String c h :: t
        | [] => [String c EmptyString]
        end
  end.

(** [s.replace(c, "")] for one character. *)
Fixpoint remove_char (c : ascii) (s : string) : string :=
  match s with
  | EmptyString => EmptyString
  | String x s' =>
      if Ascii.eqb x c then remove_char c s' else String x (remove_char c s')
  end.

(** The address [authorize_login_email] hashes: dots and the alias
    removed from the mailbox.  Unpacking [email.split("@")] into two names
    raises [ValueError] unless there are exactly two parts. *)
Definition normalized_email (email : string) : result string :=
  match split_on "@" email with
  | [mailbox; domain] =>
      let mailbox := remove_char "." mailbox in
      let mailbox := hd EmptyString (split_on "+" mailbox) in
      Ok (mailbox ++ "@" ++ domain)%string
  | _ => Raise ValueError
  end.

Section Policies.
Variable sha1_hex : string -> string.
Variable SECRET_KEY : string.

(** The [value] each policy passes to [authorize]. *)
Definition login_email_value (normalized : string) : string :=
  ("em-" ++ sha1_hex (normalized ++ SECRET_KEY))%string.
Definition invite_value (user_id : Z) : string :=
  ("invite-" ++ S3.str user_id)%string.
Definition login_password_value (email : string) : string :=
  ("pw-" ++ sha1_hex (email ++ SECRET_KEY))%string.
Definition telegram_value (telegram_id : string) : string :=
  ("tg-" ++ telegram_id)%string.
Definition signal_value (phone : string) : string :=
  ("signal-" ++ sha1_hex (phone ++ SECRET_KEY))%string.
Definition pushover_value (user_key : string) : string :=
  ("po-" ++ sha1_hex (user_key ++ SECRET_KEY))%string.
Definition sudo_value (user_id : Z) : string :=
  ("sudo-" ++ S3.str user_id)%string.
Definition totp_value (user_id : Z) : string :=
  ("totp-" ++ S3.str user_id)%string.
Definition totp_code_value (user_id : Z) (code : string) : string :=
  ("totpc-" ++ S3.str user_id ++ "-" ++ code)%string.

Definition authorize_login_email (email : string) (w : World)
    : result (bool * World) :=
  do email <- normalized_email email;
  (* 20 login attempts for a single email per hour *)
  authorize (login_email_value email) 20 3600 w.

Definition authorize_invite (user_id : Z) (w : World) :=
  (* 20 invites per day *)
  authorize (invite_value user_id) 20 (3600 * 24) w.

Definition authorize_login_password (email : string) (w : World) :=
  (* 20 password attempts per day *)
  authorize (login_password_value email) 20 (3600 * 24) w.

Definition authorize_telegram (telegram_id : string) (w : World) :=
  (* 6 messages for a single chat per minute *)
  authorize (telegram_value telegram_id) 6 60 w.

Definition authorize_signal (phone : string) (w : World) :=
  (* 6 messages for a single recipient per minute *)
  authorize (signal_value phone) 6 60 w.

Definition authorize_pushover (user_key : string) (w : World) :=
  (* 6 messages for a single user key per minute *)
  authorize (pushover_value user_key) 6 60 w.

Definition authorize_sudo_code (user_id : Z) (w : World) :=
  (* 10 sudo attempts per day *)
  authorize (sudo_value user_id) 10 (3600 * 24) w.

Definition authorize_totp_attempt (user_id : Z) (w : World) :=
  (* 96 attempts per user per 24 hours *)
  authorize (totp_value user_id) 96 (3600 * 24) w.

Definition authorize_totp_code (user_id : Z) (code : string) (w : World) :=
  (* a code is valid for 90 seconds: allow it to be used once *)
  authorize (totp_code_value user_id code) 1 90 w.

End Policies.

End Models.

Import S3.
Import Models.

(** ** Definitions used by the statements and proofs *)

(** The value of a list of decimal digits, most significant first. *)
Fixpoint dvalue (ds : list Z) : Z :=
  match ds with
  | [] => 0
  | d :: ds' => d * 10 ^ Z.of_nat (length ds') + dvalue ds'
  end.

Definition is_digit (d : Z) : Prop := 0 <= d <= 9.

(** Lexicographic comparison of two digit lists. *)
Fixpoint lexZ (xs ys : list Z) : comparison :=
  match xs, ys with
  | [], [] => Eq
  | [], _ :: _ => Lt
  | _ :: _, [] => Gt
  | x :: xs', y :: ys' =>
      match x ?= y with
      | Eq => lexZ xs' ys'
      | c => c
      end
  end.

(** The character [enc] writes for the digit [d]. *)
Definition inv_char (d : Z) : ascii := ascii_of_N (Z.to_N (ASCII_J - d)).

(** The key [enc] returns where it returns one. *)
Definition key_of (n : Z) : string :=
  String (ascii_of_N (Z.to_N (ASCII_Z - Z.of_nat (length (digits n)) + 1)))
         (string_of_list_ascii (map inv_char (digits n)) ++ "-" ++ str n).

(** [threshold] of [Check.prune]. *)
Definition threshold_of (self : Check) (w : World) : Z :=
  n_pings self - ping_log_limit w (project self).

(** The value of a result, [d] when it raised. *)
Definition value_or {A} (d : A) (r : result A) : A :=
  match r with
  | Ok a => a
  | Raise _ => d
  end.

(** [authorize] called once at each of the given instants, in turn. *)
Fixpoint authorize_at (key : string) (capacity refill_time_secs : Z)
    (times : list Z) (w : World) : list (result bool) :=
  match times with
  | [] => []
  | t :: ts =>
      match authorize key capacity refill_time_secs (set_now t w) with
      | Ok (b, w') => Ok b :: authorize_at key capacity refill_time_secs ts w'
      | Raise e => [Raise e]
      end
  end.

(** How many of the calls were authorised. *)
Definition authorized (rs : list (result bool)) : nat :=
  length (List.filter (fun r => match r with Ok true => true | _ => false end) rs).

(** A balance that the top-up for no elapsed time returns as it is: at
    most 1.0, and not the negative zero. *)
Definition steady (t : float) : bool :=
  (t <=? 1)%float &&
  match classify t with
  | NZero => false
  | _ => true
  end.

(** The balance after [n] debits of [d] from [t], when none of them is
    refused. *)
Fixpoint drained (d t : float) (n : nat) : option float :=
  match n with
  | O => Some t
  | S n' =>
      let b := (t - d)%float in
      if (b <? 0)%float then None
      else if steady b then drained d b n' else None
  end.

(** Whether exactly [n] debits of [1/capacity] from a full bucket are
    granted before one is refused. *)
Definition burst_of (capacity : Z) (n : nat) : bool :=
  let d := (1 / float_of_Z capacity)%float in
  match drained d 1 n with
  | Some t => (t - d <? 0)%float
  | None => false
  end.

(** The number of calls granted at one instant, among [capacity - 1] and
    [capacity]. *)
Definition burst_limit (capacity : Z) : nat :=
  if burst_of capacity (Z.to_nat capacity - 1) then (Z.to_nat capacity - 1)%nat
  else Z.to_nat capacity.

(** Whether the character occurs in the string. *)
Fixpoint occurs (c : ascii) (s : string) : bool :=
  match s with
  | EmptyString => false
  | String x s' => Ascii.eqb x c || occurs c s'
  end.

(** How often the character occurs in the string. *)
Fixpoint count_char (c : ascii) (s : string) : nat :=
  match s with
  | EmptyString => 0
  | String x s' => (if Ascii.eqb x c then 1 else 0) + count_char c s'
  end.

(** *** A concrete deployment, for the examples

    One check (simple, timeout 60 s, grace 30 s) that has received 99
    pings, of which three are still stored, the last two with an archived
    body; two channels whose transports fail, one for good; an account
    that keeps 98 pings. *)

Module Scenario.

Definition externals : Externals := {|
  cron_next := fun _ _ t => Ok (t + 60000000);
  has_confirm := fun _ => false;
  is_noop := fun _ _ => false;
  transport_notify := fun c _ _ =>
    (if (value c =? "gone")%string
     then Some {| message := "410 Gone"; permanent := true |}
     else if (value c =? "slow")%string
     then Some {| message := "timed out"; permanent := false |}
     else None,
     250000)
|}.

Definition check1 : Check := {|
  check_id := 1; code := "c0de"; project := 7; kind := "simple";
  timeout := 60000000; grace := 30000000;
  schedule := "* * * * *"; tz := "UTC"; manual_resume := false;
  n_pings := 99; last_ping := Some 3000000; last_start := None;
  last_duration := None; has_confirmation_link := false;
  alert_after := Some 93000000; status := "up"
|}.

Definition stored_ping (k created : Z) (archived : bool) : Ping := {|
  ping_id := k; n := Some k; ping_owner := 1; ping_created := created;
  ping_kind := None; scheme := "http"; remote_addr := None; method := "GET";
  ua := "curl"; body_raw := if archived then None else Some "ok";
  object_size := if archived then Some 200 else None; exitstatus := None
|}.

Definition email_gone : Channel := {|
  channel_id := 1; channel_kind := "email"; value := "gone";
  email_verified := true; disabled := None; last_notify := None;
  last_error := ""; channel_checks := [1]
|}.

Definition webhook_slow : Channel := {|
  channel_id := 2; channel_kind := "webhook"; value := "slow";
  email_verified := false; disabled := Some false; last_notify := None;
  last_error := ""; channel_checks := [1]
|}.

Definition old_notification : Notification := {|
  notification_id := 1; notification_owner := Some 1; check_status := "down";
  notification_channel := 1; notification_created := 2500000; error := ""
|}.

Definition world1 : World := {|
  now := 10000000;
  cfg := {| S3_BUCKET := Some "pings" |};
  bucket := {[ "c0de/zh-2" := "two"; "c0de/zg-3" := "three" ]};
  ping_log_limit := fun _ => 98;
  checks := [check1];
  pings := [stored_ping 1 1000000 false; stored_ping 2 2000000 true;
            stored_ping 3 3000000 true];
  ping_seq := 4;
  flips := []; flip_seq := 1;
  channels := [email_gone; webhook_slow];
  notifications := [old_notification]; notification_seq := 2;
  token_buckets := {[ "drained" := {| tokens := 0; updated := 10000000 |} ]};
  journal := []
|}.

(** The same account keeping no ping at all. *)
Definition world_keep_none : World := {|
  now := now world1; cfg := cfg world1; bucket := bucket world1;
  ping_log_limit := fun _ => 0;
  checks := checks world1; pings := pings world1; ping_seq := ping_seq world1;
  flips := flips world1; flip_seq := flip_seq world1;
  channels := channels world1; notifications := notifications world1;
  notification_seq := notification_seq world1;
  token_buckets := token_buckets world1; journal := journal world1
|}.

(** The check and the world after one failing ping, the hundredth. *)
Definition after_fail : Check * World :=
  value_or (check1, world1)
    (@ping externals check1 None "http" "POST" "curl" "" "fail" (Some 1) world1).

(** The same ping, up to [ping.save()]. *)
Definition ingested : Check * World :=
  value_or (check1, world1)
    (@ingest externals check1 None "http" "POST" "curl" "" "fail" (Some 1)
       world1).

Definition flip_resumed : Flip := {|
  flip_id := 1; flip_owner := 1; flip_created := 0; processed := None;
  old_status := "paused"; new_status := "up"
|}.

Definition flip_odd : Flip := {|
  flip_id := 2; flip_owner := 1; flip_created := 0; processed := None;
  old_status := "up"; new_status := "paused"
|}.

End Scenario.

(** *** Further cases of the same deployment *)

Module Cases.

Definition long_body : string :=
  string_of_list_ascii (repeat "x"%char 150).

(** The check while a run is in flight, started at 4 s. *)
Definition running : Check :=
  set_last_start (Some 4000000) Scenario.check1.

(** The check paused by hand, to be resumed by hand only. *)
Definition paused : Check := {|
  check_id := 1; code := "c0de"; project := 7; kind := "simple";
  timeout := 60000000; grace := 30000000;
  schedule := "* * * * *"; tz := "UTC"; manual_resume := true;
  n_pings := 99; last_ping := Some 3000000; last_start := None;
  last_duration := None; has_confirmation_link := false;
  alert_after := None; status := "paused"
|}.

Definition world_paused : World := set_checks [paused] Scenario.world1.

Definition after_start : Check * World :=
  value_or (Scenario.check1, Scenario.world1)
    (@ping Scenario.externals Scenario.check1 None "http" "GET" "curl" ""
       "start" None Scenario.world1).

Definition after_finish : Check * World :=
  value_or (running, Scenario.world1)
    (@ping Scenario.externals running None "http" "GET" "curl" ""
       "success" (Some 0) Scenario.world1).

Definition after_paused : Check * World :=
  value_or (paused, world_paused)
    (@ping Scenario.externals paused None "http" "GET" "curl" ""
       "success" None world_paused).

Definition after_success : Check * World :=
  value_or (Scenario.check1, Scenario.world1)
    (@ping Scenario.externals Scenario.check1 None "http" "GET" "curl" ""
       "success" None Scenario.world1).

(** A second ping through the instance loaded before the first one. *)
Definition after_second : Check * World :=
  value_or (Scenario.check1, Scenario.world1)
    (@ping Scenario.externals Scenario.check1 None "http" "GET" "curl" ""
       "success" None (snd after_success)).

Definition ingested_long : Check * World :=
  value_or (Scenario.check1, Scenario.world1)
    (@ingest Scenario.externals Scenario.check1 None "http" "POST" "curl"
       long_body "success" None Scenario.world1).

Definition flip_down : Flip := {|
  flip_id := 3; flip_owner := 1; flip_created := 0; processed := None;
  old_status := "up"; new_status := "down"
|}.

Definition sms_ok : Channel := {|
  channel_id := 3; channel_kind := "sms"; value := "+100";
  email_verified := false; disabled := None; last_notify := None;
  last_error := "old"; channel_checks := [1]
|}.

Definition sms_off : Channel := {|
  channel_id := 4; channel_kind := "sms"; value := "+200";
  email_verified := false; disabled := Some true; last_notify := None;
  last_error := ""; channel_checks := [1]
|}.

Definition fax : Channel := {|
  channel_id := 5; channel_kind := "fax"; value := "";
  email_verified := false; disabled := None; last_notify := None;
  last_error := ""; channel_checks := [1]
|}.

Definition zendesk : Channel := {|
  channel_id := 6; channel_kind := "zendesk"; value := "";
  email_verified := false; disabled := None; last_notify := None;
  last_error := ""; channel_checks := [1]
|}.

Definition world_alerts : World :=
  set_channels [Scenario.email_gone; sms_ok; sms_off] Scenario.world1.

Definition world_fax : World :=
  set_channels [Scenario.email_gone; fax] Scenario.world1.

Definition world_zendesk : World :=
  set_channels [Scenario.email_gone; zendesk] Scenario.world1.

Definition sent : list (Channel * string * Z) * World :=
  value_or ([], world_alerts)
    (@send_alerts Scenario.externals flip_down world_alerts).

Definition fresh_call : bool * World :=
  value_or (false, Scenario.world1) (authorize "fresh" 2 100 Scenario.world1).

(** A stand-in for SHA-1 in the examples. *)
Definition plain (s : string) : string := s.

End Cases.

(** ** The key codec: digits, lengths and order *)

Lemma dvalue_snoc ds d : dvalue (ds ++ [d]) = 10 * dvalue ds + d.
Proof.
  induction ds as [|x ds IH]; simpl; [lia|].
  rewrite IH, length_app. simpl length.
  replace (Z.of_nat (length ds + 1)) with (Z.succ (Z.of_nat (length ds))) by lia.
  rewrite Z.pow_succ_r by lia. ring.
Qed.

Lemma dvalue_bound ds : Forall is_digit ds -> 0 <= dvalue ds < 10 ^ Z.of_nat (length ds).
Proof.
  induction 1 as [|d ds Hd _ IH]; simpl dvalue; simpl length; [lia|].
  replace (Z.of_nat (S (length ds))) with (Z.succ (Z.of_nat (length ds))) by lia.
  rewrite Z.pow_succ_r by lia. unfold is_digit in Hd. nia.
Qed.

Lemma digits_fuel_spec fuel : forall n,
  0 <= n < 2 ^ Z.of_nat fuel ->
  let ds := digits_fuel fuel n in
  Forall is_digit ds /\ dvalue ds = n /\ (1 <= length ds)%nat /\
  (n = 0 \/ 10 ^ (Z.of_nat (length ds) - 1) <= n).
Proof.
  induction fuel as [|f IH]; intros n Hn; cbn zeta.
  - simpl in *. assert (n = 0) by lia. subst. repeat split; auto.
    constructor; [unfold is_digit; lia | constructor].
  - cbn [digits_fuel]. destruct (Z.ltb_spec n 10) as [Hlt|Hge].
    + simpl. repeat split; auto; try lia.
      constructor; [unfold is_digit; lia | constructor].
    + assert (Hq : 0 <= n / 10 < 2 ^ Z.of_nat f).
      { split; [apply Z.div_pos; lia|].
        apply Z.div_lt_upper_bound; [lia|].
        replace (Z.of_nat (S f)) with (Z.succ (Z.of_nat f)) in Hn by lia.
        rewrite Z.pow_succ_r in Hn by lia. lia. }
      destruct (IH _ Hq) as (Hd & Hv & Hl & Hlow).
      pose proof (Z.mod_pos_bound n 10 ltac:(lia)) as Hm.
      pose proof (Z.div_mod n 10 ltac:(lia)) as Hdm.
      repeat split.
      * apply Forall_app; split; [exact Hd|].
        constructor; [unfold is_digit; lia | constructor].
      * rewrite dvalue_snoc, Hv. lia.
      * rewrite length_app. simpl. lia.
      * right. rewrite length_app. simpl length.
        assert (1 <= n / 10) by (apply Z.div_le_lower_bound; lia).
        destruct Hlow as [H0|Hlow]; [lia|].
        replace (Z.of_nat (length (digits_fuel f (n / 10)) + 1) - 1)
          with (Z.succ (Z.of_nat (length (digits_fuel f (n / 10))) - 1)) by lia.
        rewrite Z.pow_succ_r by lia. lia.
Qed.

Lemma digits_spec n : 0 <= n ->
  Forall is_digit (digits n) /\ dvalue (digits n) = n /\ (1 <= length (digits n))%nat /\
  (n = 0 \/ 10 ^ (Z.of_nat (length (digits n)) - 1) <= n).
Proof.
  intros Hn. unfold digits. apply digits_fuel_spec.
  split; [lia|].
  destruct (Z.eq_dec n 0) as [->|Hne]; [reflexivity|].
  replace (Z.of_nat (S (Z.to_nat (Z.log2 n)))) with (Z.succ (Z.log2 n)).
  - apply Z.log2_spec. lia.
  - pose proof (Z.log2_nonneg n). lia.
Qed.

Lemma digits_upper n : 0 <= n -> n < 10 ^ Z.of_nat (length (digits n)).
Proof.
  intros Hn. destruct (digits_spec n Hn) as (Hd & Hv & _).
  pose proof (dvalue_bound _ Hd). lia.
Qed.

Lemma digits_length_le n k : 0 <= n -> (1 <= k)%nat ->
  (length (digits n) <= k)%nat <-> n < 10 ^ Z.of_nat k.
Proof.
  intros Hn Hk. destruct (digits_spec n Hn) as (_ & _ & Hl & Hlow). split.
  - intros Hle. pose proof (digits_upper n Hn).
    assert (10 ^ Z.of_nat (length (digits n)) <= 10 ^ Z.of_nat k)
      by (apply Z.pow_le_mono_r; lia). lia.
  - intros Hlt. destruct Hlow as [->|Hlow]; [change (length (digits 0)) with 1%nat; lia|].
    destruct (le_lt_dec (length (digits n)) k) as [|Hgt]; [assumption|exfalso].
    assert (10 ^ Z.of_nat k <= 10 ^ (Z.of_nat (length (digits n)) - 1))
      by (apply Z.pow_le_mono_r; lia). lia.
Qed.

Lemma digits_length_lt a b : 0 <= a -> 0 <= b ->
  (length (digits a) < length (digits b))%nat -> a < b.
Proof.
  intros Ha Hb Hlt.
  pose proof (digits_upper a Ha) as Hua.
  destruct (digits_spec b Hb) as (_ & _ & _ & [->|Hlow]).
  - change (length (digits 0)) with 1%nat in Hlt. destruct (digits_spec a Ha) as (_ & _ & ? & _). lia.
  - assert (10 ^ Z.of_nat (length (digits a)) <= 10 ^ (Z.of_nat (length (digits b)) - 1))
      by (apply Z.pow_le_mono_r; lia). lia.
Qed.

Lemma lexZ_dvalue xs : forall ys, length xs = length ys ->
  Forall is_digit xs -> Forall is_digit ys ->
  lexZ xs ys = (dvalue xs ?= dvalue ys).
Proof.
  induction xs as [|x xs IH]; intros [|y ys] Hlen Hx Hy; try discriminate; [reflexivity|].
  simpl in Hlen. injection Hlen as Hlen.
  inversion Hx as [|? ? Hdx Hxs]; subst. inversion Hy as [|? ? Hdy Hys]; subst.
  pose proof (dvalue_bound _ Hxs) as Bx. pose proof (dvalue_bound _ Hys) as By.
  cbn [lexZ dvalue]. rewrite <- Hlen in *.
  set (p := 10 ^ Z.of_nat (length xs)) in *.
  destruct (Z.compare_spec x y) as [->|Hlt|Hgt].
  - rewrite (IH ys Hlen Hxs Hys). symmetry.
    destruct (Z.compare_spec (dvalue xs) (dvalue ys)).
    + apply Z.compare_eq_iff. lia.
    + apply Z.compare_lt_iff. lia.
    + apply Z.compare_gt_iff. lia.
  - symmetry. apply Z.compare_lt_iff. nia.
  - symmetry. apply Z.compare_gt_iff. nia.
Qed.

Lemma ascii_compare_of_N a b : (a < 256)%N -> (b < 256)%N ->
  Ascii.compare (ascii_of_N a) (ascii_of_N b) = (a ?= b)%N.
Proof.
  intros Ha Hb. unfold Ascii.compare. now rewrite !N_ascii_embedding.
Qed.

Lemma string_compare_refl s : String.compare s s = Eq.
Proof.
  induction s as [|c s IH]; [reflexivity|]. simpl.
  unfold Ascii.compare. now rewrite N.compare_refl.
Qed.

Lemma append_cons c s r : (String c s ++ r)%string = String c (s ++ r).
Proof. reflexivity. Qed.

Lemma compare_inverted xs : forall ys r1 r2, length xs = length ys ->
  Forall is_digit xs -> Forall is_digit ys ->
  String.compare (string_of_list_ascii (map inv_char xs) ++ r1)
                 (string_of_list_ascii (map inv_char ys) ++ r2)
  = match lexZ ys xs with
    | Eq => String.compare r1 r2
    | c => c
    end.
Proof.
  induction xs as [|x xs IH]; intros [|y ys] r1 r2 Hlen Hx Hy; try discriminate; [reflexivity|].
  simpl in Hlen. injection Hlen as Hlen.
  inversion Hx as [|? ? Hdx Hxs]; subst. inversion Hy as [|? ? Hdy Hys]; subst.
  unfold is_digit in Hdx, Hdy.
  cbn [map string_of_list_ascii lexZ]. rewrite !append_cons.
  cbn [String.compare]. rewrite (IH ys r1 r2 Hlen Hxs Hys).
  unfold inv_char, ASCII_J. rewrite ascii_compare_of_N by lia.
  destruct (Z.compare_spec y x) as [->|Hlt|Hgt].
  - rewrite N.compare_refl. reflexivity.
  - assert (E : (Z.to_N (106 - x) ?= Z.to_N (106 - y))%N = Lt)
      by (apply N.compare_lt_iff; lia).
    rewrite E. reflexivity.
  - assert (E : (Z.to_N (106 - x) ?= Z.to_N (106 - y))%N = Gt)
      by (apply N.compare_gt_iff; lia).
    rewrite E. reflexivity.
Qed.

Lemma length_string_of_list_ascii l :
  String.length (string_of_list_ascii l) = length l.
Proof. induction l; simpl; congruence. Qed.

Lemma str_nonneg n : 0 <= n -> str n = string_of_list_ascii (map digit_char (digits n)).
Proof. intros Hn. unfold str. destruct (Z.ltb_spec n 0); [lia|reflexivity]. Qed.

Lemma mapM_invert ds : Forall is_digit ds ->
  mapM (fun c => do d <- int_of_char c; chr (ASCII_J - d)) (map digit_char ds)
  = Ok (map inv_char ds).
Proof.
  induction 1 as [|d ds Hd _ IH]; [reflexivity|].
  cbn [map mapM]. rewrite IH.
  assert (E : int_of_char (digit_char d) = Ok d).
  { unfold is_digit in Hd.
    assert (Hc : d = 0 \/ d = 1 \/ d = 2 \/ d = 3 \/ d = 4 \/ d = 5 \/ d = 6
                 \/ d = 7 \/ d = 8 \/ d = 9) by lia.
    repeat (destruct Hc as [->|Hc]; [reflexivity|]). subst; reflexivity. }
  rewrite E. cbn [bind]. unfold chr, inv_char, ASCII_J, is_digit in *.
  destruct (Z.leb_spec 0 (106 - d)); [|lia].
  destruct (Z.ltb_spec (106 - d) 256); [|lia]. reflexivity.
Qed.

Lemma enc_in_range n : 0 <= n < 10 ^ 123 -> enc n = Ok (key_of n).
Proof.
  intros [Hn Hlt]. destruct (digits_spec n Hn) as (Hd & _ & Hl & _).
  assert (Hlen : (length (digits n) <= 123)%nat)
    by (apply digits_length_le; [lia|lia|exact Hlt]).
  unfold enc, key_of. rewrite (str_nonneg n Hn).
  rewrite length_string_of_list_ascii, length_map.
  rewrite list_ascii_of_string_of_list_ascii, (mapM_invert _ Hd).
  unfold chr, ASCII_Z.
  destruct (Z.leb_spec 0 (122 - Z.of_nat (length (digits n)) + 1)); [|lia].
  destruct (Z.ltb_spec (122 - Z.of_nat (length (digits n)) + 1) 256); [|lia].
  reflexivity.
Qed.

Lemma enc_out_of_range n : 10 ^ 123 <= n -> enc n = Raise ValueError.
Proof.
  intros Hge. assert (Hn : 0 <= n) by (pose proof (Z.pow_pos_nonneg 10 123); lia).
  assert (Hlen : ~ (length (digits n) <= 123)%nat)
    by (rewrite digits_length_le; lia).
  unfold enc. rewrite (str_nonneg n Hn).
  rewrite length_string_of_list_ascii, length_map.
  unfold chr, ASCII_Z.
  destruct (Z.leb_spec 0 (122 - Z.of_nat (length (digits n)) + 1)); [lia|].
  reflexivity.
Qed.

Lemma key_of_compare a b : 0 <= a < 10 ^ 123 -> 0 <= b < 10 ^ 123 ->
  String.compare (key_of a) (key_of b) = (b ?= a).
Proof.
  intros [Ha Ha'] [Hb Hb'].
  destruct (digits_spec a Ha) as (Hda & Hva & Hla & _).
  destruct (digits_spec b Hb) as (Hdb & Hvb & Hlb & _).
  assert (Hlena : (length (digits a) <= 123)%nat) by (apply digits_length_le; lia).
  assert (Hlenb : (length (digits b) <= 123)%nat) by (apply digits_length_le; lia).
  unfold key_of. cbn [String.compare]. unfold ASCII_Z.
  rewrite ascii_compare_of_N by lia.
  destruct (lt_eq_lt_dec (length (digits a)) (length (digits b))) as [[Hlt|Heq]|Hgt].
  - assert (E : (Z.to_N (122 - Z.of_nat (length (digits a)) + 1)
                 ?= Z.to_N (122 - Z.of_nat (length (digits b)) + 1))%N = Gt)
      by (apply N.compare_gt_iff; lia).
    rewrite E. symmetry. apply Z.compare_gt_iff.
    apply digits_length_lt; assumption.
  - rewrite Heq, N.compare_refl.
    rewrite (compare_inverted _ _ _ _ Heq Hda Hdb).
    rewrite (lexZ_dvalue _ _ (eq_sym Heq) Hdb Hda), Hva, Hvb.
    destruct (Z.compare_spec b a) as [->|?|?]; try reflexivity.
    apply string_compare_refl.
  - assert (E : (Z.to_N (122 - Z.of_nat (length (digits a)) + 1)
                 ?= Z.to_N (122 - Z.of_nat (length (digits b)) + 1))%N = Lt)
      by (apply N.compare_lt_iff; lia).
    rewrite E. symmetry. apply Z.compare_lt_iff.
    apply digits_length_lt; assumption.
Qed.

(** ** Listings and deletions in the object store *)

Lemma prefix_append p s : String.prefix p (p ++ s) = true.
Proof.
  induction p as [|c p IH]; [destruct s; reflexivity|].
  rewrite append_cons. cbn [String.prefix].
  destruct (ascii_dec c c); [exact IH|congruence].
Qed.

Lemma compare_append p a b : String.compare (p ++ a) (p ++ b) = String.compare a b.
Proof.
  induction p as [|c p IH]; [reflexivity|].
  rewrite !append_cons. cbn [String.compare].
  unfold Ascii.compare. rewrite N.compare_refl. exact IH.
Qed.

Lemma elem_of_list_objects bucket prefix start_after k :
  k ∈ list_objects bucket prefix start_after <->
  is_Some (bucket !! k) /\ String.prefix prefix k = true
  /\ (start_after <? k)%string = true.
Proof.
  unfold list_objects. rewrite merge_sort_Permutation.
  rewrite list_elem_of_filter, elem_of_elements, elem_of_dom.
  rewrite andb_True, !Is_true_true. tauto.
Qed.

Lemma lookup_delete_all names (bucket : gmap string string) k :
  delete_all names bucket !! k = if decide (k ∈ names) then None else bucket !! k.
Proof.
  induction names as [|x names IH]; simpl.
  - destruct (decide (k ∈ [])) as [H|]; [inversion H|reflexivity].
  - destruct (decide (x = k)) as [->|Hne].
    + rewrite lookup_delete_eq. destruct (decide (k ∈ k :: names)) as [|H]; [reflexivity|].
      exfalso. apply H. left.
    + rewrite lookup_delete_ne by exact Hne. rewrite IH.
      destruct (decide (k ∈ names)) as [Hin|Hnin];
        destruct (decide (k ∈ x :: names)) as [Hin'|Hnin']; try reflexivity.
      * exfalso. apply Hnin'. right. exact Hin.
      * exfalso. apply elem_of_cons in Hin'. destruct Hin'; congruence.
Qed.

Lemma ltb_key_of code a b : 0 <= a < 10 ^ 123 -> 0 <= b < 10 ^ 123 ->
  ((code ++ "/" ++ key_of a) <? (code ++ "/" ++ key_of b))%string = true <-> b < a.
Proof.
  intros Ha Hb. unfold String.ltb.
  rewrite !compare_append, (key_of_compare a b Ha Hb).
  destruct (Z.compare_spec b a); split; intros; try lia; try reflexivity; discriminate.
Qed.

Lemma append_assoc (a b c : string) : ((a ++ b) ++ c = a ++ (b ++ c))%string.
Proof.
  induction a as [|x a IH]; [reflexivity|].
  rewrite !append_cons. now rewrite IH.
Qed.

Lemma prefix_append_false p q s :
  String.prefix p (q ++ s) = false -> p <> q.
Proof. intros Hf ->. now rewrite prefix_append in Hf. Qed.

Lemma chr_raises i e : chr i = Raise e -> e = ValueError.
Proof. unfold chr. destruct (_ && _); congruence. Qed.

Lemma enc_negative_raises n : n < 0 -> enc n = Raise ValueError.
Proof.
  intros Hn. unfold enc, str.
  destruct (Z.ltb_spec n 0); [|lia].
  destruct (chr _) as [c|e] eqn:Hc; cbn [bind].
  - cbn [list_ascii_of_string mapM].
    change (int_of_char "-") with (@Raise Z ValueError). reflexivity.
  - now rewrite (chr_raises _ _ Hc).
Qed.

Lemma remove_objects_lookup cfg bucket code T k key :
  configured cfg = true -> T + 1 < 10 ^ 123 ->
  0 <= k < 10 ^ 123 -> object_key code k = Ok key ->
  remove_objects cfg bucket code T !! key
  = if k <=? T then None else bucket !! key.
Proof.
  intros Hcfg HT Hk Hkey.
  unfold object_key in Hkey. rewrite (enc_in_range k Hk) in Hkey.
  cbn [bind] in Hkey. injection Hkey as <-.
  unfold remove_objects, _remove_objects.
  destruct (enc (T + 1)) as [kT|e] eqn:HkT; cbn [bind].
  - assert (HT0 : 0 <= T + 1 < 10 ^ 123).
    { split; [|exact HT]. destruct (Z.le_gt_cases 0 (T + 1)) as [|Hneg]; [assumption|].
      rewrite enc_negative_raises in HkT by lia. discriminate. }
    rewrite (enc_in_range _ HT0) in HkT. injection HkT as <-.
    unfold client. rewrite Hcfg. cbn [bind].
    rewrite lookup_delete_all, <- append_assoc.
    destruct (decide (_ ∈ _)) as [Hin|Hnin].
    + apply elem_of_list_objects in Hin. destruct Hin as (_ & _ & Hlt).
      rewrite !append_assoc in Hlt. apply ltb_key_of in Hlt; [|assumption|assumption].
      destruct (Z.leb_spec k T); [reflexivity|lia].
    + destruct (Z.leb_spec k T) as [Hle|Hgt]; [|reflexivity].
      destruct (bucket !! ((code ++ "/") ++ key_of k)) as [v|] eqn:Hlk; [|reflexivity].
      exfalso. apply Hnin. apply elem_of_list_objects.
      split; [eauto|]. split; [apply prefix_append|].
      rewrite !append_assoc. apply ltb_key_of; [assumption|assumption|lia].
  - destruct (Z.leb_spec k T) as [Hle|Hgt]; [|reflexivity].
    exfalso. assert (HT0 : 0 <= T + 1 < 10 ^ 123) by lia.
    rewrite (enc_in_range _ HT0) in HkT. discriminate.
Qed.

Lemma remove_objects_other cfg bucket code T name :
  String.prefix (code ++ "/") name = false ->
  remove_objects cfg bucket code T !! name = bucket !! name.
Proof.
  intros Hpre. unfold remove_objects, _remove_objects.
  destruct (enc (T + 1)) as [kT|e]; cbn [bind]; [|reflexivity].
  destruct (client cfg); cbn [bind]; [|reflexivity].
  rewrite lookup_delete_all.
  destruct (decide (_ ∈ _)) as [Hin|Hnin]; [|reflexivity].
  apply elem_of_list_objects in Hin. destruct Hin as (_ & Hp & _). congruence.
Qed.

(** ** Facts about the models *)

Section ModelFacts.
Context `{Externals}.

Lemma str_in_cons x y l : str_in x (y :: l) = (x =? y)%string || str_in x l.
Proof. reflexivity. Qed.

Lemma eqb_neq_false (x y : string) : x <> y -> (x =? y)%string = false.
Proof. apply String.eqb_neq. Qed.

Lemma float_ltb_leb (x y : float) : (x <? y)%float = true -> (x <=? y)%float = true.
Proof.
  rewrite FloatAxioms.ltb_spec, FloatAxioms.leb_spec. unfold SFltb, SFleb.
  destruct (SFcompare _ _) as [[]|]; congruence.
Qed.

Lemma py_min_cap (x : float) : (py_min 1 x <=? 1)%float = true.
Proof.
  unfold py_min. destruct (x <? 1)%float eqn:E.
  - apply float_ltb_leb, E.
  - reflexivity.
Qed.

Lemma prune_pings self w :
  pings (prune self w)
  = List.filter (fun p => negb (n_lte (check_id self) (threshold_of self w) p)) (pings w).
Proof.
  unfold prune, threshold_of.
  destruct (earliest _ _); destruct (configured (cfg w)); reflexivity.
Qed.

Lemma prune_bucket self w :
  bucket (prune self w)
  = if configured (cfg w)
    then remove_objects (cfg w) (bucket w) (code self) (threshold_of self w)
    else bucket w.
Proof.
  unfold prune, threshold_of.
  destruct (earliest _ _); destruct (configured (cfg w)); reflexivity.
Qed.

Lemma prune_notifications self w :
  notifications (prune self w)
  = match earliest (check_id self) (pings (prune self w)) with
    | Some ping =>
        List.filter
          (fun nt => negb (created_lt (check_id self) (ping_created ping) nt))
          (notifications w)
    | None => notifications w
    end.
Proof.
  rewrite prune_pings. unfold prune, threshold_of.
  destruct (configured (cfg w)); cbn;
    destruct (earliest _ _); reflexivity.
Qed.

Lemma prune_journal self w :
  journal (prune self w)
  = (journal w
     ++ (if configured (cfg w)
         then [RemoveObjects (code self) (threshold_of self w)] else [])
     ++ [DeletePings (check_id self) (threshold_of self w)]
     ++ match earliest (check_id self) (pings (prune self w)) with
        | Some ping => [DeleteNotifications (check_id self) (ping_created ping)]
        | None => []
        end)%list.
Proof.
  rewrite prune_pings. unfold prune, threshold_of.
  destruct (configured (cfg w)); cbn;
    destruct (earliest _ _); cbn; rewrite <- ?app_assoc; reflexivity.
Qed.

Lemma earliest_None owner ps :
  earliest owner ps = None <-> forall p, p ∈ ps -> ping_owner p <> owner.
Proof.
  induction ps as [|p ps IH]; cbn [earliest].
  - split; [intros _ q Hq; inversion Hq|reflexivity].
  - destruct (Z.eqb_spec (ping_owner p) owner) as [Heq|Hne].
    + split.
      * destruct (earliest owner ps) as [q|]; [destruct (ping_id q <? ping_id p)|]; discriminate.
      * intros Hall. exfalso. apply (Hall p); [left|exact Heq].
    + rewrite IH. split.
      * intros Hall q Hq. apply elem_of_cons in Hq. destruct Hq as [->|Hq]; auto.
      * intros Hall q Hq. apply Hall. right. exact Hq.
Qed.

Lemma earliest_Some owner ps p :
  earliest owner ps = Some p ->
  p ∈ ps /\ ping_owner p = owner /\
  forall q, q ∈ ps -> ping_owner q = owner -> ping_id p <= ping_id q.
Proof.
  revert p. induction ps as [|x ps IH]; cbn [earliest]; intros p Hp; [discriminate|].
  destruct (Z.eqb_spec (ping_owner x) owner) as [Heq|Hne].
  - destruct (earliest owner ps) as [q|] eqn:Hq.
    + destruct (IH q eq_refl) as (Hin & Ho & Hmin).
      destruct (Z.ltb_spec (ping_id q) (ping_id x)) as [Hlt|Hge];
        injection Hp as <-.
      * split; [right; exact Hin|]. split; [exact Ho|].
        intros r Hr Hor. apply elem_of_cons in Hr. destruct Hr as [->|Hr]; [lia|auto].
      * split; [left|]. split; [exact Heq|].
        intros r Hr Hor. apply elem_of_cons in Hr. destruct Hr as [->|Hr]; [lia|].
        specialize (Hmin r Hr Hor). lia.
    + injection Hp as <-. split; [left|]. split; [exact Heq|].
      intros r Hr Hor. apply elem_of_cons in Hr. destruct Hr as [->|Hr]; [lia|].
      exfalso. exact (proj1 (earliest_None _ _) Hq r Hr Hor).
  - destruct (IH p Hp) as (Hin & Ho & Hmin).
    split; [right; exact Hin|]. split; [exact Ho|].
    intros r Hr Hor. apply elem_of_cons in Hr. destruct Hr as [->|Hr]; [congruence|auto].
Qed.

Lemma n_lte_true owner T p :
  n_lte owner T p = true <->
  ping_owner p = owner /\ exists k, n p = Some k /\ k <= T.
Proof.
  unfold n_lte. rewrite andb_true_iff, Z.eqb_eq.
  destruct (n p) as [k|].
  - rewrite Z.leb_le. split.
    + intros [? ?]. eauto.
    + intros [? (k' & [= <-] & ?)]. auto.
  - split; [intros [_ ?]; discriminate|intros [_ (k & ? & _)]; discriminate].
Qed.

Lemma created_lt_true owner t nt :
  created_lt owner t nt = true <->
  notification_owner nt = Some owner /\ notification_created nt < t.
Proof.
  unfold created_lt. destruct (notification_owner nt) as [o|].
  - rewrite andb_true_iff, Z.eqb_eq, Z.ltb_lt. split.
    + intros [-> ?]. auto.
    + intros [[= ->] ?]. auto.
  - split; [discriminate|intros [? _]; discriminate].
Qed.

Lemma elem_of_filter_negb {A} (f : A -> bool) (l : list A) x :
  x ∈ List.filter (fun y => negb (f y)) l <-> x ∈ l /\ f x <> true.
Proof.
  rewrite !list_elem_of_In, filter_In, negb_true_iff.
  destruct (f x); intuition congruence.
Qed.

Lemma prune_flips self w : flips (prune self w) = flips w.
Proof.
  unfold prune. destruct (configured (cfg w)); cbn;
    destruct (earliest _ _); reflexivity.
Qed.

Lemma apply_action_idle self act t w :
  act = "start" \/ act = "ign" ->
  snd (apply_action self act t w) = w /\
  status (fst (apply_action self act t w)) = status self.
Proof.
  intros [-> | ->]; split; reflexivity.
Qed.

Lemma apply_action_finish self act t w :
  act <> "start" -> act <> "ign" ->
  let self1 := fst (apply_action self act t w) in
  let w1 := snd (apply_action self act t w) in
  status self1 = new_status_for act /\
  last_ping self1 = Some t /\
  check_id self1 = check_id self /\
  (status self <> new_status_for act ->
   w1 = save_flip (check_id self) t (status self) (new_status_for act) w) /\
  (status self = new_status_for act -> w1 = w).
Proof.
  intros Hs Hi. unfold apply_action.
  rewrite (proj2 (String.eqb_neq _ _) Hs), (proj2 (String.eqb_neq _ _) Hi).
  cbn [record_finish status].
  destruct (String.eqb_spec (status self) (new_status_for act)) as [Heq|Hne];
    cbn [negb fst snd]; repeat split; try reflexivity; try congruence.
  exact Heq.
Qed.

Lemma ingest_inv self ra sc me ua_ body action es w self2 w4 :
  ingest self ra sc me ua_ body action es w = Ok (self2, w4) ->
  let act := effective_action self action in
  let self1 := fst (apply_action self act (now w) w) in
  let w1 := snd (apply_action self act (now w) w) in
  exists aa stored rest p,
    going_down_after self1 = Ok aa /\
    find_check (check_id self1) w1 = Some stored /\
    self2 = set_bookkeeping aa (n_pings stored + 1) (has_confirm body) self1 /\
    flips w4 = flips w1 /\
    notifications w4 = notifications w1 /\
    journal w4 = (journal w1 ++ SaveCheck self2 :: rest)%list /\
    (rest = [InsertPing p] \/
     rest = [PutObject (code self2) (n_pings self2); InsertPing p]) /\
    pings w4 = (pings w1 ++ [p])%list /\
    n p = Some (n_pings self2) /\
    ping_created p = now w /\
    ping_owner p = check_id self2.
Proof.
  intros Hing act self1 w1. unfold ingest in Hing. fold act in Hing.
  destruct (apply_action self act (now w) w) as [s1 ww1] eqn:Hact.
  cbn [fst snd] in self1, w1. subst self1 w1.
  destruct (going_down_after s1) as [aa|e]; cbn [bind] in Hing; [|discriminate].
  unfold save_and_refresh in Hing.
  destruct (find_check (check_id s1) ww1) as [stored|]; cbn [bind] in Hing; [|discriminate].
  set (row := set_bookkeeping aa (n_pings stored + 1) (has_confirm body) s1) in *.
  destruct ((100 <? Z.of_nat (String.length body)) && _) eqn:Harch.
  - destruct (put_object _ _ _ _ _) as [b|e]; cbn [bind] in Hing; [|discriminate].
    injection Hing as <- <-.
    eexists aa, stored, _, _. repeat split; try reflexivity.
    + cbn. rewrite <- !app_assoc. reflexivity.
    + right. reflexivity.
  - cbn [bind] in Hing. injection Hing as <- <-.
    eexists aa, stored, _, _. repeat split; try reflexivity.
    + cbn. rewrite <- !app_assoc. reflexivity.
    + left. reflexivity.
Qed.

Lemma ping_inv self ra sc me ua_ body action es w self2 w' :
  ping self ra sc me ua_ body action es w = Ok (self2, w') ->
  exists w4,
    ingest self ra sc me ua_ body action es w = Ok (self2, w4) /\
    w' = (if n_pings self2 mod 100 =? 0 then prune self2 w4 else w4).
Proof.
  unfold ping.
  destruct (ingest self ra sc me ua_ body action es w) as [[s2 w4]|e];
    cbn [bind]; [|discriminate].
  destruct (n_pings s2 mod 100 =? 0) eqn:E; intros [= <- <-];
    exists w4; rewrite E; split; reflexivity.
Qed.

Lemma new_status_for_cases act :
  new_status_for act = "down" \/ new_status_for act = "up".
Proof. unfold new_status_for. destruct (act =? "fail")%string; auto. Qed.

Lemma effective_action_monitored self action :
  status self = "down" \/ status self = "up" ->
  effective_action self action = action.
Proof. unfold effective_action. intros [-> | ->]; reflexivity. Qed.

Lemma ping_flips self ra sc me ua_ body action es w self2 w' :
  ping self ra sc me ua_ body action es w = Ok (self2, w') ->
  let act := effective_action self action in
  let w1 := snd (apply_action self act (now w) w) in
  status self2 = status (fst (apply_action self act (now w) w)) /\
  last_ping self2 = last_ping (fst (apply_action self act (now w) w)) /\
  flips w' = flips w1 /\
  exists rest, journal w' = (journal w1 ++ SaveCheck self2 :: rest)%list.
Proof.
  intros Hping act w1.
  destruct (ping_inv _ _ _ _ _ _ _ _ _ _ _ Hping) as (w4 & Hing & ->).
  destruct (ingest_inv _ _ _ _ _ _ _ _ _ _ _ Hing)
    as (aa & stored & rest & p & _ & _ & -> & Hfl & _ & Hj & _).
  fold act in Hfl, Hj. fold w1 in Hfl, Hj.
  split; [reflexivity|]. split; [reflexivity|].
  destruct (_ =? 0).
  - rewrite prune_flips, prune_journal, Hj, Hfl. split; [reflexivity|].
    rewrite <- app_assoc. cbn [app]. eexists. reflexivity.
  - split; [exact Hfl|]. exists rest. exact Hj.
Qed.

End ModelFacts.

(** ** The properties of the specification *)

(** *** The key codec *)

Example enc_doctest :
  map enc [0; 1; 2; 3; 4]
  = [Ok "zj-0"; Ok "zi-1"; Ok "zh-2"; Ok "zg-3"; Ok "zf-4"].
Proof. reflexivity. Qed.

Example enc_doctest_sorted :
  merge_sort str_le ["zj-0"; "zi-1"; "zh-2"; "zg-3"; "zf-4"]
  = ["zf-4"; "zg-3"; "zh-2"; "zi-1"; "zj-0"].
Proof. vm_compute. reflexivity. Qed.

Example str_examples :
  map str [0; 7; 10; 123; 1000; -45] = ["0"; "7"; "10"; "123"; "1000"; "-45"].
Proof. reflexivity. Qed.

(** [str] prints what the library's decimal printer prints. *)
Example str_agrees_with_decimal :
  forallb (fun z => (str z =? NilZero.string_of_int (Z.to_int z))%string)
    [0; 1; 9; 10; 99; 100; 101; 4096; 65535; 1000000; 2147483647;
     10 ^ 40 + 7; -1; -10; -2147483648] = true.
Proof. vm_compute. reflexivity. Qed.

Example enc_negative : enc (-5) = Raise ValueError.
Proof. reflexivity. Qed.

(** C2, as amended.  For all non-negative integers [a] and [b] of at most
    123 decimal digits, [enc] returns a key for each, the key of [a] is
    lexicographically less than the key of [b] if and only if [a > b], and
    equal keys come from equal numbers. *)
Theorem enc_reverses_order (a b : Z) :
  0 <= a < 10 ^ 123 ->
  0 <= b < 10 ^ 123 ->
  exists ka kb,
    enc a = Ok ka /\ enc b = Ok kb /\
    ((ka <? kb)%string = true <-> a > b) /\
    (ka = kb -> a = b).
Proof.
  intros Ha Hb. exists (key_of a), (key_of b).
  split; [apply enc_in_range, Ha|]. split; [apply enc_in_range, Hb|].
  pose proof (key_of_compare a b Ha Hb) as Hcmp. split.
  - unfold String.ltb. rewrite Hcmp.
    destruct (Z.compare_spec b a); split; intros; try lia; try reflexivity;
      discriminate.
  - intros Heq. rewrite Heq, string_compare_refl in Hcmp.
    symmetry in Hcmp. apply Z.compare_eq_iff in Hcmp. congruence.
Qed.

Lemma enc_reverses_order_witness :
  exists ka kb,
    enc 1000 = Ok ka /\ enc 999 = Ok kb /\
    ((ka <? kb)%string = true <-> 1000 > 999) /\
    (ka = kb -> 1000 = 999).
Proof.
  apply (enc_reverses_order 1000 999); split; solve [lia | reflexivity].
Defined.

(** C2 as stated fails: a number of 124 digits has no key, because the
    length character would be [chr(-1)]. *)
Lemma enc_rejects_124_digits :
  0 <= 0 /\ 10 ^ 123 > 0 /\
  ~ exists ka kb,
      enc (10 ^ 123) = Ok ka /\ enc 0 = Ok kb /\ (ka <? kb)%string = true.
Proof.
  split; [lia|]. split; [reflexivity|].
  intros (ka & kb & Ha & _).
  rewrite enc_out_of_range in Ha by lia. discriminate.
Qed.

(** *** Range scans over the archive *)

Lemma str_le_total : Total str_le.
Proof.
  intros a b. unfold str_le.
  destruct (String.leb_total a b) as [E|E]; rewrite E; [left|right]; exact I.
Qed.

Lemma list_objects_sorted bucket prefix start_after :
  Sorted str_le (list_objects bucket prefix start_after).
Proof. apply (@Sorted_merge_sort _ str_le _ str_le_total). Qed.

(** C3, as amended.  For every threshold and every number of at most 123
    digits, the sorted listing of the keys of a check that lie strictly
    after [enc threshold] holds the key of [k] exactly when that key is
    in the bucket and [k < threshold]; started after
    [enc (upto_n + 1)], as [_remove_objects] does, it holds exactly the
    stored keys with [k <= upto_n]. *)
Theorem listing_after_enc (bucket : gmap string string) (code : string)
    (threshold k : Z) :
  0 <= threshold < 10 ^ 123 ->
  0 <= k < 10 ^ 123 ->
  exists start key,
    enc threshold = Ok start /\ object_key code k = Ok key /\
    Sorted str_le (list_objects bucket (code ++ "/") ((code ++ "/") ++ start)) /\
    (key ∈ list_objects bucket (code ++ "/") ((code ++ "/") ++ start) <->
     is_Some (bucket !! key) /\ k < threshold) /\
    (forall upto_n, threshold = upto_n + 1 ->
       key ∈ list_objects bucket (code ++ "/") ((code ++ "/") ++ start) <->
       is_Some (bucket !! key) /\ k <= upto_n).
Proof.
  intros HT Hk. exists (key_of threshold), (code ++ "/" ++ key_of k)%string.
  split; [apply enc_in_range, HT|].
  split; [unfold object_key; rewrite (enc_in_range k Hk); reflexivity|].
  split; [apply list_objects_sorted|].
  assert (Hmem :
    (code ++ "/" ++ key_of k)%string
      ∈ list_objects bucket (code ++ "/") ((code ++ "/") ++ key_of threshold) <->
    is_Some (bucket !! (code ++ "/" ++ key_of k)%string) /\ k < threshold).
  { rewrite elem_of_list_objects, (append_assoc code "/" (key_of threshold)).
    rewrite (ltb_key_of code threshold k HT Hk).
    rewrite <- (append_assoc code "/" (key_of k)), prefix_append. tauto. }
  split; [exact Hmem|].
  intros upto_n ->. rewrite Hmem. intuition lia.
Qed.

Lemma listing_after_enc_witness :
  exists start key,
    enc 3 = Ok start /\ object_key "c0de" 2 = Ok key /\
    (key ∈ list_objects (bucket Scenario.world1) "c0de/" ("c0de/" ++ start) <->
     is_Some (bucket Scenario.world1 !! key) /\ 2 < 3).
Proof.
  destruct (listing_after_enc (bucket Scenario.world1) "c0de" 3 2)
    as (start & key & H1 & H2 & _ & H3 & _);
    [split; solve [lia | reflexivity] .. |].
  exists start, key. split; [exact H1|]. split; [exact H2|]. exact H3.
Defined.

(** C3 as stated fails: the key of the threshold itself does not lie
    strictly after [enc threshold], so it is not listed although
    [3 <= 3] and the bucket holds it. *)
Lemma listing_excludes_threshold :
  enc 3 = Ok "zg-3" /\ object_key "c0de" 3 = Ok "c0de/zg-3" /\
  is_Some (bucket Scenario.world1 !! "c0de/zg-3") /\ 3 <= 3 /\
  "c0de/zg-3" ∉ list_objects (bucket Scenario.world1) "c0de/" ("c0de/" ++ "zg-3").
Proof.
  split; [reflexivity|]. split; [reflexivity|].
  split; [vm_compute; eauto|]. split; [lia|].
  rewrite elem_of_list_objects. intros (_ & _ & Hlt). vm_compute in Hlt.
  discriminate.
Qed.

(** *** The status of a check *)

(** C5.  Whenever a check has a [last_start] and [now >= last_start +
    grace], [get_status] returns ["down"], whatever the stored status (the
    sticky ["new"], ["paused"] and ["down"] included), the kind, the
    schedule and [with_started]. *)
Theorem get_status_overdue_start `{Externals} (self : Check) (with_started : bool)
    (w : World) (ls : Z) :
  last_start self = Some ls ->
  now w >= ls + grace self ->
  get_status self with_started w = Ok "down".
Proof.
  intros Hls Hnow. unfold get_status, started_status. rewrite Hls.
  destruct (Z.leb_spec (ls + grace self) (now w)); [reflexivity|lia].
Qed.

Lemma get_status_overdue_start_witness :
  @get_status Scenario.externals
    (set_status "paused" (set_last_start (Some 0) Scenario.check1)) true
    (set_now 30000000 Scenario.world1) = Ok "down"
  /\
  @get_status Scenario.externals
    (set_status "new" (set_last_start (Some 0) Scenario.check1)) false
    (set_now 30000000 Scenario.world1) = Ok "down".
Proof.
  split.
  - apply (@get_status_overdue_start Scenario.externals _ _ _ 0);
      [reflexivity | cbn; lia].
  - apply (@get_status_overdue_start Scenario.externals _ _ _ 0);
      [reflexivity | cbn; lia].
Defined.

Example get_status_scenario :
  map (fun t => @get_status Scenario.externals Scenario.check1 true
                  (set_now t Scenario.world1))
      [62000000; 63000000; 92000000; 93000000; 200000000]
  = [Ok "up"; Ok "grace"; Ok "grace"; Ok "down"; Ok "down"].
Proof. reflexivity. Qed.

(** *** Alerts on a flip *)

(** C7.  [send_alerts] on a flip from ["new"] or ["paused"] to ["up"]
    yields nothing and leaves the world as it was (no notification row, no
    transport call); on a flip whose new status is neither ["up"] nor
    ["down"] it raises: the [NotImplementedError] it means to raise gives
    way to the [AttributeError] of formatting its message. *)
Theorem send_alerts_silent_or_fatal `{Externals} (self : Flip) (w : World) :
  (new_status self = "up" ->
   old_status self = "new" \/ old_status self = "paused" ->
   send_alerts self w = Ok ([], w))
  /\
  (new_status self <> "up" -> new_status self <> "down" ->
   send_alerts self w = Raise AttributeError).
Proof.
  split.
  - intros Hup Hold. unfold send_alerts. rewrite Hup.
    destruct Hold as [-> | ->]; reflexivity.
  - intros Hup Hdown. unfold send_alerts.
    rewrite (eqb_neq_false _ _ Hup). cbn [andb].
    rewrite !str_in_cons, (eqb_neq_false _ _ Hup), (eqb_neq_false _ _ Hdown).
    reflexivity.
Qed.

Lemma send_alerts_silent_or_fatal_witness :
  @send_alerts Scenario.externals Scenario.flip_resumed Scenario.world1
    = Ok ([], Scenario.world1)
  /\ @send_alerts Scenario.externals Scenario.flip_odd Scenario.world1
    = Raise AttributeError.
Proof.
  split.
  - apply (proj1 (@send_alerts_silent_or_fatal Scenario.externals
                    Scenario.flip_resumed Scenario.world1));
      [reflexivity | right; reflexivity].
  - apply (proj2 (@send_alerts_silent_or_fatal Scenario.externals
                    Scenario.flip_odd Scenario.world1)); discriminate.
Defined.

(** *** Ingestion of a ping *)

(** [ping] returns: for a check of the simple kind whose row is stored, a
    success or a fail with a body of at most 100 bytes is ingested without
    an exception. *)
Lemma going_down_after_simple `{Externals} (c : Check) t :
  kind c = "simple" -> last_ping c = Some t ->
  exists aa, going_down_after c = Ok aa.
Proof.
  intros Hk Hl. unfold going_down_after, get_grace_start. rewrite Hk, Hl.
  cbn [String.eqb Ascii.eqb Bool.eqb andb].
  destruct (status c =? "up")%string; cbn [bind]; eexists; reflexivity.
Qed.

Lemma ping_returns `{Externals} (self stored : Check) (ra : option string)
    (sc me ua_ body action : string) (es : option Z) (w : World) :
  kind self = "simple" ->
  effective_action self action <> "start" ->
  effective_action self action <> "ign" ->
  find_check (check_id self) w = Some stored ->
  (String.length body <= 100)%nat ->
  exists self2 w', ping self ra sc me ua_ body action es w = Ok (self2, w').
Proof.
  intros Hk Hs Hi Hfind Hlen.
  set (act := effective_action self action) in *.
  destruct (apply_action_finish self act (now w) w Hs Hi)
    as (_ & Hlp & Hid & Hchg & Hsame).
  assert (Hk1 : kind (fst (apply_action self act (now w) w)) = "simple").
  { unfold apply_action.
    rewrite (proj2 (String.eqb_neq _ _) Hs), (proj2 (String.eqb_neq _ _) Hi).
    destruct (negb _); exact Hk. }
  assert (Hf1 : find_check (check_id (fst (apply_action self act (now w) w)))
                  (snd (apply_action self act (now w) w)) = Some stored).
  { rewrite Hid.
    destruct (string_dec (status self) (new_status_for act)) as [E|E].
    - rewrite (Hsame E). exact Hfind.
    - rewrite (Hchg E). exact Hfind. }
  destruct (going_down_after_simple _ _ Hk1 Hlp) as [aa Haa].
  unfold ping, ingest. fold act.
  destruct (apply_action self act (now w) w) as [self1 w1].
  cbn [fst snd] in *. rewrite Haa. cbn [bind].
  unfold save_and_refresh. rewrite Hf1. cbn [bind].
  assert (Hsmall : (100 <? Z.of_nat (String.length body)) = false)
    by (apply Z.ltb_ge; lia).
  rewrite Hsmall. cbn [andb bind].
  destruct (_ =? 0); eexists _, _; reflexivity.
Qed.

(** C4.  A ping creates a [Flip] exactly when it changes the stored
    status.  When the action [ping] goes on with (after a paused check
    with [manual_resume] has turned whatever arrives into ["ign"]) is a
    success or a fail, the check ends with the new status computed from
    the action and with [last_ping] at the time of the ping; if the new
    status differs from the stored one, exactly one [Flip] is added, owned
    by the check, created at that [last_ping], with the prior and the new
    status, and it is written before the check's row is saved; if they
    are equal no [Flip] is added; and a following ping with the same
    resulting status adds none either. *)
Theorem ping_creates_flip_on_change `{Externals}
    (self : Check) (ra : option string) (sc me ua_ body action : string)
    (es : option Z) (w : World) (self2 : Check) (w' : World) :
  ping self ra sc me ua_ body action es w = Ok (self2, w') ->
  let act := effective_action self action in
  ((flips w' = flips w /\ status self2 = status self) \/
   (exists f, flips w' = (flips w ++ [f])%list /\ status self2 <> status self))
  /\
  (act <> "start" -> act <> "ign" ->
   let ns := new_status_for act in
   status self2 = ns /\
   last_ping self2 = Some (now w) /\
   (status self <> ns ->
    exists f rest,
      flips w' = (flips w ++ [f])%list /\
      flip_owner f = check_id self /\
      flip_created f = now w /\
      old_status f = status self /\
      new_status f = ns /\
      journal w' = (journal w ++ InsertFlip f :: SaveCheck self2 :: rest)%list) /\
   (status self = ns -> flips w' = flips w) /\
   (forall ra' sc' me' ua' body' action' es' v self3 v',
      action' <> "start" -> action' <> "ign" ->
      new_status_for action' = ns ->
      ping self2 ra' sc' me' ua' body' action' es' v = Ok (self3, v') ->
      flips v' = flips v)).
Proof.
  intros Hping act.
  destruct (ping_flips _ _ _ _ _ _ _ _ _ _ _ Hping) as (Hst & Hlp & Hfl & rest & Hj).
  fold act in Hst, Hlp, Hfl, Hj.
  assert (Hfin : act <> "start" -> act <> "ign" ->
    status self2 = new_status_for act /\ last_ping self2 = Some (now w) /\
    (status self <> new_status_for act ->
     flips w' = (flips w ++ [ {| flip_id := flip_seq w; flip_owner := check_id self;
                                 flip_created := now w; processed := None;
                                 old_status := status self;
                                 new_status := new_status_for act |} ])%list /\
     journal w' = (journal w ++ InsertFlip {| flip_id := flip_seq w; flip_owner := check_id self;
                                 flip_created := now w; processed := None;
                                 old_status := status self;
                                 new_status := new_status_for act |} :: SaveCheck self2 :: rest)%list) /\
    (status self = new_status_for act -> flips w' = flips w)).
  { intros Hs Hi.
    destruct (apply_action_finish self act (now w) w Hs Hi) as (Hns & Hl & _ & Hchg & Hsame).
    split; [congruence|]. split; [congruence|]. split.
    - intros Hne. rewrite Hfl, Hj, (Hchg Hne). cbn. split; [reflexivity|].
      rewrite <- app_assoc. reflexivity.
    - intros Heq. rewrite Hfl, (Hsame Heq). reflexivity. }
  split.
  - destruct (String.eqb_spec act "start") as [Es|Hs];
      [|destruct (String.eqb_spec act "ign") as [Ei|Hi]].
    + left. destruct (apply_action_idle self act (now w) w (or_introl Es)) as [Hw Hs'].
      split; [rewrite Hfl, Hw; reflexivity | congruence].
    + left. destruct (apply_action_idle self act (now w) w (or_intror Ei)) as [Hw Hs'].
      split; [rewrite Hfl, Hw; reflexivity | congruence].
    + destruct (Hfin Hs Hi) as (Hns & _ & Hchg & Hsame).
      destruct (string_dec (status self) (new_status_for act)) as [Heq|Hne].
      * left. split; [auto | congruence].
      * right. destruct (Hchg Hne) as [Hf _]. eexists. split; [exact Hf | congruence].
  - intros Hs Hi ns. destruct (Hfin Hs Hi) as (Hns & Hl & Hchg & Hsame).
    split; [exact Hns|]. split; [exact Hl|]. split; [|split; [exact Hsame|]].
    + intros Hne. destruct (Hchg Hne) as [Hf Hjj].
      eexists _, rest. split; [exact Hf|]. repeat split. exact Hjj.
    + intros ra' sc' me' ua' body' action' es' v self3 v' Hs' Hi' Hns' Hping'.
      destruct (ping_flips _ _ _ _ _ _ _ _ _ _ _ Hping') as (_ & _ & Hfl' & _).
      rewrite effective_action_monitored in Hfl'
        by (rewrite Hns; apply new_status_for_cases).
      destruct (apply_action_finish self2 action' (now v) v Hs' Hi') as (_ & _ & _ & _ & Hsame').
      rewrite Hfl', Hsame'; [reflexivity|]. fold ns in Hns. congruence.
Qed.

Lemma ping_creates_flip_on_change_witness :
  status (fst Scenario.after_fail) = "down" /\
  exists f rest,
    flips (snd Scenario.after_fail) = (flips Scenario.world1 ++ [f])%list /\
    flip_created f = now Scenario.world1 /\
    old_status f = "up" /\ new_status f = "down" /\
    journal (snd Scenario.after_fail)
    = (journal Scenario.world1
       ++ InsertFlip f :: SaveCheck (fst Scenario.after_fail) :: rest)%list.
Proof.
  assert (E : @ping Scenario.externals Scenario.check1 None "http" "POST"
                "curl" "" "fail" (Some 1) Scenario.world1
              = Ok (fst Scenario.after_fail, snd Scenario.after_fail))
    by (vm_compute; reflexivity).
  destruct (@ping_creates_flip_on_change Scenario.externals
              _ _ _ _ _ _ _ _ _ _ _ E) as [_ HB].
  destruct HB as (Hst & _ & Hchg & _); [discriminate | discriminate |].
  split; [exact Hst|].
  destruct Hchg as (f & rest & Hf & _ & Hc & Hold & Hnew & Hj); [discriminate|].
  exists f, rest. repeat split; assumption.
Defined.

Example ping_start_then_success :
  let c0 := set_status "new" Scenario.check1 in
  let w0 := set_checks [c0] (set_now 0 Scenario.world1) in
  match @ping Scenario.externals c0 None "http" "GET" "curl" "" "start" None w0 with
  | Ok (c1, w1) =>
      match @ping Scenario.externals c1 None "http" "GET" "curl" "" "success"
              None (set_now 10000000 w1) with
      | Ok (c2, w2) =>
          (last_start c1, last_duration c2, last_start c2, status c2,
           alert_after c2, length (flips w2))
      | Raise _ => (None, None, None, "", None, 0%nat)
      end
  | Raise _ => (None, None, None, "", None, 0%nat)
  end
  = (Some 0, Some 10000000, None, "up", Some 100000000, 1%nat).
Proof. vm_compute. reflexivity. Qed.

(** *** Retention pruning *)

(** C6.  [prune] with threshold [T], the check's ping counter minus the
    account's retention limit, removes exactly the check's stored pings
    with [n <= T] and keeps every other row; where object storage is
    configured it removes exactly the check's archived bodies with
    [n <= T] and keeps those with [n > T] and every object of another
    prefix; when a ping of the check remains, the one with the least id,
    it deletes exactly the check's notifications created before that
    ping's timestamp; and [ping] prunes exactly when the counter it has
    just incremented, the [n] of the ping it has just stored, is
    divisible by 100. *)
Theorem retention_pruning `{Externals} (self : Check) (w : World) :
  let T := n_pings self - ping_log_limit w (project self) in
  let w' := prune self w in
  (forall p, p ∈ pings w' <->
     p ∈ pings w /\
     ~ (ping_owner p = check_id self /\ exists k, n p = Some k /\ k <= T))
  /\
  (configured (cfg w) = true -> T + 1 < 10 ^ 123 ->
   (forall k key, 0 <= k < 10 ^ 123 ->
      object_key (code self) k = Ok key ->
      bucket w' !! key = if k <=? T then None else bucket w !! key) /\
   (forall name, String.prefix (code self ++ "/") name = false ->
      bucket w' !! name = bucket w !! name))
  /\
  (forall oldest, earliest (check_id self) (pings w') = Some oldest ->
     (oldest ∈ pings w' /\ ping_owner oldest = check_id self /\
      forall q, q ∈ pings w' -> ping_owner q = check_id self ->
                ping_id oldest <= ping_id q) /\
     (forall nt, nt ∈ notifications w' <->
        nt ∈ notifications w /\
        ~ (notification_owner nt = Some (check_id self) /\
           notification_created nt < ping_created oldest)))
  /\
  (forall ra sc me ua_ body action es self2 w4,
     ingest self ra sc me ua_ body action es w = Ok (self2, w4) ->
     (exists stored p,
        find_check (check_id self) w = Some stored /\
        n_pings self2 = n_pings stored + 1 /\
        last (pings w4) = Some p /\ n p = Some (n_pings self2)) /\
     ping self ra sc me ua_ body action es w
     = Ok (self2,
           if n_pings self2 mod 100 =? 0 then prune self2 w4 else w4)).
Proof.
  intros T w'. split; [|split; [|split]].
  - intros p. unfold w'. rewrite prune_pings, elem_of_filter_negb, n_lte_true.
    reflexivity.
  - intros Hcfg HT. unfold w'. rewrite prune_bucket, Hcfg. split.
    + intros k key Hk Hkey. now apply remove_objects_lookup.
    + intros name Hname. now apply remove_objects_other.
  - intros oldest Hold. split; [exact (earliest_Some _ _ _ Hold)|].
    intros nt. unfold w'. rewrite prune_notifications. fold w'. rewrite Hold.
    rewrite elem_of_filter_negb, created_lt_true. reflexivity.
  - intros ra sc me ua_ body action es self2 w4 Hing. split.
    + destruct (ingest_inv _ _ _ _ _ _ _ _ _ _ _ Hing)
        as (aa & stored & rest & p & _ & Hfind & -> & _ & _ & _ & _ & Hp & Hn & _).
      exists stored, p. cbn [n_pings set_bookkeeping] in *.
      split; [|split; [reflexivity|split; [|exact Hn]]].
      * revert Hfind. unfold apply_action, find_check, save_flip.
        repeat (destruct (_ =? _)%string; cbn); auto.
      * rewrite Hp. apply last_snoc.
    + unfold ping. rewrite Hing. cbn [bind].
      destruct (_ =? 0); reflexivity.
Qed.

Lemma retention_pruning_witness :
  (bucket (prune (fst Scenario.after_fail) Scenario.world1) !! "c0de/zh-2"
   = None) /\
  (bucket (prune (fst Scenario.after_fail) Scenario.world1) !! "c0de/zg-3"
   = Some "three") /\
  (Scenario.old_notification
     ∉ notifications (prune (fst Scenario.after_fail) Scenario.world1)) /\
  (@ping Scenario.externals Scenario.check1 None "http" "POST" "curl" ""
     "fail" (Some 1) Scenario.world1
   = Ok (fst Scenario.ingested,
         prune (fst Scenario.ingested) (snd Scenario.ingested))).
Proof.
  set (c := fst Scenario.after_fail).
  destruct (@retention_pruning Scenario.externals c Scenario.world1)
    as (_ & Harch & Hnote & _).
  destruct Harch as [Hkey _]; [reflexivity | reflexivity |].
  split; [|split; [|split]].
  - rewrite (Hkey 2 "c0de/zh-2"); [reflexivity | split; [lia | reflexivity]
                                   | reflexivity].
  - rewrite (Hkey 3 "c0de/zg-3"); [vm_compute; reflexivity
                                   | split; [lia | reflexivity]
                                   | reflexivity].
  - destruct (Hnote (Scenario.stored_ping 3 3000000 true)) as [_ Hnt];
      [vm_compute; reflexivity|].
    intros Hin. apply Hnt in Hin. destruct Hin as [_ Hnot]. apply Hnot.
    split; reflexivity.
  - destruct (@retention_pruning Scenario.externals Scenario.check1
                Scenario.world1) as (_ & _ & _ & Hping).
    destruct (Hping None "http" "POST" "curl" "" "fail" (Some 1)
                (fst Scenario.ingested) (snd Scenario.ingested)) as [_ Hp];
      [vm_compute; reflexivity|].
    assert (Hc : (n_pings (fst Scenario.ingested) mod 100 =? 0) = true)
      by (vm_compute; reflexivity).
    rewrite Hc in Hp. exact Hp.
Defined.

(** C10.  When every stored ping of the check has [n <= T], pruning
    leaves no ping of the check, the lookup of the oldest one finds
    nothing, and the notifications are exactly what they were: the only
    writes are the removal from the archive, where configured, and the
    deletion of the pings. *)
Theorem prune_without_remaining_ping (self : Check) (w : World) :
  let T := n_pings self - ping_log_limit w (project self) in
  (forall p, p ∈ pings w -> ping_owner p = check_id self ->
             exists k, n p = Some k /\ k <= T) ->
  (forall p, p ∈ pings (prune self w) -> ping_owner p <> check_id self) /\
  earliest (check_id self) (pings (prune self w)) = None /\
  notifications (prune self w) = notifications w /\
  journal (prune self w)
  = (journal w
     ++ (if configured (cfg w) then [RemoveObjects (code self) T] else [])
     ++ [DeletePings (check_id self) T])%list.
Proof.
  intros T Hall.
  assert (Hnone : forall p, p ∈ pings (prune self w) -> ping_owner p <> check_id self).
  { intros p Hp Ho. rewrite prune_pings, elem_of_filter_negb, n_lte_true in Hp.
    destruct Hp as [Hin Hnot]. apply Hnot. split; [exact Ho|]. now apply Hall. }
  assert (Hearly : earliest (check_id self) (pings (prune self w)) = None)
    by (apply earliest_None; exact Hnone).
  split; [exact Hnone|]. split; [exact Hearly|]. split.
  - rewrite prune_notifications, Hearly. reflexivity.
  - rewrite prune_journal, Hearly, app_nil_r. reflexivity.
Qed.

Lemma prune_without_remaining_ping_witness :
  earliest 1 (pings (prune Scenario.check1 Scenario.world_keep_none)) = None /\
  notifications (prune Scenario.check1 Scenario.world_keep_none)
  = [Scenario.old_notification].
Proof.
  destruct (prune_without_remaining_ping Scenario.check1
              Scenario.world_keep_none) as (_ & Hnone & Hkeep & _).
  - intros p Hp _.
    change (pings Scenario.world_keep_none)
      with [Scenario.stored_ping 1 1000000 false;
            Scenario.stored_ping 2 2000000 true;
            Scenario.stored_ping 3 3000000 true] in Hp.
    repeat (apply elem_of_cons in Hp as [-> | Hp]).
    + exists 1. split; [reflexivity | vm_compute; discriminate].
    + exists 2. split; [reflexivity | vm_compute; discriminate].
    + exists 3. split; [reflexivity | vm_compute; discriminate].
    + inversion Hp.
  - split; [exact Hnone | exact Hkeep].
Defined.

(** *** Notifying a channel *)

(** C8.  When the transport of a channel raises [TransportError] during
    [notify], the flag written to the channel is [True] for a permanent
    failure and the value the channel was loaded with for a transient
    one; in both cases [notify] returns the message, the notification
    row it has inserted ends with the message in its [error] column (in
    place of ["Sending"]) and with every other column as inserted, and
    [last_notify], [last_error] and [disabled] are written to the stored
    channel, by two [update] calls that name these columns: every other
    column of the stored rows, every other notification and every other
    channel stays as stored. *)
Theorem notify_records_failure `{Externals} (self : Channel) (check : Check)
    (is_test : bool) (w : World) (tr : string) (e : TransportError)
    (elapsed : Z) :
  let nt := {| notification_id := notification_seq w;
               notification_owner :=
                 if is_test then None else Some (check_id check);
               check_status := status check;
               notification_channel := channel_id self;
               notification_created := now w;
               error := "Sending" |} in
  transport self = Ok tr ->
  is_noop self check = false ->
  transport_notify self check nt = (Some e, elapsed) ->
  let dis := if permanent e then Some true else disabled self in
  let t := now w + elapsed in
  (permanent e = true -> dis = Some true) /\
  (permanent e = false -> dis = disabled self) /\
  exists w',
    notify self check is_test w = Ok (message e, w') /\
    (exists stored,
       last (notifications w') = Some stored /\
       error stored = message e /\
       notification_id stored = notification_seq w /\
       notification_owner stored
       = (if is_test then None else Some (check_id check)) /\
       check_status stored = status check /\
       notification_channel stored = channel_id self /\
       notification_created stored = now w) /\
    length (notifications w') = S (length (notifications w)) /\
    (forall n, n ∈ notifications w ->
       notification_id n <> notification_seq w -> n ∈ notifications w') /\
    channels w'
    = map (fun c => if channel_id c =? channel_id self
                    then {| channel_id := channel_id c;
                            channel_kind := channel_kind c;
                            value := value c;
                            email_verified := email_verified c;
                            disabled := dis;
                            last_notify := Some t;
                            last_error := message e;
                            channel_checks := channel_checks c |}
                    else c)
          (channels w) /\
    (forall c, c ∈ channels w -> channel_id c = channel_id self ->
       exists c', c' ∈ channels w' /\
         disabled c' = dis /\ last_error c' = message e /\
         last_notify c' = Some t /\
         channel_id c' = channel_id c /\ channel_kind c' = channel_kind c /\
         value c' = value c /\ email_verified c' = email_verified c /\
         channel_checks c' = channel_checks c) /\
    (forall c, c ∈ channels w -> channel_id c <> channel_id self ->
       c ∈ channels w') /\
    journal w'
    = (journal w
       ++ [InsertNotification nt;
           UpdateNotificationError (notification_seq w) (message e);
           UpdateChannelOutcome (channel_id self) t (message e) dis])%list.
Proof.
  intros nt Htr Hnoop Hsend dis t.
  split; [intros Hp; unfold dis; now rewrite Hp|].
  split; [intros Hp; unfold dis; now rewrite Hp|].
  unfold notify. rewrite Htr. cbn [bind]. rewrite Hnoop.
  fold nt. rewrite Hsend. fold dis.
  eexists. split; [reflexivity|]. cbn.
  split; [|split; [|split; [|split; [reflexivity|split; [|split]]]]].
  - exists (set_error (message e) nt). split; [|repeat split].
    rewrite map_app. cbn. rewrite Z.eqb_refl. apply last_snoc.
  - rewrite length_map, length_app. cbn. lia.
  - intros n0 Hn Hid. apply list_elem_of_In. apply in_map_iff. exists n0.
    split; [|apply in_or_app; left; apply list_elem_of_In; exact Hn].
    rewrite (proj2 (Z.eqb_neq _ _) Hid). reflexivity.
  - intros c Hc Hid.
    exists (set_outcome t (message e) dis c). split.
    + apply list_elem_of_In. apply in_map_iff. exists c.
      split; [|apply list_elem_of_In; exact Hc].
      rewrite (proj2 (Z.eqb_eq _ _) Hid). reflexivity.
    + repeat split.
  - intros c Hc Hid. apply list_elem_of_In. apply in_map_iff. exists c.
    split; [|apply list_elem_of_In; exact Hc].
    rewrite (proj2 (Z.eqb_neq _ _) Hid). reflexivity.
  - rewrite <- !app_assoc. reflexivity.
Qed.

Lemma notify_records_failure_witness :
  (exists w' c' stored,
     @notify Scenario.externals Scenario.email_gone Scenario.check1 false
       Scenario.world1 = Ok ("410 Gone", w') /\
     c' ∈ channels w' /\ channel_id c' = 1 /\
     disabled c' = Some true /\ last_error c' = "410 Gone" /\
     value c' = "gone" /\
     last (notifications w') = Some stored /\ error stored = "410 Gone") /\
  (exists w' c' stored,
     @notify Scenario.externals Scenario.webhook_slow Scenario.check1 false
       Scenario.world1 = Ok ("timed out", w') /\
     c' ∈ channels w' /\ channel_id c' = 2 /\
     disabled c' = Some false /\ last_error c' = "timed out" /\
     value c' = "slow" /\
     last (notifications w') = Some stored /\ error stored = "timed out").
Proof.
  split.
  - destruct (@notify_records_failure Scenario.externals Scenario.email_gone
                Scenario.check1 false Scenario.world1 "Email"
                {| message := "410 Gone"; permanent := true |} 250000)
      as (_ & _ & w' & Hn & (stored & Hlast & Herr & _) & _ & _ & _ & Hrow & _);
      [reflexivity ..|].
    destruct (Hrow Scenario.email_gone) as (c' & Hin & Hd & He & _ & Hid & _ & Hv & _);
      [left | reflexivity |].
    exists w', c', stored. repeat split; assumption.
  - destruct (@notify_records_failure Scenario.externals Scenario.webhook_slow
                Scenario.check1 false Scenario.world1 "Webhook"
                {| message := "timed out"; permanent := false |} 250000)
      as (_ & _ & w' & Hn & (stored & Hlast & Herr & _) & _ & _ & _ & Hrow & _);
      [reflexivity ..|].
    destruct (Hrow Scenario.webhook_slow) as (c' & Hin & Hd & He & _ & Hid & _ & Hv & _);
      [right; left | reflexivity |].
    exists w', c', stored. repeat split; assumption.
Defined.

(** *** The token bucket *)

(** C1, as amended.  Whenever the balance after the top-up and the debit
    is negative, [authorize] returns [False] and writes nothing: the
    stored bucket is the one [get_or_create] returned, with the balance
    and the timestamp it had (for a key seen for the first time, the row
    just created with its full token), and for an existing key the whole
    world is unchanged. *)
Theorem authorize_rejected (key : string) (capacity refill_time_secs : Z)
    (w w1 : World) (obj : TokenBucket) (created : bool) (balance : float) :
  get_or_create key w = (obj, created, w1) ->
  debited obj created (now w) capacity refill_time_secs = Ok balance ->
  (balance <? 0)%float = true ->
  authorize key capacity refill_time_secs w = Ok (false, w1)
  /\ token_buckets w1 !! key = Some obj
  /\ (created = false -> w1 = w)
  /\ (created = true -> tokens obj = 1%float).
Proof.
  intros Hget Hdeb Hneg. unfold authorize. rewrite Hget, Hdeb. cbn [bind].
  rewrite Hneg. split; [reflexivity|].
  unfold get_or_create in Hget.
  destruct (token_buckets w !! key) as [o|] eqn:Hlk.
  - injection Hget as <- <- <-. repeat split; [exact Hlk | discriminate].
  - injection Hget as <- <- <-. repeat split; [|discriminate].
    cbn. apply lookup_insert_eq.
Qed.

Lemma authorize_rejected_witness :
  authorize "drained" 1 90 Scenario.world1 = Ok (false, Scenario.world1) /\
  token_buckets Scenario.world1 !! "drained"
  = Some {| tokens := 0; updated := 10000000 |}.
Proof.
  destruct (authorize_rejected "drained" 1 90 Scenario.world1 Scenario.world1
              {| tokens := 0; updated := 10000000 |} false (-1)%float)
    as (Hret & Hrow & _); [reflexivity ..|].
  split; [exact Hret | exact Hrow].
Defined.

(** C1 as stated fails: a drained bucket is refused, the balance after the
    debit is -1, and the stored balance is still 0. *)
Lemma rejected_debit_not_persisted :
  debited {| tokens := 0; updated := 10000000 |} false (now Scenario.world1)
    1 90 = Ok (-1)%float /\
  (-1 <? 0)%float = true /\
  authorize "drained" 1 90 Scenario.world1 = Ok (false, Scenario.world1) /\
  token_buckets Scenario.world1 !! "drained"
  = Some {| tokens := 0; updated := 10000000 |} /\
  (0 =? -1)%float = false.
Proof. repeat split; vm_compute; reflexivity. Qed.

(** *** Binary64 arithmetic

    What the token bucket needs of the floating-point operations, from
    their specification in [SpecFloat]: rounding never passes a
    representable number, [float] of an integer below 2^53 is exact, and
    the quotients, sums and differences of the top-up and the debit stay
    on the right side of 0 and 1. *)

Lemma digits2_pos_size p : digits2_pos p = Pos.size p.
Proof. induction p; cbn; congruence. Qed.

Lemma Zdigits2_log2 m : 0 < m -> Zdigits2 m = Z.log2 m + 1.
Proof.
  destruct m as [|p|p]; try lia. intros _. cbn [Zdigits2].
  rewrite digits2_pos_size. destruct p; cbn [Pos.size Z.log2]; lia.
Qed.

Lemma log2_ge m k : 0 <= k -> 2 ^ k <= m -> k <= Z.log2 m.
Proof.
  intros Hk H. apply Z.log2_le_pow2; [|exact H].
  pose proof (Z.pow_pos_nonneg 2 k). lia.
Qed.

Lemma log2_lt m k : 0 < m -> m < 2 ^ k -> Z.log2 m < k.
Proof.
  intros Hm H. apply Z.log2_lt_pow2; assumption.
Qed.

Lemma shr_1_m mrs : 0 <= shr_m mrs -> shr_m (shr_1 mrs) = shr_m mrs / 2.
Proof.
  destruct mrs as [m r s]. cbn [shr_m]. intros Hm.
  destruct m as [|[p|p|]|p]; cbn [shr_1 shr_m]; try lia;
    try reflexivity.
  - rewrite Pos2Z.inj_xI. apply (Z.div_unique _ _ _ 1); lia.
  - rewrite Pos2Z.inj_xO. apply (Z.div_unique _ _ _ 0); lia.
Qed.

Lemma shr_1_nonneg mrs : 0 <= shr_m mrs -> 0 <= shr_m (shr_1 mrs).
Proof.
  intros H. rewrite shr_1_m by exact H. apply Z.div_pos; lia.
Qed.

Lemma iter_pos_shr p : forall mrs, 0 <= shr_m mrs ->
  shr_m (SpecFloat.iter_pos shr_1 p mrs) = shr_m mrs / 2 ^ Zpos p.
Proof.
  induction p as [p IH|p IH|]; intros mrs Hm; cbn [SpecFloat.iter_pos].
  - assert (H1 : 0 <= shr_m (shr_1 mrs)) by (apply shr_1_nonneg; exact Hm).
    assert (H2 : 0 <= shr_m (SpecFloat.iter_pos shr_1 p (shr_1 mrs))).
    { rewrite IH by exact H1. apply Z.div_pos; [exact H1|].
      apply Z.pow_pos_nonneg; lia. }
    rewrite IH by exact H2. rewrite IH by exact H1. rewrite shr_1_m by exact Hm.
    assert (Hp : 0 < 2 ^ Zpos p) by (apply Z.pow_pos_nonneg; lia).
    rewrite !Z.div_div by lia. f_equal.
    change (Z.pos p~1) with (2 * Z.pos p + 1).
    replace (2 * Z.pos p + 1) with (1 + Z.pos p + Z.pos p) by lia.
    rewrite !Z.pow_add_r by lia. lia.
  - assert (H2 : 0 <= shr_m (SpecFloat.iter_pos shr_1 p mrs)).
    { rewrite IH by exact Hm. apply Z.div_pos; [exact Hm|].
      apply Z.pow_pos_nonneg; lia. }
    rewrite IH by exact H2. rewrite IH by exact Hm.
    assert (Hp : 0 < 2 ^ Zpos p) by (apply Z.pow_pos_nonneg; lia).
    rewrite !Z.div_div by lia. f_equal.
    change (Z.pos p~0) with (2 * Z.pos p).
    replace (2 * Z.pos p) with (Z.pos p + Z.pos p) by lia.
    rewrite Z.pow_add_r by lia. reflexivity.
  - rewrite shr_1_m by exact Hm. reflexivity.
Qed.

Lemma shr_fexp_spec m e l : 0 <= m ->
  let e1 := Z.max e (fexp prec emax (Zdigits2 m + e)) in
  exists mrs, shr_fexp prec emax m e l = (mrs, e1) /\
              shr_m mrs = m / 2 ^ (e1 - e).
Proof.
  intros Hm e1. unfold shr_fexp, shr.
  assert (Hrec : shr_m (shr_record_of_loc m l) = m)
    by (destruct l as [|[]]; reflexivity).
  destruct (fexp prec emax (Zdigits2 m + e) - e) as [|p|p] eqn:En.
  - exists (shr_record_of_loc m l). replace e1 with e by lia.
    split; [reflexivity|]. rewrite Hrec, Z.sub_diag, Z.pow_0_r, Z.div_1_r.
    reflexivity.
  - exists (SpecFloat.iter_pos shr_1 p (shr_record_of_loc m l)).
    replace e1 with (e + Zpos p) by lia. split; [reflexivity|].
    rewrite iter_pos_shr by (rewrite Hrec; exact Hm). rewrite Hrec.
    f_equal. f_equal. lia.
  - exists (shr_record_of_loc m l). replace e1 with e by lia.
    split; [reflexivity|]. rewrite Hrec, Z.sub_diag, Z.pow_0_r, Z.div_1_r.
    reflexivity.
Qed.

Lemma round_nearest_even_range m l :
  m <= round_nearest_even m l <= m + 1.
Proof.
  destruct l as [|[]]; cbn [round_nearest_even]; try lia.
  destruct (Z.even m); lia.
Qed.

Lemma half_range a b : a <= b <= a + 1 -> a / 2 <= b / 2 <= a / 2 + 1.
Proof. intros H. Z.to_euclidean_division_equations. lia. Qed.

Lemma fexp_eq x : fexp prec emax x = Z.max (x - 53) (-1074).
Proof. reflexivity. Qed.

(** The result of rounding a positive integer mantissa. *)
Lemma binary_round_aux_spec s m e lx :
  0 < m -> -1074 < Zdigits2 m + e ->
  let e1 := Z.max e (fexp prec emax (Zdigits2 m + e)) in
  exists m' e',
    binary_round_aux prec emax s m e lx
    = (if e' <=? 971 then S754_finite s m' e' else S754_infinity s) /\
    (e' = e1 \/ e' = e1 + 1) /\
    m / 2 ^ (e' - e) <= Zpos m' <= m / 2 ^ (e' - e) + 1 /\
    (e' = e1 + 1 -> m / 2 ^ (e1 - e) + 1 = 2 ^ 53).
Proof.
  intros Hm HD e1. unfold binary_round_aux.
  destruct (shr_fexp_spec m e lx) as (mrs1 & -> & Hm1); [lia|].
  fold e1 in Hm1 |- *.
  set (m1 := shr_m mrs1) in *.
  pose proof (Zdigits2_log2 m Hm) as Hdig.
  pose proof (Z.log2_spec m Hm) as [Hlo Hhi].
  pose proof (Z.log2_nonneg m) as Hl0.
  assert (He1 : e <= e1) by lia.
  assert (Hsh : e1 - e <= Z.log2 m).
  { unfold e1. rewrite fexp_eq. lia. }
  assert (Hpow : 0 < 2 ^ (e1 - e)) by (apply Z.pow_pos_nonneg; lia).
  assert (Hm1pos : 0 < m1).
  { rewrite Hm1. apply Z.div_str_pos. split; [exact Hpow|].
    eapply Z.le_trans; [|exact Hlo]. apply Z.pow_le_mono_r; lia. }
  assert (Hlog1 : Z.log2 m1 = Z.log2 m - (e1 - e)).
  { rewrite Hm1, <- Z.shiftr_div_pow2 by lia.
    rewrite Z.log2_shiftr by lia. lia. }
  set (m1' := round_nearest_even m1 (loc_of_shr_record mrs1)).
  pose proof (round_nearest_even_range m1 (loc_of_shr_record mrs1)) as Hr.
  fold m1' in Hr.
  assert (Hm1'pos : 0 < m1') by lia.
  destruct (shr_fexp_spec m1' e1 loc_Exact) as (mrs2 & -> & Hm2); [lia|].
  set (e2 := Z.max e1 (fexp prec emax (Zdigits2 m1' + e1))) in *.
  pose proof (Zdigits2_log2 m1' Hm1'pos) as Hdig1.
  assert (Hlog1' : Z.log2 m1 <= Z.log2 m1' <= Z.log2 m1 + 1).
  { split; [apply Z.log2_le_mono; lia|].
    pose proof (Z.log2_spec m1 Hm1pos) as [_ Hh].
    assert (m1' <= 2 ^ (Z.log2 m1 + 1)) by (unfold Z.succ in Hh; lia).
    transitivity (Z.log2 (2 ^ (Z.log2 m1 + 1)));
      [apply Z.log2_le_mono; lia|].
    rewrite Z.log2_pow2; lia. }
  assert (He2 : e2 = e1 \/ e2 = e1 + 1).
  { unfold e2, e1. rewrite !fexp_eq. unfold e1 in Hlog1. rewrite fexp_eq in Hlog1.
    lia. }
  assert (Hm2' : shr_m mrs2 = m1' / 2 ^ (e2 - e1)) by exact Hm2.
  assert (Hq : m / 2 ^ (e2 - e) = m1 / 2 ^ (e2 - e1)).
  { rewrite Hm1. rewrite Z.div_div; [|lia|apply Z.pow_pos_nonneg; lia].
    rewrite <- Z.pow_add_r by lia. f_equal. f_equal. lia. }
  assert (Hm2pos : 0 < shr_m mrs2 /\
                   m / 2 ^ (e2 - e) <= shr_m mrs2 <= m / 2 ^ (e2 - e) + 1).
  { rewrite Hq, Hm2'. destruct He2 as [E|E]; rewrite E.
    - rewrite Z.sub_diag, Z.pow_0_r, !Z.div_1_r. lia.
    - replace (e1 + 1 - e1) with 1 by lia. rewrite Z.pow_1_r.
      assert (2 <= m1').
      { destruct (Z.le_gt_cases 2 m1') as [?|Hlt]; [assumption|].
        assert (m1' = 1) by lia. exfalso.
        assert (Z.log2 m1' = 0) by (subst m1'; replace (round_nearest_even _ _) with 1 by lia; reflexivity).
        unfold e2, e1 in E. rewrite !fexp_eq in E. lia. }
      split; [apply Z.div_str_pos; lia|].
      apply half_range. exact Hr. }
  destruct Hm2pos as [Hpos Hrange].
  destruct (shr_m mrs2) as [|p|p] eqn:Ep; try lia.
  exists p, e2. split; [reflexivity|]. split; [exact He2|].
  split; [exact Hrange|].
  intros Hcarry. rewrite <- Hm1.
  assert (Hl53 : Z.log2 m1' = 53).
  { unfold e2 in Hcarry. rewrite fexp_eq in Hcarry.
    unfold e1 in Hcarry |- *. rewrite fexp_eq in Hcarry. lia. }
  assert (Hl52 : Z.log2 m1 <= 52).
  { rewrite Hlog1. unfold e1. rewrite fexp_eq. lia. }
  pose proof (Z.log2_spec m1 Hm1pos) as [_ Hh1].
  pose proof (Z.log2_spec m1' Hm1'pos) as [Hl1' _].
  rewrite Hl53 in Hl1'.
  assert (2 ^ Z.succ (Z.log2 m1) <= 2 ^ 53)
    by (apply Z.pow_le_mono_r; lia).
  lia.
Qed.


Lemma valid_finite s m e :
  valid_binary (S754_finite s m e) = true ->
  e = Z.max (Z.log2 (Zpos m) + 1 + e - 53) (-1074) /\ e <= 971.
Proof.
  cbn [SpecFloat.valid_binary]. unfold bounded, canonical_mantissa.
  intros H. apply andb_true_iff in H. destruct H as [H1 H2].
  apply Z.eqb_eq in H1. apply Z.leb_le in H2.
  rewrite fexp_eq in H1.
  pose proof (Zdigits2_log2 (Zpos m) eq_refl) as E. cbn [Zdigits2] in E.
  rewrite E in H1. unfold emax, prec in H2. lia.
Qed.

Lemma pos_log2_bounds m :
  2 ^ Z.log2 (Zpos m) <= Zpos m < 2 ^ (Z.log2 (Zpos m) + 1).
Proof. apply (Z.log2_spec (Zpos m)). lia. Qed.

(** Rounding does not go below a representable number that the exact
    value reaches. *)
Lemma round_ge mr er m e lx :
  valid_binary (S754_finite false mr er) = true ->
  0 < m ->
  (e <= er -> Zpos mr * 2 ^ (er - e) <= m) ->
  SFleb (S754_finite false mr er) (binary_round_aux prec emax false m e lx)
  = true.
Proof.
  intros Hv Hm Hval. apply valid_finite in Hv. destruct Hv as [Hcan Hmax].
  pose proof (pos_log2_bounds mr) as [Hrlo Hrhi].
  pose proof (Z.log2_nonneg (Zpos mr)) as Hr0.
  pose proof (Z.log2_nonneg m) as Hl0.
  pose proof (Zdigits2_log2 m Hm) as Hdig.
  assert (HD : e <= er -> Z.log2 (Zpos mr) + (er - e) <= Z.log2 m).
  { intros Hle. apply log2_ge; [lia|].
    eapply Z.le_trans; [|exact (Hval Hle)].
    rewrite Z.pow_add_r by lia.
    apply Z.mul_le_mono_nonneg_r; [apply Z.pow_nonneg; lia|exact Hrlo]. }
  destruct (binary_round_aux_spec false m e lx Hm) as (m' & e' & -> & He' & Hm' & _).
  { rewrite Hdig. destruct (Z.le_gt_cases e er) as [Hle|Hgt];
      [specialize (HD Hle)|]; lia. }
  rewrite Hdig, fexp_eq in He'.
  assert (Hge : er <= e').
  { destruct (Z.le_gt_cases e er) as [Hle|Hgt]; [specialize (HD Hle)|]; lia. }
  destruct (e' <=? 971); [|reflexivity].
  unfold SFleb, SFcompare.
  destruct (Z.compare_spec er e') as [Heq|Hlt|Hgt]; [|reflexivity|lia].
  subst e'.
  assert (Hle : e <= er) by lia.
  assert (Zpos mr <= Zpos m').
  { eapply Z.le_trans; [|apply Hm'].
    apply Z.div_le_lower_bound; [apply Z.pow_pos_nonneg; lia|].
    rewrite Z.mul_comm. exact (Hval Hle). }
  change (Pos.compare_cont Eq mr m') with (Pos.compare mr m').
  destruct (Pos.compare_spec mr m'); try reflexivity. lia.
Qed.

(** Rounding does not go above a representable number that the exact
    value stays below. *)
Lemma round_le mr er m e lx :
  valid_binary (S754_finite false mr er) = true ->
  0 < m -> -1074 < Z.log2 m + 1 + e ->
  e <= Z.max (Z.log2 m + 1 + e - 53) (-1074) ->
  e <= er -> m < Zpos mr * 2 ^ (er - e) ->
  exists m' e',
    binary_round_aux prec emax false m e lx = S754_finite false m' e' /\
    SFleb (S754_finite false m' e') (S754_finite false mr er) = true.
Proof.
  intros Hv Hm HD Hcanon Hle Hval.
  apply valid_finite in Hv. destruct Hv as [Hcan Hmax].
  pose proof (pos_log2_bounds mr) as [Hrlo Hrhi].
  pose proof (Z.log2_nonneg (Zpos mr)) as Hr0.
  pose proof (Z.log2_nonneg m) as Hl0.
  pose proof (Zdigits2_log2 m Hm) as Hdig.
  assert (Hpow : 0 < 2 ^ (er - e)) by (apply Z.pow_pos_nonneg; lia).
  assert (HDle : Z.log2 m < Z.log2 (Zpos mr) + 1 + (er - e)).
  { apply log2_lt; [exact Hm|].
    eapply Z.lt_le_trans; [exact Hval|].
    rewrite Z.pow_add_r by lia.
    apply Z.mul_le_mono_nonneg_r; lia. }
  assert (Hmr53 : Zpos mr < 2 ^ 53).
  { eapply Z.lt_le_trans; [exact Hrhi|]. apply Z.pow_le_mono_r; lia. }
  destruct (binary_round_aux_spec false m e lx Hm) as (m' & e' & -> & He' & Hm' & Hcarry);
    [rewrite Hdig; lia|].
  rewrite Hdig, fexp_eq in He', Hcarry.
  assert (Hq : m / 2 ^ (er - e) <= Zpos mr - 1).
  { apply Z.lt_succ_r. unfold Z.succ. replace (Zpos mr - 1 + 1) with (Zpos mr) by lia.
    apply Z.div_lt_upper_bound; [exact Hpow|]. lia. }
  assert (He'le : e' <= er).
  { destruct He' as [E|E]; [lia|].
    destruct (Z.le_gt_cases e' er) as [?|Hgt]; [assumption|exfalso].
    specialize (Hcarry E).
    replace (Z.max e (Z.max (Z.log2 m + 1 + e - 53) (-1074))) with er in Hcarry
      by lia.
    lia. }
  replace (e' <=? 971) with true by (symmetry; apply Z.leb_le; lia).
  exists m', e'. split; [reflexivity|].
  unfold SFleb, SFcompare.
  destruct (Z.compare_spec e' er) as [Heq|Hlt|Hgt]; [|reflexivity|lia].
  subst e'.
  change (Pos.compare_cont Eq m' mr) with (Pos.compare m' mr).
  destruct (Pos.compare_spec m' mr); try reflexivity. lia.
Qed.

(** Shifting a mantissa to the left. *)
Lemma iter_xO p k : Zpos (Pos.iter xO p k) = Zpos p * 2 ^ Zpos k.
Proof.
  revert p. induction k as [k IH|k IH|]; intros p; cbn [Pos.iter].
  - rewrite Pos2Z.inj_xO, !IH.
    change (Z.pos k~1) with (2 * Z.pos k + 1).
    replace (2 * Z.pos k + 1) with (1 + Z.pos k + Z.pos k) by lia.
    rewrite !Z.pow_add_r by lia. lia.
  - rewrite !IH.
    change (Z.pos k~0) with (2 * Z.pos k).
    replace (2 * Z.pos k) with (Z.pos k + Z.pos k) by lia.
    rewrite !Z.pow_add_r by lia. lia.
  - rewrite Pos2Z.inj_xO. lia.
Qed.

(** A canonical mantissa is returned as it is. *)
Lemma binary_round_aux_exact s m e :
  e = Z.max (Z.log2 (Zpos m) + 1 + e - 53) (-1074) ->
  binary_round_aux prec emax s (Zpos m) e loc_Exact
  = if e <=? 971 then S754_finite s m e else S754_infinity s.
Proof.
  intros Hcan. unfold binary_round_aux.
  assert (Hsh : forall l, shr_fexp prec emax (Zpos m) e l
                = (shr_record_of_loc (Zpos m) l, e)).
  { intros l. unfold shr_fexp. rewrite fexp_eq.
    rewrite (Zdigits2_log2 (Zpos m) eq_refl).
    replace (Z.max _ _ - e) with 0 by lia. reflexivity. }
  rewrite Hsh. cbn [shr_record_of_loc loc_of_shr_record shr_m round_nearest_even].
  rewrite Hsh. cbn [shr_record_of_loc shr_m]. reflexivity.
Qed.


(** [float(z)] is exact below 2^53. *)
Lemma float_of_Z_exact z : 1 <= z < 2 ^ 53 ->
  exists m, Prim2SF (float_of_Z z) = S754_finite false m (Z.log2 z - 52) /\
            Zpos m = z * 2 ^ (52 - Z.log2 z).
Proof.
  intros Hz. unfold float_of_Z.
  replace (z <? 0) with false by (symmetry; apply Z.ltb_ge; lia).
  rewrite of_uint63_spec, Uint63.of_Z_spec.
  rewrite Z.mod_small
    by (split; [lia|]; eapply Z.lt_le_trans; [apply Hz|]; vm_compute; discriminate).
  destruct z as [|p|p]; try lia.
  assert (Hl : Z.log2 (Zpos p) <= 52).
  { apply Z.lt_succ_r. unfold Z.succ. apply log2_lt; [lia|apply Hz]. }
  pose proof (Z.log2_nonneg (Zpos p)) as Hl0.
  cbn [binary_normalize]. unfold binary_round.
  pose proof (Zdigits2_log2 (Zpos p) eq_refl) as Hd. cbn [Zdigits2] in Hd.
  rewrite Hd, Z.add_0_r, fexp_eq.
  replace (Z.max (Z.log2 (Zpos p) + 1 - 53) (-1074))
    with (Z.log2 (Zpos p) - 52) by lia.
  assert (Hal : exists mz,
            shl_align p 0 (Z.log2 (Zpos p) - 52) = (mz, Z.log2 (Zpos p) - 52) /\
            Zpos mz = Zpos p * 2 ^ (52 - Z.log2 (Zpos p))).
  { unfold shl_align. rewrite Z.sub_0_r.
    destruct (Z.log2 (Zpos p) - 52) as [|d|d] eqn:Ed; try lia.
    - exists p. split; [reflexivity|].
      replace (52 - Z.log2 (Zpos p)) with 0 by lia. lia.
    - exists (Pos.iter xO p d). split; [reflexivity|].
      rewrite iter_xO. f_equal. f_equal. lia. }
  destruct Hal as (mz & -> & Hmz).
  assert (Hlz : Z.log2 (Zpos mz) = 52).
  { rewrite Hmz, Z.log2_mul_pow2 by lia. lia. }
  rewrite binary_round_aux_exact by lia.
  replace (Z.log2 (Zpos p) - 52 <=? 971) with true
    by (symmetry; apply Z.leb_le; lia).
  exists mz. split; [reflexivity|exact Hmz].
Qed.

Lemma float_of_Z_valid_exact z m :
  1 <= z < 2 ^ 53 -> Zpos m = z * 2 ^ (52 - Z.log2 z) ->
  Z.log2 (Zpos m) = 52 /\ 2 ^ 52 <= Zpos m < 2 ^ 53.
Proof.
  intros Hz Hm.
  assert (Hl : Z.log2 z <= 52).
  { apply Z.lt_succ_r. unfold Z.succ. apply log2_lt; [lia|apply Hz]. }
  pose proof (Z.log2_nonneg z) as Hl0.
  assert (E : Z.log2 (Zpos m) = 52)
    by (rewrite Hm, Z.log2_mul_pow2 by lia; lia).
  split; [exact E|]. pose proof (pos_log2_bounds m) as B. rewrite E in B.
  exact B.
Qed.

(** The order of two positive floats, on their mantissas. *)
Lemma SFleb_value mx ex my ey :
  valid_binary (S754_finite false mx ex) = true ->
  valid_binary (S754_finite false my ey) = true ->
  SFleb (S754_finite false mx ex) (S754_finite false my ey) = true ->
  ex <= ey /\ Zpos mx <= Zpos my * 2 ^ (ey - ex).
Proof.
  intros Hx Hy. apply valid_finite in Hx, Hy.
  destruct Hx as [Hcx _], Hy as [Hcy _].
  pose proof (pos_log2_bounds mx) as [Hxlo Hxhi].
  pose proof (pos_log2_bounds my) as [Hylo Hyhi].
  pose proof (Z.log2_nonneg (Zpos mx)). pose proof (Z.log2_nonneg (Zpos my)).
  unfold SFleb, SFcompare.
  destruct (Z.compare_spec ex ey) as [Heq|Hlt|Hgt].
  - subst ey. change (Pos.compare_cont Eq mx my) with (Pos.compare mx my).
    rewrite Z.sub_diag, Z.pow_0_r.
    destruct (Pos.compare_spec mx my); intros; try discriminate; lia.
  - intros _. split; [lia|].
    assert (Z.log2 (Zpos my) = 52) by lia.
    assert (Z.log2 (Zpos mx) <= 52) by lia.
    assert (Zpos mx < 2 ^ 53).
    { eapply Z.lt_le_trans; [exact Hxhi|]. apply Z.pow_le_mono_r; lia. }
    assert (2 ^ 52 <= Zpos my) by (rewrite <- H1; exact Hylo).
    assert (2 ^ 1 <= 2 ^ (ey - ex)) by (apply Z.pow_le_mono_r; lia).
    change (2 ^ 53) with (2 ^ 52 * 2 ^ 1) in H3.
    nia.
  - discriminate.
Qed.

(** The quotient computed by [SFdiv_core_binary]. *)
Lemma SFdiv_core_spec mx ex my ey :
  let e' := Z.min (fexp prec emax
                     (Zdigits2 (Zpos mx) + ex - (Zdigits2 (Zpos my) + ey)))
                  (ex - ey) in
  exists l,
    SFdiv_core_binary prec emax (Zpos mx) ex (Zpos my) ey
    = (Zpos mx * 2 ^ (ex - ey - e') / Zpos my, e', l).
Proof.
  intros e'. unfold SFdiv_core_binary. fold e'.
  assert (Hs : 0 <= ex - ey - e') by lia.
  set (s := ex - ey - e') in *.
  assert (Hm : match s with
               | Z0 => Zpos mx
               | Zpos _ => Z.shiftl (Zpos mx) s
               | Zneg _ => 0
               end = Zpos mx * 2 ^ s).
  { destruct s as [|p|p]; [lia| |lia]. rewrite Z.shiftl_mul_pow2 by lia.
    reflexivity. }
  rewrite Hm. unfold Z.div.
  destruct (Z.div_eucl (Zpos mx * 2 ^ s) (Zpos my)) as [q r].
  eexists. reflexivity.
Qed.


Lemma Prim2SF_one : Prim2SF 1 = S754_finite false 4503599627370496 (-52).
Proof. vm_compute. reflexivity. Qed.

Lemma Prim2SF_zero : Prim2SF 0 = S754_zero false.
Proof. vm_compute. reflexivity. Qed.

Lemma Prim2SF_million :
  Prim2SF 1000000 = S754_finite false 8589934592000000 (-33).
Proof. vm_compute. reflexivity. Qed.

(** A quotient that reaches a representable number is not rounded below
    it. *)
Lemma SFdiv_ge mr er mx ex my ey :
  valid_binary (S754_finite false mr er) = true ->
  -1021 <= Z.log2 (Zpos mx) + 1 + ex - (Z.log2 (Zpos my) + 1 + ey) ->
  (forall e',
     e' = Z.min (Z.log2 (Zpos mx) + 1 + ex - (Z.log2 (Zpos my) + 1 + ey) - 53)
                (ex - ey) ->
     e' <= er ->
     Zpos mr * 2 ^ (er - e') * Zpos my <= Zpos mx * 2 ^ (ex - ey - e')) ->
  SFleb (S754_finite false mr er)
        (SFdiv prec emax (S754_finite false mx ex) (S754_finite false my ey))
  = true.
Proof.
  intros Hv HX Hval. cbn [SFdiv].
  destruct (SFdiv_core_spec mx ex my ey) as [l ->]. cbn [xorb].
  rewrite !(Zdigits2_log2 (Zpos _) eq_refl), fexp_eq.
  set (X := Z.log2 (Zpos mx) + 1 + ex - (Z.log2 (Zpos my) + 1 + ey)) in *.
  replace (Z.max (X - 53) (-1074)) with (X - 53) by lia.
  set (e' := Z.min (X - 53) (ex - ey)) in *.
  specialize (Hval e' eq_refl).
  pose proof (pos_log2_bounds mx) as [Hxlo Hxhi].
  pose proof (pos_log2_bounds my) as [Hylo Hyhi].
  pose proof (Z.log2_nonneg (Zpos mx)). pose proof (Z.log2_nonneg (Zpos my)).
  assert (Hs : 0 <= ex - ey - e') by lia.
  assert (Hbig : Zpos my <= Zpos mx * 2 ^ (ex - ey - e')).
  { assert (2 ^ (Z.log2 (Zpos my) + 1)
            <= 2 ^ Z.log2 (Zpos mx) * 2 ^ (ex - ey - e'))
      by (rewrite <- Z.pow_add_r by lia; apply Z.pow_le_mono_r; lia).
    assert (0 < 2 ^ (ex - ey - e')) by (apply Z.pow_pos_nonneg; lia).
    assert (2 ^ Z.log2 (Zpos mx) * 2 ^ (ex - ey - e')
            <= Zpos mx * 2 ^ (ex - ey - e'))
      by (apply Z.mul_le_mono_nonneg_r; lia).
    lia. }
  apply round_ge; [exact Hv| |].
  - apply Z.div_str_pos. lia.
  - intros Hle. apply Z.div_le_lower_bound; [lia|].
    rewrite Z.mul_comm. exact (Hval Hle).
Qed.

Lemma SFleb_not_ltb mx ex my ey :
  SFleb (S754_finite false mx ex) (S754_finite false my ey) = true ->
  SFltb (S754_finite false my ey) (S754_finite false mx ex) = false.
Proof.
  unfold SFleb, SFltb, SFcompare.
  rewrite (Z.compare_antisym ex ey).
  change (Pos.compare_cont Eq my mx) with (Pos.compare my mx).
  change (Pos.compare_cont Eq mx my) with (Pos.compare mx my).
  rewrite (Pos.compare_antisym mx my).
  destruct (ex ?= ey); cbn; try discriminate; try reflexivity.
  destruct (mx ?= my)%positive; cbn; try discriminate; reflexivity.
Qed.

(** [x / y >= 1] when [x >= y > 0]. *)
Lemma div_ge_one (x y : float) my ey :
  Prim2SF y = S754_finite false my ey ->
  (y <=? x)%float = true ->
  (1 <=? x / y)%float = true.
Proof.
  intros Hy Hle. rewrite FloatAxioms.leb_spec in Hle |- *. rewrite FloatAxioms.div_spec, Prim2SF_one.
  pose proof (Prim2SF_valid x) as Hvx. pose proof (Prim2SF_valid y) as Hvy.
  rewrite Hy in Hle, Hvy |- *.
  destruct (Prim2SF x) as [sx|sx| |sx mx ex].
  - discriminate.
  - destruct sx; [discriminate|]. reflexivity.
  - discriminate.
  - destruct sx; [discriminate|].
    destruct (SFleb_value _ _ _ _ Hvy Hvx Hle) as [Hex Hval].
    pose proof (pos_log2_bounds mx) as [Hxlo Hxhi].
    pose proof (pos_log2_bounds my) as [Hylo Hyhi].
    pose proof (Z.log2_nonneg (Zpos mx)). pose proof (Z.log2_nonneg (Zpos my)).
    assert (Hlog : Z.log2 (Zpos my) < Z.log2 (Zpos mx) + 1 + (ex - ey)).
    { apply log2_lt; [lia|]. eapply Z.le_lt_trans; [exact Hval|].
      rewrite Z.pow_add_r by lia.
      apply Z.mul_lt_mono_pos_r; [apply Z.pow_pos_nonneg; lia|exact Hxhi]. }
    apply SFdiv_ge; [vm_compute; reflexivity|lia|].
    intros e' He' Hle'.
    assert (He0 : e' <= 0) by lia.
    replace (Zpos 4503599627370496) with (2 ^ 52) by reflexivity.
    rewrite <- Z.pow_add_r by lia.
    replace (52 + (-52 - e')) with (- e') by lia.
    replace (ex - ey - e') with ((ex - ey) + - e') by lia.
    rewrite Z.pow_add_r by lia.
    assert (0 < 2 ^ (- e')) by (apply Z.pow_pos_nonneg; lia).
    nia.
Qed.

Lemma shl_align_spec m e e' :
  exists m', shl_align m e e' = (m', Z.min e e') /\
             Zpos m' = Zpos m * 2 ^ (e - Z.min e e').
Proof.
  unfold shl_align. destruct (e' - e) as [|d|d] eqn:Ed.
  - exists m. replace (Z.min e e') with e by lia.
    rewrite Z.sub_diag. split; [reflexivity|lia].
  - exists m. replace (Z.min e e') with e by lia.
    rewrite Z.sub_diag. split; [reflexivity|lia].
  - exists (Pos.iter xO m d). replace (Z.min e e') with e' by lia.
    split; [reflexivity|]. rewrite iter_xO. f_equal. f_equal. lia.
Qed.

(** [t + q >= 1] when [t] is not negative and [q >= 1]. *)
Lemma add_ge_one (t q : float) :
  (t <? 0)%float = false -> (1 <=? q)%float = true ->
  (t + q <? 1)%float = false.
Proof.
  intros Ht Hq. rewrite FloatAxioms.ltb_spec in Ht |- *. rewrite FloatAxioms.leb_spec in Hq.
  rewrite FloatAxioms.add_spec. rewrite Prim2SF_zero in Ht. rewrite Prim2SF_one in Hq |- *.
  pose proof (Prim2SF_valid q) as Hvq.
  destruct (Prim2SF q) as [sq|sq| |sq mq eq]; try discriminate.
  { destruct sq; [discriminate|].
    destruct (Prim2SF t) as [st|st| |st mt et]; try reflexivity.
    destruct st; [discriminate|reflexivity]. }
  destruct sq; [discriminate|].
  destruct (Prim2SF t) as [st|st| |st mt et].
  - cbn [SF64add SFadd]. apply SFleb_not_ltb. exact Hq.
  - destruct st; [discriminate|reflexivity].
  - reflexivity.
  - destruct st; [discriminate|].
    assert (Hone : valid_binary (S754_finite false 4503599627370496 (-52)) = true)
      by (vm_compute; reflexivity).
    destruct (SFleb_value _ _ _ _ Hone Hvq Hq) as [Heq Hval].
    unfold SF64add. cbn [SFadd cond_Zopp].
    destruct (shl_align_spec mt et (Z.min et eq)) as (mt' & -> & Hmt').
    destruct (shl_align_spec mq eq (Z.min et eq)) as (mq' & -> & Hmq').
    cbn [fst]. change (Z.pos mt' + Z.pos mq') with (Z.pos (mt' + mq')).
    cbn [binary_normalize]. unfold binary_round.
    set (msum := (mt' + mq')%positive).
    set (ez := Z.min et eq) in *.
    replace (Z.min eq ez) with ez in Hmq' by lia.
    destruct (shl_align_spec msum ez
                (fexp prec emax (Zpos (digits2_pos msum) + ez)))
      as (mz & -> & Hmz).
    set (ez' := Z.min ez (fexp prec emax (Zpos (digits2_pos msum) + ez))) in *.
    assert (Hge : SFleb (S754_finite false 4503599627370496 (-52))
                    (binary_round_aux prec emax false (Zpos mz) ez' loc_Exact)
                  = true).
    { apply round_ge; [exact Hone|lia|]. intros Hle.
      rewrite Hmz. unfold msum. rewrite Pos2Z.inj_add, Hmq'.
      replace (Zpos 4503599627370496) with (2 ^ 52) in * by reflexivity.
      rewrite <- Z.pow_add_r by lia.
      replace (52 + (-52 - ez')) with (- ez') by lia.
      assert (Hp1 : 0 < 2 ^ (ez - ez')) by (apply Z.pow_pos_nonneg; lia).
      assert (Hp2 : 0 < 2 ^ (eq - ez)) by (apply Z.pow_pos_nonneg; lia).
      assert (Hp3 : 2 ^ (- ez') <= Zpos mq * 2 ^ (eq - ez) * 2 ^ (ez - ez')).
      { rewrite <- Z.mul_assoc, <- Z.pow_add_r by lia.
        replace (eq - ez + (ez - ez')) with ((eq - -52) + (-52 - ez')) by lia.
        rewrite Z.pow_add_r by lia.
        replace (- ez') with (52 + (-52 - ez')) by lia.
        rewrite Z.pow_add_r by lia.
        assert (0 < 2 ^ (-52 - ez')) by (apply Z.pow_pos_nonneg; lia).
        rewrite Z.mul_assoc. apply Z.mul_le_mono_nonneg_r; [lia|exact Hval]. }
      rewrite Z.mul_add_distr_r.
      assert (0 <= Zpos mt' * 2 ^ (ez - ez'))
        by (apply Z.mul_nonneg_nonneg; lia).
      lia. }
    destruct (binary_round_aux prec emax false (Zpos mz) ez' loc_Exact)
      as [s|s| |s m e] eqn:Er; try reflexivity; try discriminate.
    + destruct s; [discriminate|reflexivity].
    + destruct s; [discriminate|]. apply SFleb_not_ltb. exact Hge.
Qed.


Lemma log2_below_53 z : 1 <= z < 2 ^ 53 -> 0 <= Z.log2 z <= 52.
Proof.
  intros Hz. split; [apply Z.log2_nonneg|].
  apply Z.lt_succ_r. unfold Z.succ. apply log2_lt; [lia|apply Hz].
Qed.

(** [total_seconds] of a difference of at least [P] seconds is at least
    [float(P)]. *)
Lemma total_seconds_ge (P delta : Z) :
  1 <= P -> P * 1000000 <= delta < 2 ^ 53 ->
  (float_of_Z P <=? total_seconds delta)%float = true.
Proof.
  intros HP Hd.
  assert (HP53 : 1 <= P < 2 ^ 53) by lia.
  assert (Hd53 : 1 <= delta < 2 ^ 53) by lia.
  destruct (float_of_Z_exact P HP53) as (mP & EP & HmP).
  destruct (float_of_Z_exact delta Hd53) as (md & Ed & Hmd).
  destruct (float_of_Z_valid_exact P mP HP53 HmP) as [HlP _].
  destruct (float_of_Z_valid_exact delta md Hd53 Hmd) as [Hld _].
  pose proof (log2_below_53 P HP53) as HLP.
  pose proof (log2_below_53 delta Hd53) as HLd.
  pose proof (Prim2SF_valid (float_of_Z P)) as HvP. rewrite EP in HvP.
  rewrite FloatAxioms.leb_spec. unfold total_seconds.
  rewrite FloatAxioms.div_spec, EP, Ed, Prim2SF_million.
  assert (Hl6 : Z.log2 (Zpos 8589934592000000) = 52) by reflexivity.
  apply SFdiv_ge; [exact HvP|rewrite Hld, Hl6; lia|].
  rewrite Hld, Hl6. intros e' He' Hle.
  assert (E' : e' = Z.log2 delta - 72) by lia. clear He'. subst e'.
  rewrite HmP, Hmd.
  replace (Zpos 8589934592000000) with (1000000 * 2 ^ 33) by reflexivity.
  replace (Z.log2 delta - 52 - -33 - (Z.log2 delta - 72)) with 53 by lia.
  set (k := 52 - Z.log2 delta) in *.
  assert (Hk : 0 <= k) by (unfold k; lia).
  replace (Z.log2 P - 52 - (Z.log2 delta - 72)) with (k + Z.log2 P - 32)
    by (unfold k; lia).
  assert (Hpow : 2 ^ (52 - Z.log2 P) * 2 ^ (k + Z.log2 P - 32) * 2 ^ 33
                 = 2 ^ k * 2 ^ 53).
  { rewrite <- !Z.pow_add_r by lia. f_equal. lia. }
  assert (Hk2 : 0 < 2 ^ k * 2 ^ 53)
    by (apply Z.mul_pos_pos; apply Z.pow_pos_nonneg; lia).
  transitivity (P * 1000000 * (2 ^ k * 2 ^ 53)).
  - rewrite <- Hpow. lia.
  - rewrite <- (Z.mul_assoc delta). apply Z.mul_le_mono_nonneg_r; lia.
Qed.

(** [1 / float(c)] is positive and at most 1. *)
Lemma inverse_le_one (c : Z) : 2 <= c < 2 ^ 53 ->
  exists m e,
    Prim2SF (1 / float_of_Z c) = S754_finite false m e /\
    SFleb (S754_finite false m e) (S754_finite false 4503599627370496 (-52))
    = true.
Proof.
  intros Hc.
  assert (Hc53 : 1 <= c < 2 ^ 53) by lia.
  destruct (float_of_Z_exact c Hc53) as (mc & Ec & Hmc).
  destruct (float_of_Z_valid_exact c mc Hc53 Hmc) as [Hlc [Hclo Hchi]].
  pose proof (log2_below_53 c Hc53) as HLc.
  assert (HL1 : 1 <= Z.log2 c) by (apply log2_ge; lia).
  rewrite FloatAxioms.div_spec, Prim2SF_one, Ec.
  unfold SF64div. cbn [SFdiv].
  destruct (SFdiv_core_spec 4503599627370496 (-52) mc (Z.log2 c - 52)) as [l ->].
  cbn [xorb].
  rewrite !(Zdigits2_log2 (Zpos _) eq_refl), Hlc, fexp_eq.
  change (Z.log2 (Zpos 4503599627370496)) with 52.
  replace (Z.min (Z.max (52 + 1 + -52 - (52 + 1 + (Z.log2 c - 52)) - 53) (-1074))
                 (-52 - (Z.log2 c - 52)))
    with (- Z.log2 c - 53) by lia.
  replace (-52 - (Z.log2 c - 52) - (- Z.log2 c - 53)) with 53 by lia.
  change (Zpos 4503599627370496 * 2 ^ 53) with (2 ^ 105).
  set (q := 2 ^ 105 / Zpos mc).
  assert (Hq : 2 ^ 52 <= q <= 2 ^ 53).
  { unfold q. split.
    - apply Z.div_le_lower_bound; [lia|].
      change (2 ^ 105) with (2 ^ 53 * 2 ^ 52). nia.
    - apply Z.div_le_upper_bound; [lia|].
      change (2 ^ 105) with (2 ^ 52 * 2 ^ 53). nia. }
  assert (Hlq : 52 <= Z.log2 q <= 53).
  { split; [apply log2_ge; lia|].
    apply Z.lt_succ_r. unfold Z.succ. apply log2_lt; [lia|].
    change (2 ^ (53 + 1)) with (2 * 2 ^ 53). lia. }
  apply round_le; [vm_compute; reflexivity|lia|lia|lia|lia|].
  replace (Zpos 4503599627370496) with (2 ^ 52) by reflexivity.
  rewrite <- Z.pow_add_r by lia.
  replace (52 + (-52 - (- Z.log2 c - 53))) with (53 + Z.log2 c) by lia.
  rewrite Z.pow_add_r by lia.
  assert (2 ^ 1 <= 2 ^ Z.log2 c) by (apply Z.pow_le_mono_r; lia).
  change (2 ^ 1) with 2 in H. nia.
Qed.

(** [1 - y] is not negative for a positive [y <= 1]. *)
Lemma one_minus_nonneg (y : float) m e :
  Prim2SF y = S754_finite false m e ->
  SFleb (S754_finite false m e) (S754_finite false 4503599627370496 (-52))
  = true ->
  (1 - y <? 0)%float = false.
Proof.
  intros Ey Hle. pose proof (Prim2SF_valid y) as Hv. rewrite Ey in Hv.
  assert (Hone : valid_binary (S754_finite false 4503599627370496 (-52)) = true)
    by (vm_compute; reflexivity).
  destruct (SFleb_value _ _ _ _ Hv Hone Hle) as [He Hval].
  rewrite FloatAxioms.ltb_spec, FloatAxioms.sub_spec, Prim2SF_one, Prim2SF_zero, Ey.
  unfold SF64sub. cbn [SFsub cond_Zopp].
  destruct (shl_align_spec 4503599627370496 (-52) (Z.min (-52) e))
    as (m1 & -> & Hm1).
  destruct (shl_align_spec m e (Z.min (-52) e)) as (m2 & -> & Hm2).
  cbn [fst].
  replace (Z.min (-52) (Z.min (-52) e)) with e in Hm1 by lia.
  replace (Z.min e (Z.min (-52) e)) with e in Hm2 by lia.
  rewrite Z.sub_diag, Z.pow_0_r, Z.mul_1_r in Hm2.
  assert (Hdiff : 0 <= Zpos m1 - Zpos m2) by lia.
  destruct (Zpos m1 - Zpos m2) as [|d|d]; [reflexivity| |lia].
  cbn [binary_normalize]. unfold binary_round.
  destruct (shl_align d _ _) as [mz ez].
  unfold binary_round_aux.
  destruct (shr_fexp prec emax (Zpos mz) ez loc_Exact) as [mrs1 e1].
  destruct (shr_fexp prec emax _ e1 loc_Exact) as [mrs2 e2].
  destruct (shr_m mrs2); [reflexivity| |reflexivity].
  destruct (e2 <=? emax - prec); reflexivity.
Qed.

(** The first debit from a full bucket is never refused. *)
Lemma first_debit_ok (c : Z) : 1 <= c < 2 ^ 53 ->
  (1 - 1 / float_of_Z c <? 0)%float = false.
Proof.
  intros Hc. destruct (Z.eq_dec c 1) as [->|Hne]; [vm_compute; reflexivity|].
  destruct (inverse_le_one c) as (m & e & Ey & Hle); [lia|].
  exact (one_minus_nonneg _ m e Ey Hle).
Qed.

(** No time elapsed: the top-up leaves the balance as it is. *)
Lemma total_seconds_0 : total_seconds 0 = 0%float.
Proof. vm_compute. reflexivity. Qed.

Lemma zero_div (y : float) my ey :
  Prim2SF y = S754_finite false my ey -> (0 / y = 0)%float.
Proof.
  intros Ey. apply Prim2SF_inj.
  rewrite FloatAxioms.div_spec, Prim2SF_zero, Ey. reflexivity.
Qed.

Lemma add_zero (t : float) :
  Prim2SF t <> S754_zero true -> (t + 0 = t)%float.
Proof.
  intros Ht. apply Prim2SF_inj. rewrite FloatAxioms.add_spec, Prim2SF_zero.
  destruct (Prim2SF t) as [[]|[]| |s m e]; try reflexivity. contradiction.
Qed.


Lemma py_min_le_one (t : float) : (t <=? 1)%float = true -> py_min 1 t = t.
Proof.
  intros Hle. unfold py_min. destruct (t <? 1)%float eqn:Hlt; [reflexivity|].
  apply Prim2SF_inj. rewrite FloatAxioms.leb_spec in Hle.
  rewrite FloatAxioms.ltb_spec in Hlt. rewrite Prim2SF_one in *.
  unfold SFleb in Hle. unfold SFltb in Hlt.
  destruct (Prim2SF t) as [s|s| |s m e]; cbn [SFcompare] in *;
    try discriminate; try (destruct s; discriminate).
  destruct s; [discriminate|].
  destruct (Z.compare_spec e (-52)) as [E|?|?]; try discriminate.
  destruct (Pos.compare_cont Eq m 4503599627370496) eqn:Ec; try discriminate.
  apply Pos.compare_eq in Ec. rewrite E, Ec. reflexivity.
Qed.

(** *** Bursts and idle keys *)

Lemma float_of_Z_finite (P : Z) : 1 <= P < 2 ^ 53 ->
  exists m e, Prim2SF (float_of_Z P) = S754_finite false m e.
Proof.
  intros HP. destruct (float_of_Z_exact P HP) as (m & E & _). eauto.
Qed.

(** No time has passed: the top-up changes nothing. *)
Lemma top_up_at_once (t : float) (P : Z) :
  1 <= P < 2 ^ 53 -> steady t = true ->
  py_min 1 (t + total_seconds 0 / float_of_Z P)%float = t.
Proof.
  intros HP Hs. unfold steady in Hs. apply andb_true_iff in Hs.
  destruct Hs as [Hle Hz].
  destruct (float_of_Z_finite P HP) as (m & e & EP).
  rewrite total_seconds_0, (zero_div _ m e EP), add_zero.
  - apply py_min_le_one. exact Hle.
  - intros E. rewrite FloatAxioms.classify_spec, E in Hz. discriminate.
Qed.

(** One call on a stored bucket, at the instant of its last update. *)
Lemma authorize_at_once (key : string) (c P : Z) (w : World) (t : float) :
  1 <= c -> 1 <= P < 2 ^ 53 -> steady t = true ->
  token_buckets w !! key = Some {| tokens := t; updated := now w |} ->
  let b := (t - 1 / float_of_Z c)%float in
  authorize key c P w
  = if (b <? 0)%float then Ok (false, w)
    else Ok (true,
             log (SaveTokenBucket key {| tokens := b; updated := now w |})
               (set_token_buckets
                  (<[key := {| tokens := b; updated := now w |}]>
                     (token_buckets w)) w)).
Proof.
  intros Hc HP Hs Hrow b. unfold authorize, get_or_create. rewrite Hrow.
  unfold debited. cbn [tokens updated].
  replace (P =? 0) with false by (symmetry; apply Z.eqb_neq; lia).
  replace (c =? 0) with false by (symmetry; apply Z.eqb_neq; lia).
  rewrite Z.sub_diag, (top_up_at_once t P HP Hs). cbn [bind]. fold b.
  destruct (b <? 0)%float; reflexivity.
Qed.

Lemma set_now_same (w : World) : set_now (now w) w = w.
Proof. destruct w. reflexivity. Qed.

(** Calls at one instant on a stored bucket: granted while the debits
    go through, refused from then on. *)
Lemma burst_on_stored (key : string) (c P : Z) :
  1 <= c -> 1 <= P < 2 ^ 53 ->
  forall (j k : nat) (t t' : float) (w : World),
    steady t = true ->
    token_buckets w !! key = Some {| tokens := t; updated := now w |} ->
    drained (1 / float_of_Z c) t j = Some t' ->
    (t' - 1 / float_of_Z c <? 0)%float = true ->
    authorize_at key c P (repeat (now w) k) w
    = (repeat (Ok true) (Nat.min k j) ++ repeat (Ok false) (k - j))%list.
Proof.
  intros Hc HP. induction j as [|j IH]; intros k t t' w Hs Hrow Hdr Hex.
  - cbn [drained] in Hdr. injection Hdr as <-.
    rewrite Nat.min_0_r, Nat.sub_0_r. cbn [repeat app].
    induction k as [|k IHk]; [reflexivity|].
    cbn [repeat authorize_at]. rewrite set_now_same.
    rewrite (authorize_at_once key c P w t Hc HP Hs Hrow). cbn zeta.
    rewrite Hex. rewrite IHk. reflexivity.
  - cbn [drained] in Hdr.
    destruct (t - 1 / float_of_Z c <? 0)%float eqn:Hneg; [discriminate|].
    destruct (steady (t - 1 / float_of_Z c)) eqn:Hs'; [|discriminate].
    destruct k as [|k]; [reflexivity|].
    cbn [repeat authorize_at]. rewrite set_now_same.
    rewrite (authorize_at_once key c P w t Hc HP Hs Hrow). cbn zeta.
    rewrite Hneg.
    set (w' := log _ _).
    change (now w) with (now w').
    rewrite (IH k (t - 1 / float_of_Z c)%float t' w' Hs'); [reflexivity| |exact Hdr|exact Hex].
    unfold w'. cbn. apply lookup_insert_eq.
Qed.

(** The same for a key seen for the first time. *)
Lemma burst_on_fresh (key : string) (c P : Z) (w : World) (j k : nat)
    (t' : float) :
  1 <= c < 2 ^ 53 -> 1 <= P < 2 ^ 53 ->
  token_buckets w !! key = None ->
  (1 <= j)%nat ->
  drained (1 / float_of_Z c) 1 j = Some t' ->
  (t' - 1 / float_of_Z c <? 0)%float = true ->
  authorize_at key c P (repeat (now w) k) w
  = (repeat (Ok true) (Nat.min k j) ++ repeat (Ok false) (k - j))%list.
Proof.
  intros Hc HP Hnone Hn Hdr Hex.
  destruct j as [|j]; [lia|]. cbn [drained] in Hdr.
  destruct (1 - 1 / float_of_Z c <? 0)%float eqn:Hneg; [discriminate|].
  destruct (steady (1 - 1 / float_of_Z c)) eqn:Hs'; [|discriminate].
  destruct k as [|k]; [reflexivity|].
  cbn [repeat authorize_at]. rewrite set_now_same.
  unfold authorize, get_or_create. rewrite Hnone. unfold debited.
  cbn [tokens bind].
  replace (c =? 0) with false by (symmetry; apply Z.eqb_neq; lia).
  cbn [bind]. rewrite Hneg.
  set (w' := log (SaveTokenBucket _ _) _).
  change (now w) with (now w').
  rewrite (burst_on_stored key c P ltac:(lia) HP j k
             (1 - 1 / float_of_Z c)%float t' w' Hs'); [reflexivity| |exact Hdr|exact Hex].
  unfold w'. cbn. apply lookup_insert_eq.
Qed.

(** The bursts of the capacities up to 1000, by evaluation. *)
Lemma burst_limits :
  forallb (fun c => burst_of c (burst_limit c) && (1 <=? burst_limit c)%nat)
          (map Z.of_nat (seq 1 1000)) = true.
Proof. vm_compute. reflexivity. Qed.

Lemma burst_limit_spec (c : Z) : 1 <= c <= 1000 ->
  burst_of c (burst_limit c) = true /\ (1 <= burst_limit c)%nat /\
  c - 1 <= Z.of_nat (burst_limit c) <= c.
Proof.
  intros Hc. pose proof burst_limits as H.
  rewrite forallb_forall in H. specialize (H c).
  destruct (andb_prop _ _ (H ltac:(apply in_map_iff; exists (Z.to_nat c);
    split; [lia|apply in_seq; lia]))) as [H1 H2].
  split; [exact H1|]. split; [apply Nat.leb_le; exact H2|].
  apply Nat.leb_le in H2. revert H2. unfold burst_limit.
  destruct (burst_of c (Z.to_nat c - 1)); lia.
Qed.

(** A call a full refill period or more after the last update finds the
    bucket full. *)
Lemma top_up_after_idle (t : float) (P delta : Z) :
  1 <= P -> P * 1000000 <= delta < 2 ^ 53 ->
  (t <? 0)%float = false ->
  py_min 1 (t + total_seconds delta / float_of_Z P)%float = 1%float.
Proof.
  intros HP Hd Ht.
  destruct (float_of_Z_finite P ltac:(lia)) as (m & e & EP).
  pose proof (total_seconds_ge P delta HP Hd) as Hge.
  pose proof (div_ge_one _ _ m e EP Hge) as Hq.
  unfold py_min. rewrite (add_ge_one _ _ Ht Hq). reflexivity.
Qed.




(** The calls authorised at one instant for a fresh key, for the
    capacities of the derived policies. *)
Example burst_at_one_instant :
  map (fun capacity =>
         authorized (authorize_at "fresh" capacity 3600
                       (repeat (now Scenario.world1) 100) Scenario.world1))
      [1; 6; 10; 20; 96]
  = [1; 6; 10; 19; 96]%nat.
Proof. vm_compute. reflexivity. Qed.

(** ** Further properties of the code *)

(** *** The object store *)

(** X1.  [enc] returns a key exactly for the integers from 0 up to 10^123 -
    1; for a negative integer and for an integer of 124 digits or more
    it raises [ValueError]. *)
Theorem enc_domain (n : Z) :
  (0 <= n < 10 ^ 123 -> exists key, enc n = Ok key) /\
  (n < 0 \/ 10 ^ 123 <= n -> enc n = Raise ValueError).
Proof.
  split.
  - intros Hn. exists (key_of n). apply enc_in_range, Hn.
  - intros [Hn | Hn]; [apply enc_negative_raises | apply enc_out_of_range];
      exact Hn.
Qed.

Lemma object_key_inj code a b ka kb :
  object_key code a = Ok ka -> object_key code b = Ok kb -> ka = kb -> a = b.
Proof.
  unfold object_key. intros Ha Hb Heq.
  destruct (enc a) as [ea|] eqn:Ea; cbn [bind] in Ha; [|discriminate].
  destruct (enc b) as [eb|] eqn:Eb; cbn [bind] in Hb; [|discriminate].
  injection Ha as <-. injection Hb as <-.
  assert (Ra : 0 <= a < 10 ^ 123).
  { destruct (Z.lt_ge_cases a 0) as [H|H];
      [rewrite enc_negative_raises in Ea by exact H; discriminate|].
    destruct (Z.lt_ge_cases a (10 ^ 123)) as [H'|H']; [lia|].
    rewrite enc_out_of_range in Ea by exact H'. discriminate. }
  assert (Rb : 0 <= b < 10 ^ 123).
  { destruct (Z.lt_ge_cases b 0) as [H|H];
      [rewrite enc_negative_raises in Eb by exact H; discriminate|].
    destruct (Z.lt_ge_cases b (10 ^ 123)) as [H'|H']; [lia|].
    rewrite enc_out_of_range in Eb by exact H'. discriminate. }
  rewrite (enc_in_range a Ra) in Ea. rewrite (enc_in_range b Rb) in Eb.
  injection Ea as <-. injection Eb as <-.
  pose proof (key_of_compare a b Ra Rb) as Hc.
  assert (Hk : key_of a = key_of b).
  { pose proof (compare_append (code ++ "/") (key_of a) (key_of b)) as Hp.
    rewrite !append_assoc in Hp. rewrite Heq, string_compare_refl in Hp.
    symmetry in Hp. apply String.compare_eq_iff in Hp. exact Hp. }
  rewrite Hk, string_compare_refl in Hc. symmetry in Hc.
  apply Z.compare_eq_iff in Hc. congruence.
Qed.

(** X2.  A body stored by [put_object] is what [get_object] returns for the
    same check and number, and the lookup of every other number of the
    check is unchanged. *)
Theorem put_then_get (cfg : settings) (bucket bucket' : gmap string string)
    (code : string) (n : Z) (data : string) :
  put_object cfg bucket code n data = Ok bucket' ->
  get_object cfg bucket' code n = Ok (Some data) /\
  (forall m, m <> n ->
     get_object cfg bucket' code m = get_object cfg bucket code m).
Proof.
  unfold put_object, get_object. intros Hput.
  destruct (object_key code n) as [key|] eqn:Hkey; cbn [bind] in *; [|discriminate].
  destruct (client cfg) as [[]|] eqn:Hcl; cbn [bind] in *; [|discriminate].
  injection Hput as <-. split.
  - rewrite lookup_insert_eq. reflexivity.
  - intros m Hm.
    destruct (object_key code m) as [km|] eqn:Hkm; cbn [bind]; [|reflexivity].
    rewrite lookup_insert_ne; [reflexivity|].
    intros Heq. apply Hm. symmetry.
    exact (object_key_inj code n m key km Hkey Hkm Heq).
Qed.

Lemma enc_domain_witness :
  (exists key, enc 42 = Ok key) /\ enc (-1) = Raise ValueError.
Proof.
  split.
  - apply (proj1 (enc_domain 42)). split; [lia | reflexivity].
  - apply (proj2 (enc_domain (-1))). left. lia.
Defined.

Lemma put_then_get_witness :
  get_object (cfg Scenario.world1)
    (<["c0de/zc-7" := "seven"]> (bucket Scenario.world1)) "c0de" 7
  = Ok (Some "seven").
Proof.
  apply (put_then_get (cfg Scenario.world1) (bucket Scenario.world1)
           (<["c0de/zc-7" := "seven"]> (bucket Scenario.world1))
           "c0de" 7 "seven").
  reflexivity.
Defined.

(** X3.  [remove_objects] never adds or changes an object: every name either
    keeps its body or is deleted, and a deleted name starts with the
    prefix of the check. *)
Theorem remove_objects_only_deletes (cfg : settings)
    (bucket : gmap string string) (code : string) (upto_n : Z) (name : string) :
  remove_objects cfg bucket code upto_n !! name = bucket !! name \/
  (remove_objects cfg bucket code upto_n !! name = None /\
   String.prefix (code ++ "/") name = true).
Proof.
  unfold remove_objects, _remove_objects.
  destruct (enc (upto_n + 1)) as [k|]; cbn [bind]; [|now left].
  destruct (client cfg); cbn [bind]; [|now left].
  rewrite lookup_delete_all. destruct (decide (_ ∈ _)) as [Hin|]; [|now left].
  right. split; [reflexivity|].
  apply elem_of_list_objects in Hin. tauto.
Qed.

(** X4.  Where object storage is not configured, or [upto_n + 1] is negative
    or has more than 123 digits, [_remove_objects] raises ([ConfigError]
    or [ValueError]) and [remove_objects], which runs it on a thread,
    leaves the bucket as it was. *)
Theorem remove_objects_nothing (cfg : settings) (bucket : gmap string string)
    (code : string) (upto_n : Z) :
  configured cfg = false \/ upto_n + 1 < 0 \/ 10 ^ 123 <= upto_n + 1 ->
  _remove_objects cfg bucket code upto_n
    = Raise (if (0 <=? upto_n + 1) && (upto_n + 1 <? 10 ^ 123)
             then ConfigError else ValueError) /\
  remove_objects cfg bucket code upto_n = bucket.
Proof.
  intros Hcase.
  assert (Hraise : _remove_objects cfg bucket code upto_n
    = Raise (if (0 <=? upto_n + 1) && (upto_n + 1 <? 10 ^ 123)
             then ConfigError else ValueError)).
  { unfold _remove_objects.
    destruct (Z.leb_spec 0 (upto_n + 1)) as [H0|H0];
      [destruct (Z.ltb_spec (upto_n + 1) (10 ^ 123)) as [H1|H1]|]; cbn [andb].
    - rewrite enc_in_range by lia. cbn [bind]. unfold client.
      destruct Hcase as [-> | [H|H]]; [reflexivity | lia | lia].
    - rewrite enc_out_of_range by lia. reflexivity.
    - rewrite enc_negative_raises by lia. reflexivity. }
  split; [exact Hraise|]. unfold remove_objects. rewrite Hraise. reflexivity.
Qed.

Lemma list_objects_after_removal
    (bucket : gmap string string) prefix start_after :
  list_objects (delete_all (list_objects bucket prefix start_after) bucket)
    prefix start_after = [].
Proof.
  apply elem_of_nil_inv. intros k Hk.
  apply elem_of_list_objects in Hk. destruct Hk as (Hsome & Hp & Hlt).
  rewrite lookup_delete_all in Hsome.
  destruct (decide (k ∈ list_objects bucket prefix start_after)) as [Hin|Hnin].
  - destruct Hsome as [? ?]. discriminate.
  - apply Hnin. apply elem_of_list_objects. tauto.
Qed.

Lemma remove_objects_idempotent (cfg : settings)
    (bucket : gmap string string) (code : string) (upto_n : Z) :
  remove_objects cfg (remove_objects cfg bucket code upto_n) code upto_n
  = remove_objects cfg bucket code upto_n.
Proof.
  unfold remove_objects, _remove_objects.
  destruct (enc (upto_n + 1)) as [k|]; cbn [bind]; [|reflexivity].
  destruct (client cfg); cbn [bind]; [|reflexivity].
  rewrite list_objects_after_removal. reflexivity.
Qed.

Lemma remove_objects_nothing_witness :
  remove_objects (cfg Scenario.world1) (bucket Scenario.world1) "c0de" (-900)
  = bucket Scenario.world1.
Proof.
  apply (remove_objects_nothing (cfg Scenario.world1)
           (bucket Scenario.world1) "c0de" (-900)).
  right. left. lia.
Defined.

(** *** Status and deadline *)

Section StatusFacts.
Context `{Externals}.

(** X5.  Whatever is stored, a status that [get_status] returns is one of
    ["down"], ["started"], ["new"], ["paused"], ["grace"] and ["up"]. *)
Theorem get_status_values (self : Check) (with_started : bool) (w : World)
    (s : string) :
  get_status self with_started w = Ok s ->
  In s ["down"; "started"; "new"; "paused"; "grace"; "up"].
Proof.
  unfold get_status, started_status.
  destruct (last_start self) as [ls|].
  - destruct (ls + grace self <=? now w); [intros [= <-]; cbn; tauto|].
    destruct with_started; [intros [= <-]; cbn; tauto|].
    rewrite !str_in_cons.
    destruct (String.eqb_spec (status self) "new") as [->|_];
      [intros [= <-]; cbn; tauto|].
    destruct (String.eqb_spec (status self) "paused") as [->|_];
      [intros [= <-]; cbn; tauto|].
    destruct (String.eqb_spec (status self) "down") as [->|_];
      [intros [= <-]; cbn; tauto|].
    cbn [str_in existsb orb].
    destruct (get_grace_start self false) as [[gs|]|]; cbn [bind];
      try discriminate.
    destruct (_ <=? _); [intros [= <-]; cbn; tauto|].
    destruct (_ <=? _); intros [= <-]; cbn; tauto.
  - rewrite !str_in_cons.
    destruct (String.eqb_spec (status self) "new") as [->|_];
      [intros [= <-]; cbn; tauto|].
    destruct (String.eqb_spec (status self) "paused") as [->|_];
      [intros [= <-]; cbn; tauto|].
    destruct (String.eqb_spec (status self) "down") as [->|_];
      [intros [= <-]; cbn; tauto|].
    cbn [str_in existsb orb].
    destruct (get_grace_start self with_started) as [[gs|]|]; cbn [bind];
      try discriminate.
    destruct (_ <=? _); [intros [= <-]; cbn; tauto|].
    destruct (_ <=? _); intros [= <-]; cbn; tauto.
Qed.

(** X6.  A stored ["new"], ["paused"] or ["down"] is reported as it is at
    every instant, as long as no start is pending (or a pending start is
    within grace and [with_started] is not asked for). *)
Theorem get_status_sticky (self : Check) (with_started : bool) (w : World) :
  status self = "new" \/ status self = "paused" \/ status self = "down" ->
  (forall ls, last_start self = Some ls ->
     now w < ls + grace self /\ with_started = false) ->
  get_status self with_started w = Ok (status self).
Proof.
  intros Hst Hls. unfold get_status, started_status.
  destruct (last_start self) as [ls|].
  - destruct (Hls ls eq_refl) as [Hlt ->].
    destruct (Z.leb_spec (ls + grace self) (now w)); [lia|].
    destruct Hst as [-> | [-> | ->]]; reflexivity.
  - destruct Hst as [-> | [-> | ->]]; reflexivity.
Qed.

(** X7.  For a simple check that is up and has no pending start, [get_status]
    is ["up"] before [last_ping + timeout], ["grace"] from then until
    [last_ping + timeout + grace], and ["down"] from then on. *)
Theorem get_status_simple (self : Check) (with_started : bool) (w : World)
    (lp : Z) :
  kind self = "simple" -> status self = "up" ->
  last_ping self = Some lp -> last_start self = None ->
  lp + timeout self <> NEVER ->
  get_status self with_started w
  = Ok (if lp + timeout self + grace self <=? now w then "down"
        else if lp + timeout self <=? now w then "grace"
        else "up").
Proof.
  intros Hk Hs Hlp Hls Hne. unfold get_status, started_status, get_grace_start.
  rewrite Hls, Hk, Hs, Hlp. cbn [str_in existsb orb String.eqb Ascii.eqb Bool.eqb andb bind].
  rewrite (proj2 (Z.eqb_neq _ _) Hne).
  destruct (_ <=? _); [reflexivity|]. destruct (_ <=? _); reflexivity.
Qed.

(** X8.  [going_down_after] is [None] for a check that is down, and for a
    check that is new or paused and not running. *)
Theorem going_down_after_none (self : Check) :
  status self = "down" \/
  ((status self = "new" \/ status self = "paused") /\ last_start self = None) ->
  going_down_after self = Ok None.
Proof.
  unfold going_down_after, get_grace_start.
  intros [-> | [[-> | ->] ->]]; cbn; try reflexivity.
  - rewrite !andb_false_r. cbn [bind]. destruct (last_start self); reflexivity.
  - rewrite !andb_false_r. reflexivity.
  - rewrite !andb_false_r. reflexivity.
Qed.

(** X9.  When [going_down_after] gives a deadline, [get_status] (without
    [with_started]) reports ["down"] exactly from that deadline on. *)
Theorem alert_deadline_is_down (self : Check) (w : World) (t : Z) :
  going_down_after self = Ok (Some t) ->
  get_status self false w = Ok "down" <-> t <= now w.
Proof.
  unfold going_down_after, get_status, started_status, get_grace_start.
  destruct (String.eqb_spec (status self) "down") as [Hd|Hd].
  { rewrite Hd. cbn [String.eqb Ascii.eqb Bool.eqb]. rewrite !andb_false_r.
    cbn [bind negb andb]. destruct (last_start self); cbn; discriminate. }
  set (r0 := if (kind self =? "simple")%string && (status self =? "up")%string
             then match last_ping self with
                  | Some lp => Ok (lp + timeout self)
                  | None => Raise TypeError
                  end
             else if (kind self =? "cron")%string && (status self =? "up")%string
             then match last_ping self with
                  | Some lp => cron_next (schedule self) (tz self) lp
                  | None => Raise AttributeError
                  end
             else Ok NEVER).
  assert (Hr0 : forall x, r0 = Ok x -> x <> NEVER -> status self = "up").
  { intros x Hx Hne. unfold r0 in Hx.
    destruct (String.eqb_spec (status self) "up") as [E|E]; [exact E|].
    rewrite !andb_false_r in Hx. congruence. }
  destruct r0 as [x|e] eqn:Er0; cbn [bind]; [|discriminate].
  cbn [andb negb].
  rewrite !str_in_cons.
  destruct (last_start self) as [ls|].
  - destruct (Z.ltb_spec ls x) as [Hlt|Hge].
    + destruct (Z.eqb_spec ls NEVER) as [E|E]; [discriminate|].
      intros [= <-].
      destruct (Z.leb_spec (ls + grace self) (now w)); [tauto|].
      destruct (String.eqb_spec (status self) "new") as [->|_];
        [split; [discriminate|lia]|].
      destruct (String.eqb_spec (status self) "paused") as [->|_];
        [split; [discriminate|lia]|].
      rewrite (proj2 (String.eqb_neq _ _) Hd). cbn [orb str_in existsb].
      destruct (x =? NEVER); [split; [discriminate|lia]|].
      destruct (Z.leb_spec (x + grace self) (now w)); [lia|].
      destruct (_ <=? _); split; try discriminate; lia.
    + destruct (Z.eqb_spec x NEVER) as [E|E]; [discriminate|].
      intros [= <-].
      destruct (Z.leb_spec (ls + grace self) (now w)); [split; [lia|reflexivity]|].
      rewrite (Hr0 x eq_refl E). cbn [String.eqb Ascii.eqb Bool.eqb orb str_in existsb].
      destruct (Z.leb_spec (x + grace self) (now w)); [tauto|].
      destruct (_ <=? _); split; try discriminate; lia.
  - destruct (Z.eqb_spec x NEVER) as [E|E]; [discriminate|].
    intros [= <-]. rewrite (Hr0 x eq_refl E).
    cbn [String.eqb Ascii.eqb Bool.eqb orb str_in existsb].
    destruct (Z.leb_spec (x + grace self) (now w)); [tauto|].
    destruct (_ <=? _); split; try discriminate; lia.
Qed.

End StatusFacts.

Lemma get_status_values_witness :
  In "grace" ["down"; "started"; "new"; "paused"; "grace"; "up"].
Proof.
  apply (@get_status_values Scenario.externals Scenario.check1 false
           (set_now 70000000 Scenario.world1) "grace").
  reflexivity.
Defined.

Lemma get_status_sticky_witness :
  @get_status Scenario.externals Cases.paused true
    (set_now 999000000 Scenario.world1) = Ok "paused".
Proof.
  apply (@get_status_sticky Scenario.externals Cases.paused true
           (set_now 999000000 Scenario.world1)).
  - right. left. reflexivity.
  - intros ls Hls. discriminate Hls.
Defined.

Lemma get_status_simple_witness :
  @get_status Scenario.externals Scenario.check1 false
    (set_now 70000000 Scenario.world1) = Ok "grace".
Proof.
  apply (@get_status_simple Scenario.externals Scenario.check1 false
           (set_now 70000000 Scenario.world1) 3000000);
    solve [reflexivity | discriminate].
Defined.

Lemma going_down_after_none_witness :
  @going_down_after Scenario.externals Cases.paused = Ok None.
Proof.
  apply (@going_down_after_none Scenario.externals Cases.paused).
  right. split; [right; reflexivity | reflexivity].
Defined.

Lemma alert_deadline_is_down_witness :
  @get_status Scenario.externals Scenario.check1 false
    (set_now 93000000 Scenario.world1) = Ok "down".
Proof.
  apply (@alert_deadline_is_down Scenario.externals Scenario.check1
           (set_now 93000000 Scenario.world1) 93000000).
  - reflexivity.
  - cbn. lia.
Defined.

(** *** More on ingestion *)

Section PingFacts.
Context `{Externals}.

Lemma find_saved (id : Z) (row : Check) (l : list Check) (stored : Check) :
  check_id row = id ->
  List.find (fun c => check_id c =? id) l = Some stored ->
  List.find (fun c => check_id c =? id)
    (map (fun c => if check_id c =? id then row else c) l) = Some row.
Proof.
  intros Hrow. induction l as [|c l IH]; cbn [List.find map]; [discriminate|].
  destruct (check_id c =? id) eqn:E.
  - intros _. rewrite Hrow, Z.eqb_refl. reflexivity.
  - rewrite E. exact IH.
Qed.

Lemma apply_action_frame (self : Check) (act : string) (t : Z) (w : World) :
  let self1 := fst (apply_action self act t w) in
  let w1 := snd (apply_action self act t w) in
  check_id self1 = check_id self /\ code self1 = code self /\
  kind self1 = kind self /\ timeout self1 = timeout self /\
  grace self1 = grace self /\ project self1 = project self /\
  checks w1 = checks w /\ pings w1 = pings w /\ ping_seq w1 = ping_seq w /\
  cfg w1 = cfg w /\ bucket w1 = bucket w /\ now w1 = now w /\
  notifications w1 = notifications w /\ channels w1 = channels w /\
  token_buckets w1 = token_buckets w.
Proof.
  unfold apply_action.
  destruct (act =? "start")%string; [cbn; tauto|].
  destruct (act =? "ign")%string; [cbn; tauto|].
  destruct (negb _); cbn; tauto.
Qed.

Lemma ingest_row self ra sc me ua_ body action es w self2 w4 :
  ingest self ra sc me ua_ body action es w = Ok (self2, w4) ->
  let act := effective_action self action in
  let archive :=
    (100 <? Z.of_nat (String.length body)) && configured (cfg w) in
  pings w4
  = (pings w
     ++ [ {| ping_id := ping_seq w;
             n := Some (n_pings self2);
             ping_owner := check_id self;
             ping_created := now w;
             ping_kind := if str_in act ["start"; "fail"; "ign"]
                          then Some act else None;
             scheme := sc; remote_addr := ra; method := me;
             ua := String.substring 0 200 ua_;
             body_raw := if archive then None else Some body;
             object_size :=
               if archive then Some (Z.of_nat (String.length body)) else None;
             exitstatus := es |} ])%list /\
  cfg w4 = cfg w /\
  code self2 = code self /\
  check_id self2 = check_id self /\
  find_check (check_id self) w4 = Some self2 /\
  (exists stored, find_check (check_id self) w = Some stored /\
                  n_pings self2 = n_pings stored + 1) /\
  (if archive
   then exists key, object_key (code self) (n_pings self2) = Ok key /\
                    bucket w4 = <[key := body]> (bucket w)
   else bucket w4 = bucket w).
Proof.
  intros Hing act archive. unfold ingest in Hing. fold act in Hing.
  pose proof (apply_action_frame self act (now w) w) as Hfr. cbn zeta in Hfr.
  destruct (apply_action self act (now w) w) as [s1 w1].
  cbn [fst snd] in Hfr.
  destruct Hfr as (Hid & Hcode & _ & _ & _ & _ & Hch & Hpi & Hps & Hcfg & Hbu & _).
  destruct (going_down_after s1) as [aa|]; cbn [bind] in Hing; [|discriminate].
  unfold save_and_refresh in Hing.
  destruct (find_check (check_id s1) w1) as [stored|] eqn:Hfind;
    cbn [bind] in Hing; [|discriminate].
  set (row := set_bookkeeping aa (n_pings stored + 1) (has_confirm body) s1) in *.
  assert (Hfind0 : find_check (check_id self) w = Some stored).
  { unfold find_check in *. rewrite <- Hid, <- Hch. exact Hfind. }
  assert (Hfound : List.find (fun c => check_id c =? check_id self)
            (map (fun c => if check_id c =? check_id s1 then row else c)
                 (checks w1)) = Some row).
  { rewrite Hid. apply (find_saved _ _ _ stored); [exact Hid|].
    unfold find_check in Hfind. rewrite Hid in Hfind. exact Hfind. }
  rewrite Hid in Hfound.
  cbn [cfg log set_journal set_checks] in Hing. rewrite Hcfg in Hing.
  fold archive in Hing.
  destruct archive eqn:Harch.
  - unfold put_object in Hing.
    change (code row) with (code s1) in Hing.
    change (n_pings row) with (n_pings stored + 1) in Hing.
    destruct (object_key (code s1) (n_pings stored + 1)) as [key|] eqn:Hkey;
      cbn [bind] in Hing; [|discriminate].
    destruct (client (cfg w)); cbn [bind] in Hing; [|discriminate].
    injection Hing as <- <-. cbn.
    rewrite Hpi, Hps, Hcfg, Hbu, Hid, Hcode.
    repeat split; try reflexivity; try assumption.
    + exists stored. split; [exact Hfind0 | reflexivity].
    + exists key. rewrite <- Hcode. split; [exact Hkey | reflexivity].
  - cbn [bind] in Hing. injection Hing as <- <-. cbn.
    rewrite Hpi, Hps, Hcfg, Hbu, Hid, Hcode.
    repeat split; try reflexivity; try assumption.
    exists stored. split; [exact Hfind0 | reflexivity].
Qed.

End PingFacts.

Section PingExtras.
Context `{Externals}.

Lemma prune_checks self w : checks (prune self w) = checks w.
Proof.
  unfold prune. destruct (configured (cfg w)); cbn;
    destruct (earliest _ _); reflexivity.
Qed.

Lemma ping_ingest self ra sc me ua_ body action es w self2 w' :
  ping self ra sc me ua_ body action es w = Ok (self2, w') ->
  exists w4,
    ingest self ra sc me ua_ body action es w = Ok (self2, w4) /\
    checks w' = checks w4 /\ flips w' = flips w4.
Proof.
  intros Hping.
  destruct (ping_inv _ _ _ _ _ _ _ _ _ _ _ Hping) as (w4 & Hing & ->).
  exists w4. split; [exact Hing|].
  destruct (_ =? 0); [rewrite prune_checks, prune_flips|]; split; reflexivity.
Qed.

(** X10.  A start ping sets [last_start] to the time of the ping and leaves
    [last_ping], [last_duration] and the status as they were; it creates
    no flip. *)
Theorem ping_start_only_marks_start (self : Check) (ra : option string)
    (sc me ua_ body action : string) (es : option Z) (w : World)
    (self2 : Check) (w' : World) :
  effective_action self action = "start" ->
  ping self ra sc me ua_ body action es w = Ok (self2, w') ->
  last_start self2 = Some (now w) /\
  last_ping self2 = last_ping self /\
  last_duration self2 = last_duration self /\
  status self2 = status self /\
  flips w' = flips w.
Proof.
  intros Hact Hping.
  destruct (ping_ingest _ _ _ _ _ _ _ _ _ _ _ Hping) as (w4 & Hing & _ & Hfl).
  destruct (ingest_inv _ _ _ _ _ _ _ _ _ _ _ Hing)
    as (aa & stored & rest & p & _ & _ & -> & Hfl4 & _).
  rewrite Hact in Hfl4 |- *. rewrite Hfl, Hfl4. repeat split.
Qed.

(** X11.  Whatever arrives for a paused check with [manual_resume] leaves it
    paused, with [last_ping], [last_start] and [last_duration] untouched
    and no flip; the ping is still counted and stored, with the kind
    ["ign"]. *)
Theorem ping_paused_manual_resume (self : Check) (ra : option string)
    (sc me ua_ body action : string) (es : option Z) (w : World)
    (self2 : Check) (w' : World) :
  status self = "paused" -> manual_resume self = true ->
  ping self ra sc me ua_ body action es w = Ok (self2, w') ->
  status self2 = "paused" /\
  last_ping self2 = last_ping self /\
  last_start self2 = last_start self /\
  last_duration self2 = last_duration self /\
  flips w' = flips w /\
  exists w4 p,
    ingest self ra sc me ua_ body action es w = Ok (self2, w4) /\
    last (pings w4) = Some p /\ ping_kind p = Some "ign" /\
    n p = Some (n_pings self2).
Proof.
  intros Hst Hman Hping.
  assert (Hact : effective_action self action = "ign")
    by (unfold effective_action; rewrite Hst, Hman; reflexivity).
  destruct (ping_ingest _ _ _ _ _ _ _ _ _ _ _ Hping) as (w4 & Hing & _ & Hfl).
  destruct (ingest_row _ _ _ _ _ _ _ _ _ _ _ Hing) as (Hrow & _).
  destruct (ingest_inv _ _ _ _ _ _ _ _ _ _ _ Hing)
    as (aa & stored & rest & p & _ & _ & Hs2 & Hfl4 & _).
  rewrite Hact in Hfl4, Hs2, Hrow. subst self2. rewrite Hfl, Hfl4.
  repeat split; try assumption.
  eexists w4, _. split; [exact Hing|]. rewrite Hrow, last_snoc.
  repeat split.
Qed.

(** X12.  A success or a fail sets [last_ping] to the time of the ping, clears
    [last_start], and sets [last_duration] to the time since the pending
    start, or to [None] when there was none. *)
Theorem ping_records_duration (self : Check) (ra : option string)
    (sc me ua_ body action : string) (es : option Z) (w : World)
    (self2 : Check) (w' : World) :
  effective_action self action <> "start" ->
  effective_action self action <> "ign" ->
  ping self ra sc me ua_ body action es w = Ok (self2, w') ->
  last_ping self2 = Some (now w) /\
  last_start self2 = None /\
  last_duration self2
  = match last_start self with
    | Some ls => Some (now w - ls)
    | None => None
    end.
Proof.
  intros Hs Hi Hping.
  destruct (ping_ingest _ _ _ _ _ _ _ _ _ _ _ Hping) as (w4 & Hing & _).
  destruct (ingest_inv _ _ _ _ _ _ _ _ _ _ _ Hing)
    as (aa & stored & rest & p & _ & _ & -> & _).
  unfold apply_action.
  rewrite (proj2 (String.eqb_neq _ _) Hs), (proj2 (String.eqb_neq _ _) Hi).
  destruct (negb _); repeat split.
Qed.

(** X13.  The counter a ping gets is the stored counter plus one, whatever the
    counter of the instance it is called on; the stored row is then the
    returned instance, so the next ping of the check, even through a
    stale instance, gets the next number. *)
Theorem ping_counts_from_stored_row (self : Check) (ra : option string)
    (sc me ua_ body action : string) (es : option Z) (w : World)
    (self2 : Check) (w' : World) :
  ping self ra sc me ua_ body action es w = Ok (self2, w') ->
  (exists stored, find_check (check_id self) w = Some stored /\
                  n_pings self2 = n_pings stored + 1) /\
  find_check (check_id self) w' = Some self2 /\
  (forall self' ra' sc' me' ua' body' action' es' v self3 v',
     check_id self' = check_id self -> checks v = checks w' ->
     ping self' ra' sc' me' ua' body' action' es' v = Ok (self3, v') ->
     n_pings self3 = n_pings self2 + 1).
Proof.
  intros Hping.
  destruct (ping_ingest _ _ _ _ _ _ _ _ _ _ _ Hping) as (w4 & Hing & Hch & _).
  destruct (ingest_row _ _ _ _ _ _ _ _ _ _ _ Hing)
    as (_ & _ & _ & _ & Hfound & Hstored & _).
  assert (Hfound' : find_check (check_id self) w' = Some self2)
    by (unfold find_check in *; rewrite Hch; exact Hfound).
  split; [exact Hstored|]. split; [exact Hfound'|].
  intros self' ra' sc' me' ua' body' action' es' v self3 v' Hid Hv Hping'.
  destruct (ping_ingest _ _ _ _ _ _ _ _ _ _ _ Hping') as (v4 & Hing' & _).
  destruct (ingest_row _ _ _ _ _ _ _ _ _ _ _ Hing')
    as (_ & _ & _ & _ & _ & (stored' & Hst' & Hn') & _).
  unfold find_check in Hst', Hfound'. rewrite Hid, Hv, Hfound' in Hst'.
  injection Hst' as <-. exact Hn'.
Qed.

(** X14.  The [alert_after] a ping saves is [going_down_after] of the check as
    saved. *)
Theorem ping_stores_deadline (self : Check) (ra : option string)
    (sc me ua_ body action : string) (es : option Z) (w : World)
    (self2 : Check) (w' : World) :
  ping self ra sc me ua_ body action es w = Ok (self2, w') ->
  going_down_after self2 = Ok (alert_after self2).
Proof.
  intros Hping.
  destruct (ping_ingest _ _ _ _ _ _ _ _ _ _ _ Hping) as (w4 & Hing & _).
  destruct (ingest_inv _ _ _ _ _ _ _ _ _ _ _ Hing)
    as (aa & stored & rest & p & Haa & _ & -> & _).
  cbn [alert_after set_bookkeeping]. rewrite <- Haa. reflexivity.
Qed.

End PingExtras.

Lemma ping_start_only_marks_start_witness :
  last_start (fst Cases.after_start) = Some (now Scenario.world1) /\
  status (fst Cases.after_start) = "up" /\
  flips (snd Cases.after_start) = [].
Proof.
  destruct (@ping_start_only_marks_start Scenario.externals Scenario.check1
              None "http" "GET" "curl" "" "start" None Scenario.world1
              (fst Cases.after_start) (snd Cases.after_start))
    as (H1 & _ & _ & H4 & H5);
    [reflexivity | vm_compute; reflexivity |].
  split; [exact H1|]. split; [exact H4 | exact H5].
Defined.

Lemma ping_paused_manual_resume_witness :
  status (fst Cases.after_paused) = "paused" /\
  last_ping (fst Cases.after_paused) = Some 3000000 /\
  flips (snd Cases.after_paused) = [].
Proof.
  destruct (@ping_paused_manual_resume Scenario.externals Cases.paused
              None "http" "GET" "curl" "" "success" None Cases.world_paused
              (fst Cases.after_paused) (snd Cases.after_paused))
    as (H1 & H2 & _ & _ & H5 & _);
    [reflexivity | reflexivity | vm_compute; reflexivity |].
  split; [exact H1|]. split; [exact H2 | exact H5].
Defined.

Lemma ping_records_duration_witness :
  last_duration (fst Cases.after_finish) = Some 6000000 /\
  last_start (fst Cases.after_finish) = None.
Proof.
  destruct (@ping_records_duration Scenario.externals Cases.running
              None "http" "GET" "curl" "" "success" (Some 0) Scenario.world1
              (fst Cases.after_finish) (snd Cases.after_finish))
    as (_ & H2 & H3);
    [discriminate | discriminate | vm_compute; reflexivity |].
  split; [exact H3 | exact H2].
Defined.

Lemma ping_counts_from_stored_row_witness :
  n_pings (fst Cases.after_second) = n_pings (fst Cases.after_success) + 1.
Proof.
  destruct (@ping_counts_from_stored_row Scenario.externals Scenario.check1
              None "http" "GET" "curl" "" "success" None Scenario.world1
              (fst Cases.after_success) (snd Cases.after_success))
    as (_ & _ & Hnext); [vm_compute; reflexivity|].
  apply (Hnext Scenario.check1 None "http" "GET" "curl" "" "success" None
           (snd Cases.after_success) (fst Cases.after_second)
           (snd Cases.after_second));
    [reflexivity | reflexivity | vm_compute; reflexivity].
Defined.

Lemma ping_stores_deadline_witness :
  @going_down_after Scenario.externals (fst Cases.after_success)
  = Ok (alert_after (fst Cases.after_success)).
Proof.
  apply (@ping_stores_deadline Scenario.externals Scenario.check1
           None "http" "GET" "curl" "" "success" None Scenario.world1
           (fst Cases.after_success) (snd Cases.after_success)).
  vm_compute. reflexivity.
Defined.

Section BodyFacts.
Context `{Externals}.
Variable decode : string -> string.

Lemma long_body_nonempty (body : string) :
  100 < Z.of_nat (String.length body) -> (body =? "")%string = false.
Proof. destruct body; cbn; [lia|reflexivity]. Qed.

(** X15.  The ping row holds the body inline or the size of the archived body,
    never both: the body is archived exactly when it is longer than 100
    bytes and object storage is configured, and then [get_object]
    returns it; otherwise the bucket is untouched. *)
Theorem ingest_places_body (self : Check) (ra : option string)
    (sc me ua_ body action : string) (es : option Z) (w : World)
    (self2 : Check) (w4 : World) :
  ingest self ra sc me ua_ body action es w = Ok (self2, w4) ->
  exists p,
    last (pings w4) = Some p /\
    ((body_raw p = Some body /\ object_size p = None /\
      bucket w4 = bucket w /\
      (Z.of_nat (String.length body) <= 100 \/ configured (cfg w) = false))
     \/
     (body_raw p = None /\
      object_size p = Some (Z.of_nat (String.length body)) /\
      100 < Z.of_nat (String.length body) /\ configured (cfg w) = true /\
      get_object (cfg w4) (bucket w4) (code self) (n_pings self2)
      = Ok (Some body))).
Proof.
  intros Hing.
  destruct (ingest_row _ _ _ _ _ _ _ _ _ _ _ Hing)
    as (Hrow & Hcfg & _ & _ & _ & _ & Hbucket).
  eexists. split; [rewrite Hrow; apply last_snoc|]. cbn [body_raw object_size].
  destruct (Z.ltb_spec 100 (Z.of_nat (String.length body))) as [Hlong|Hshort];
    cbn [andb] in *.
  - destruct (configured (cfg w)) eqn:Hconf.
    + right. destruct Hbucket as (key & Hkey & Hb).
      repeat split; try assumption.
      unfold get_object. rewrite Hkey. cbn [bind]. unfold client.
      rewrite Hcfg, Hconf. cbn [bind]. rewrite Hb, lookup_insert_eq. reflexivity.
    + left. repeat split; auto.
  - left. repeat split; auto.
Qed.

(** X16.  [get_body] of the row a ping has just stored returns the decoded
    body, from the row or from the archive, and [None] for an empty
    body; [has_body] is false exactly for an empty body. *)
Theorem ingested_body_reads_back (self : Check) (ra : option string)
    (sc me ua_ body action : string) (es : option Z) (w : World)
    (self2 : Check) (w4 : World) :
  ingest self ra sc me ua_ body action es w = Ok (self2, w4) ->
  exists p,
    last (pings w4) = Some p /\
    has_body None p = negb (body =? "")%string /\
    get_body decode None p w4
    = Ok (if (body =? "")%string then None else Some (decode body)).
Proof.
  intros Hing.
  destruct (ingest_row _ _ _ _ _ _ _ _ _ _ _ Hing)
    as (Hrow & Hcfg & Hcode & _ & Hfound & _ & Hbucket).
  eexists. split; [rewrite Hrow; apply last_snoc|].
  unfold has_body, get_body.
  cbn [body_raw object_size truthy_text truthy_int orb ping_owner n].
  destruct (Z.ltb_spec 100 (Z.of_nat (String.length body))) as [Hlong|Hshort];
    cbn [andb] in *.
  - destruct (configured (cfg w)) eqn:Hconf.
    + destruct Hbucket as (key & Hkey & Hb).
      cbn [truthy_text truthy_int orb].
      rewrite (long_body_nonempty body Hlong).
      assert (Hnz : (Z.of_nat (String.length body) =? 0) = false)
        by (apply Z.eqb_neq; lia).
      rewrite Hnz. cbn [negb]. split; [reflexivity|].
      rewrite Hfound. unfold get_object. rewrite Hcode, Hkey. cbn [bind].
      unfold client. rewrite Hcfg, Hconf. cbn [bind].
      rewrite Hb, lookup_insert_eq. cbn [truthy_text].
      rewrite (long_body_nonempty body Hlong). reflexivity.
    + cbn [truthy_text truthy_int orb bind]. rewrite orb_false_r.
      split; [reflexivity|]. destruct (body =? "")%string; reflexivity.
  - cbn [truthy_text truthy_int orb bind]. rewrite orb_false_r.
    split; [reflexivity|]. destruct (body =? "")%string; reflexivity.
Qed.

(** X17.  After a success at time [t] a simple check is up until [t +
    timeout], in grace until [t + timeout + grace] and down from then
    on, and its [alert_after] is [t + timeout + grace]. *)
Theorem success_then_status (self : Check) (ra : option string)
    (sc me ua_ body action : string) (es : option Z) (w : World)
    (self2 : Check) (w' : World) :
  kind self = "simple" ->
  effective_action self action <> "start" ->
  effective_action self action <> "ign" ->
  effective_action self action <> "fail" ->
  now w + timeout self <> NEVER ->
  ping self ra sc me ua_ body action es w = Ok (self2, w') ->
  alert_after self2 = Some (now w + timeout self + grace self) /\
  forall with_started v,
    get_status self2 with_started v
    = Ok (if now w + timeout self + grace self <=? now v then "down"
          else if now w + timeout self <=? now v then "grace"
          else "up").
Proof.
  intros Hk Hs Hi Hf Hne Hping.
  destruct (ping_ingest _ _ _ _ _ _ _ _ _ _ _ Hping) as (w4 & Hing & _).
  destruct (ingest_inv _ _ _ _ _ _ _ _ _ _ _ Hing)
    as (aa & stored & rest & p & Haa & _ & -> & _).
  revert Haa. unfold apply_action, new_status_for.
  rewrite (proj2 (String.eqb_neq _ _) Hs), (proj2 (String.eqb_neq _ _) Hi),
    (proj2 (String.eqb_neq _ _) Hf).
  assert (Hgo : forall c, kind c = "simple" -> status c = "up" ->
            last_ping c = Some (now w) -> last_start c = None ->
            timeout c = timeout self -> grace c = grace self ->
            forall aa', going_down_after c = Ok aa' ->
            aa' = Some (now w + timeout self + grace self) /\
            forall bk1 bk2 bk3 with_started v,
              get_status (set_bookkeeping bk1 bk2 bk3 c) with_started v
              = Ok (if now w + timeout self + grace self <=? now v then "down"
                    else if now w + timeout self <=? now v then "grace"
                    else "up")).
  { intros c Hck Hcs Hcl Hcst Hct Hcg aa'.
    unfold going_down_after, get_status, started_status, get_grace_start.
    cbn [kind status last_ping last_start timeout grace set_bookkeeping].
    rewrite Hck, Hcs, Hcl, Hcst, Hct, Hcg.
    cbn [String.eqb Ascii.eqb Bool.eqb andb bind str_in existsb orb].
    rewrite (proj2 (Z.eqb_neq _ _) Hne). cbn [bind]. intros [= <-].
    split; [reflexivity|]. intros _ _ _ _ v.
    destruct (_ <=? _); [reflexivity|]. destruct (_ <=? _); reflexivity. }
  cbn [status record_finish].
  destruct (String.eqb_spec (status self) "up") as [Hup|Hup];
    cbn [negb fst]; intros Haa.
  - destruct (Hgo (record_finish (now w) self) Hk Hup eq_refl eq_refl
                eq_refl eq_refl aa Haa) as [-> Hst].
    split; [reflexivity | intros ws v; apply Hst].
  - destruct (Hgo (set_status "up" (record_finish (now w) self)) Hk eq_refl
                eq_refl eq_refl eq_refl eq_refl aa Haa) as [-> Hst].
    split; [reflexivity | intros ws v; apply Hst].
Qed.

(** X18.  After a fail the check reports ["down"] at every instant and has no
    [alert_after]. *)
Theorem fail_then_status (self : Check) (ra : option string)
    (sc me ua_ body action : string) (es : option Z) (w : World)
    (self2 : Check) (w' : World) :
  effective_action self action = "fail" ->
  ping self ra sc me ua_ body action es w = Ok (self2, w') ->
  alert_after self2 = None /\
  forall with_started v, get_status self2 with_started v = Ok "down".
Proof.
  intros Hf Hping.
  destruct (ping_ingest _ _ _ _ _ _ _ _ _ _ _ Hping) as (w4 & Hing & _).
  destruct (ingest_inv _ _ _ _ _ _ _ _ _ _ _ Hing)
    as (aa & stored & rest & p & Haa & _ & -> & _).
  revert Haa. rewrite Hf. unfold apply_action, new_status_for.
  cbn [String.eqb Ascii.eqb Bool.eqb].
  assert (Hgo : forall c, status c = "down" -> last_start c = None ->
            forall aa', going_down_after c = Ok aa' ->
            aa' = None /\
            forall bk1 bk2 bk3 with_started v,
              get_status (set_bookkeeping bk1 bk2 bk3 c) with_started v
              = Ok "down").
  { intros c Hcs Hcst aa'.
    unfold going_down_after, get_status, started_status, get_grace_start.
    cbn [kind status last_ping last_start timeout grace set_bookkeeping].
    rewrite Hcs, Hcst. cbn [String.eqb Ascii.eqb Bool.eqb].
    rewrite !andb_false_r. cbn [bind]. intros [= <-]. split; reflexivity. }
  cbn [status record_finish].
  destruct (String.eqb_spec (status self) "down") as [Hdn|Hdn];
    cbn [negb fst]; intros Haa.
  - destruct (Hgo (record_finish (now w) self) Hdn eq_refl aa Haa)
      as [-> Hst].
    split; [reflexivity | intros ws v; apply Hst].
  - destruct (Hgo (set_status "down" (record_finish (now w) self)) eq_refl
                eq_refl aa Haa) as [-> Hst].
    split; [reflexivity | intros ws v; apply Hst].
Qed.

End BodyFacts.

Lemma ingest_places_body_witness :
  exists p,
    last (pings (snd Cases.ingested_long)) = Some p /\
    body_raw p = None /\ object_size p = Some 150 /\
    get_object (cfg (snd Cases.ingested_long))
      (bucket (snd Cases.ingested_long)) "c0de" 100
    = Ok (Some Cases.long_body).
Proof.
  destruct (@ingest_places_body Scenario.externals Scenario.check1
              None "http" "POST" "curl" Cases.long_body "success" None
              Scenario.world1 (fst Cases.ingested_long)
              (snd Cases.ingested_long))
    as (p & Hp & [(_ & _ & _ & [Hshort | Hoff]) | (Hr & Hs & _ & _ & Hg)]);
    [vm_compute; reflexivity | | |].
  - exfalso. vm_compute in Hshort. apply Hshort. reflexivity.
  - discriminate Hoff.
  - exists p. split; [exact Hp|]. split; [exact Hr|]. split; [exact Hs|].
    exact Hg.
Defined.

Lemma ingested_body_reads_back_witness :
  exists p,
    last (pings (snd Cases.ingested_long)) = Some p /\
    get_body Cases.plain None p (snd Cases.ingested_long)
    = Ok (Some Cases.long_body).
Proof.
  destruct (@ingested_body_reads_back Scenario.externals Cases.plain
              Scenario.check1 None "http" "POST" "curl" Cases.long_body
              "success" None Scenario.world1 (fst Cases.ingested_long)
              (snd Cases.ingested_long)) as (p & Hp & _ & Hg);
    [vm_compute; reflexivity|].
  exists p. split; [exact Hp | exact Hg].
Defined.

Lemma success_then_status_witness :
  alert_after (fst Cases.after_success) = Some 100000000 /\
  @get_status Scenario.externals (fst Cases.after_success) true
    (set_now 99000000 Scenario.world1) = Ok "grace".
Proof.
  destruct (@success_then_status Scenario.externals Scenario.check1
              None "http" "GET" "curl" "" "success" None Scenario.world1
              (fst Cases.after_success) (snd Cases.after_success))
    as (Ha & Hs);
    [reflexivity | discriminate | discriminate | discriminate | discriminate
     | vm_compute; reflexivity |].
  split; [exact Ha|].
  exact (Hs true (set_now 99000000 Scenario.world1)).
Defined.

Lemma fail_then_status_witness :
  alert_after (fst Scenario.after_fail) = None /\
  @get_status Scenario.externals (fst Scenario.after_fail) true
    (set_now 11000000 Scenario.world1) = Ok "down".
Proof.
  destruct (@fail_then_status Scenario.externals Scenario.check1
              None "http" "POST" "curl" "" "fail" (Some 1) Scenario.world1
              (fst Scenario.after_fail) (snd Scenario.after_fail))
    as (Ha & Hs); [reflexivity | vm_compute; reflexivity |].
  split; [exact Ha|].
  exact (Hs true (set_now 11000000 Scenario.world1)).
Defined.

(** *** Pruning, notifying and alerting *)

Section AlertFacts.
Context `{Externals}.

Lemma filter_idem {A} (f : A -> bool) (l : list A) :
  List.filter f (List.filter f l) = List.filter f l.
Proof.
  induction l as [|x l IH]; [reflexivity|]. cbn [List.filter].
  destruct (f x) eqn:E; [cbn [List.filter]; rewrite E, IH|]; auto.
Qed.

(** X19.  Pruning a second time removes nothing more: the pings, the
    notifications and the archive are as after the first pruning. *)
Theorem prune_twice (self : Check) (w : World) :
  pings (prune self (prune self w)) = pings (prune self w) /\
  notifications (prune self (prune self w)) = notifications (prune self w) /\
  bucket (prune self (prune self w)) = bucket (prune self w).
Proof.
  assert (Hlim : threshold_of self (prune self w) = threshold_of self w).
  { unfold threshold_of, prune. destruct (configured (cfg w)); cbn;
      destruct (earliest _ _); reflexivity. }
  assert (Hcfg : cfg (prune self w) = cfg w).
  { unfold prune. destruct (configured (cfg w)); cbn;
      destruct (earliest _ _); reflexivity. }
  assert (Hp : pings (prune self (prune self w)) = pings (prune self w)).
  { rewrite (prune_pings self (prune self w)), Hlim, prune_pings.
    apply filter_idem. }
  split; [exact Hp|]. split.
  - rewrite (prune_notifications self (prune self w)), Hp.
    rewrite (prune_notifications self w).
    destruct (earliest _ _); [apply filter_idem | reflexivity].
  - rewrite (prune_bucket self (prune self w)), Hcfg, Hlim, prune_bucket.
    destruct (configured (cfg w)); [apply remove_objects_idempotent|reflexivity].
Qed.

(** What [notify] leaves in the world when it returns. *)
Lemma notify_inv (self : Channel) (check : Check) (is_test : bool)
    (w : World) (err : string) (w' : World) :
  notify self check is_test w = Ok (err, w') ->
  (exists tr, transport self = Ok tr) /\
  ((is_noop self check = true /\ err = "no-op" /\ w' = w) \/
   (is_noop self check = false /\
    length (notifications w') = S (length (notifications w)) /\
    checks w' = checks w /\
    exists t dis,
      channels w'
      = map (fun c => if channel_id c =? channel_id self
                      then set_outcome t err dis c else c) (channels w))).
Proof.
  unfold notify.
  destruct (transport self) as [tr|]; cbn [bind]; [|discriminate].
  intros Hn. split; [exists tr; reflexivity|].
  destruct (is_noop self check); [left; injection Hn as <- <-; auto|right].
  split; [reflexivity|].
  destruct (transport_notify _ _ _) as [[e|] elapsed]; injection Hn as <- <-;
    cbn; rewrite length_map, length_app; cbn;
    (split; [lia|]); (split; [reflexivity|]); eexists _, _; reflexivity.
Qed.

(** X20.  When the transport returns, [notify] returns the empty string;
    the notification row it has inserted ends with an empty [error] (in
    place of ["Sending"]) and every other column as inserted; the stored
    channel gets an empty [last_error], the time after the send as
    [last_notify], and the [disabled] flag the instance was loaded with;
    every other notification and every other column stays as stored. *)
Theorem notify_success (self : Channel) (check : Check) (is_test : bool)
    (w : World) (tr : string) (elapsed : Z) :
  let nt := {| notification_id := notification_seq w;
               notification_owner :=
                 if is_test then None else Some (check_id check);
               check_status := status check;
               notification_channel := channel_id self;
               notification_created := now w;
               error := "Sending" |} in
  transport self = Ok tr ->
  is_noop self check = false ->
  transport_notify self check nt = (None, elapsed) ->
  exists w',
    notify self check is_test w = Ok ("", w') /\
    (exists stored,
       last (notifications w') = Some stored /\
       error stored = "" /\
       notification_id stored = notification_seq w /\
       notification_owner stored
       = (if is_test then None else Some (check_id check)) /\
       check_status stored = status check /\
       notification_channel stored = channel_id self /\
       notification_created stored = now w) /\
    length (notifications w') = S (length (notifications w)) /\
    (forall n, n ∈ notifications w ->
       notification_id n <> notification_seq w -> n ∈ notifications w') /\
    channels w'
    = map (fun c => if channel_id c =? channel_id self
                    then {| channel_id := channel_id c;
                            channel_kind := channel_kind c;
                            value := value c;
                            email_verified := email_verified c;
                            disabled := disabled self;
                            last_notify := Some (now w + elapsed);
                            last_error := "";
                            channel_checks := channel_checks c |}
                    else c)
          (channels w) /\
    journal w'
    = (journal w
       ++ [InsertNotification nt;
           UpdateNotificationError (notification_seq w) "";
           UpdateChannelOutcome (channel_id self) (now w + elapsed) ""
             (disabled self)])%list.
Proof.
  intros nt Htr Hnoop Hsend.
  unfold notify. rewrite Htr. cbn [bind]. rewrite Hnoop.
  fold nt. rewrite Hsend.
  eexists. split; [reflexivity|]. cbn.
  split; [|split; [|split; [|split; [reflexivity|]]]].
  - exists (set_error "" nt). split; [|repeat split].
    rewrite map_app. cbn. rewrite Z.eqb_refl. apply last_snoc.
  - rewrite length_map, length_app. cbn. lia.
  - intros n0 Hn Hid. apply list_elem_of_In. apply in_map_iff. exists n0.
    split; [|apply in_or_app; left; apply list_elem_of_In; exact Hn].
    rewrite (proj2 (Z.eqb_neq _ _) Hid). reflexivity.
  - rewrite <- !app_assoc. reflexivity.
Qed.

Lemma send_loop_inv (owner : Check) (chans : list Channel) :
  forall (w : World) ys w',
    send_loop owner chans w = Ok (ys, w') ->
    (forall c err t, In (c, err, t) ys -> In c chans /\ err <> "no-op") /\
    length (notifications w')
    = (length (notifications w)
       + length (List.filter (fun c => negb (is_noop c owner)) chans))%nat /\
    (length ys <= length (List.filter (fun c => negb (is_noop c owner)) chans))%nat /\
    checks w' = checks w /\
    (forall c, In c (channels w) ->
       (forall c', In c' chans -> channel_id c' <> channel_id c) ->
       In c (channels w')).
Proof.
  induction chans as [|ch rest IH]; intros w ys w' Hloop; cbn [send_loop] in Hloop.
  - injection Hloop as <- <-. cbn. repeat split; auto; intros c e t [].
  - destruct (notify ch owner false w) as [[err w1]|] eqn:Hn;
      cbn [bind] in Hloop; [|discriminate].
    destruct (notify_inv _ _ _ _ _ _ Hn) as [_ Hcase].
    assert (Hkeep : forall c, In c (channels w) ->
              channel_id ch <> channel_id c -> In c (channels w1)).
    { intros c Hc Hne. destruct Hcase as [(_ & _ & ->) | (_ & _ & _ & t & dis & ->)];
        [exact Hc|].
      apply in_map_iff. exists c. split; [|exact Hc].
      destruct (Z.eqb_spec (channel_id c) (channel_id ch)); [congruence|reflexivity]. }
    assert (Hlen : length (notifications w1)
              = (length (notifications w)
                 + (if negb (is_noop ch owner) then 1 else 0))%nat
              /\ checks w1 = checks w).
    { destruct Hcase as [(-> & _ & ->) | (-> & Hl & Hc & _)]; cbn; split;
        auto; lia. }
    destruct Hlen as [Hlen Hch].
    cbn [List.filter].
    destruct (String.eqb_spec err "no-op") as [Hno|Hno].
    + destruct (IH _ _ _ Hloop) as (Hys & Hcount & Hle & Hchk & Hfr).
      split; [|split; [|split; [|split]]].
      * intros c e t Hin. destruct (Hys c e t Hin). split; [right|]; assumption.
      * rewrite Hcount, Hlen. destruct (negb (is_noop ch owner)); cbn; lia.
      * destruct (negb (is_noop ch owner)); cbn; lia.
      * congruence.
      * intros c Hc Hids. apply Hfr.
        -- apply Hkeep; [exact Hc|]. apply Hids. left. reflexivity.
        -- intros c' Hc'. apply Hids. right. exact Hc'.
    + destruct (send_loop owner rest w1) as [[ys' w2]|] eqn:Hrest;
        cbn [bind] in Hloop; [|discriminate].
      injection Hloop as <- <-.
      destruct (IH _ _ _ Hrest) as (Hys & Hcount & Hle & Hchk & Hfr).
      assert (Hnz : is_noop ch owner = false).
      { destruct Hcase as [(_ & E & _) | (E & _)]; [congruence|exact E]. }
      rewrite Hnz in *. cbn [negb] in *.
      split; [|split; [|split; [|split]]].
      * intros c e t [Hin|Hin].
        -- injection Hin as <- <- <-. split; [left; reflexivity|exact Hno].
        -- destruct (Hys c e t Hin). split; [right|]; assumption.
      * rewrite Hcount, Hlen. cbn. lia.
      * cbn. lia.
      * congruence.
      * intros c Hc Hids. apply Hfr.
        -- apply Hkeep; [exact Hc|]. apply Hids. left. reflexivity.
        -- intros c' Hc'. apply Hids. right. exact Hc'.
Qed.

(** X21.  For a flip that is alerted on, every triple [send_alerts] yields is
    for a stored channel that is assigned to the check and not disabled,
    with an error other than ["no-op"]; one notification is recorded for
    each enabled channel whose transport is not a no-op; and a stored
    channel whose id is not the id of an enabled channel of the check
    stays as stored. *)
Theorem send_alerts_reaches_enabled (self : Flip) (w : World)
    (ys : list (Channel * string * Z)) (w' : World) (owner : Check) :
  new_status self = "down" \/
  (new_status self = "up" /\ old_status self <> "new" /\
   old_status self <> "paused") ->
  find_check (flip_owner self) w = Some owner ->
  send_alerts self w = Ok (ys, w') ->
  (forall c err t, In (c, err, t) ys ->
     In c (channels w) /\ disabled c <> Some true /\
     In (check_id owner) (channel_checks c) /\ err <> "no-op") /\
  length (notifications w')
  = (length (notifications w)
     + length (List.filter (fun c => negb (is_noop c owner))
                 (enabled_channels (check_id owner) w)))%nat /\
  (length ys <= length (List.filter (fun c => negb (is_noop c owner))
                          (enabled_channels (check_id owner) w)))%nat /\
  (forall c, In c (channels w) ->
     (disabled c = Some true \/ ~ In (check_id owner) (channel_checks c)) ->
     (forall c', In c' (enabled_channels (check_id owner) w) ->
        channel_id c' <> channel_id c) ->
     In c (channels w')).
Proof.
  intros Hnew Hfind.
  assert (Hgo : send_alerts self w
                = send_loop owner (enabled_channels (check_id owner) w) w).
  { unfold send_alerts. rewrite Hfind.
    destruct Hnew as [-> | (-> & Hn & Hp)]; [reflexivity|].
    rewrite !str_in_cons, (eqb_neq_false _ _ Hn), (eqb_neq_false _ _ Hp).
    reflexivity. }
  rewrite Hgo. intros Hloop.
  destruct (send_loop_inv _ _ _ _ _ Hloop) as (Hys & Hcount & Hle & _ & Hfr).
  split; [|split; [exact Hcount|split; [exact Hle|]]].
  - intros c err t Hin. destruct (Hys c err t Hin) as [Hc Hne].
    unfold enabled_channels in Hc. apply filter_In in Hc.
    destruct Hc as [Hc Hcond]. apply andb_true_iff in Hcond.
    destruct Hcond as [Hass Hen].
    split; [exact Hc|]. split; [|split; [|exact Hne]].
    + intros Hd. rewrite Hd in Hen. discriminate.
    + apply existsb_exists in Hass. destruct Hass as (x & Hx & Hxe).
      apply Z.eqb_eq in Hxe. subst x. exact Hx.
  - intros c Hc _ Hids. apply Hfr; assumption.
Qed.

(** The kinds without a branch in [transport]: ["zendesk"], although it is
    one of [CHANNEL_KINDS], and every kind outside [CHANNEL_KINDS]. *)
Lemma transport_unknown_kind (self : Channel) :
  channel_kind self = "zendesk" \/
  str_in (channel_kind self) CHANNEL_KINDS = false ->
  transport self = Raise NotImplementedError.
Proof.
  intros [Hz | Hout]; unfold transport; [rewrite Hz; reflexivity|].
  unfold CHANNEL_KINDS in Hout. cbn [str_in existsb] in Hout.
  repeat (apply orb_false_elim in Hout as [? Hout]).
  cbn [str_in existsb].
  repeat match goal with
         | E : (_ =? _)%string = false |- _ => rewrite E; clear E
         end.
  reflexivity.
Qed.

(** Every other kind of [CHANNEL_KINDS] has a transport. *)
Lemma transport_known_kind (self : Channel) :
  str_in (channel_kind self) CHANNEL_KINDS = true ->
  channel_kind self <> "zendesk" ->
  exists tr, transport self = Ok tr.
Proof.
  intros Hin Hz. unfold CHANNEL_KINDS in Hin. cbn [str_in existsb] in Hin.
  unfold transport.
  repeat (apply orb_true_iff in Hin as [Hin | Hin];
          [apply String.eqb_eq in Hin; try contradiction; rewrite Hin;
           eexists; reflexivity|]).
  discriminate.
Qed.

Lemma notify_raises (self : Channel) (check : Check) (is_test : bool)
    (w : World) (e : exn) :
  notify self check is_test w = Raise e ->
  e = NotImplementedError /\ transport self = Raise NotImplementedError.
Proof.
  unfold notify.
  assert (Hraise : forall e', transport self = Raise e' ->
                              e' = NotImplementedError).
  { unfold transport. intros e'.
    repeat match goal with
           | |- context [if ?b then _ else _] => destruct b; [discriminate|]
           end.
    intros [= <-]. reflexivity. }
  destruct (transport self) as [tr|e'] eqn:Htr; cbn [bind].
  - destruct (is_noop self check); [discriminate|].
    destruct (transport_notify _ _ _) as [[?|] ?]; discriminate.
  - intros [= <-]. rewrite (Hraise e' eq_refl). split; reflexivity.
Qed.

Lemma send_loop_unknown_kind (owner : Check) (chans : list Channel) :
  forall w c,
    In c chans -> transport c = Raise NotImplementedError ->
    send_loop owner chans w = Raise NotImplementedError.
Proof.
  induction chans as [|ch rest IH]; intros w c Hin Hkind; [destruct Hin|].
  cbn [send_loop].
  destruct (notify ch owner false w) as [[err w1]|e] eqn:Hn; cbn [bind].
  - destruct (notify_inv _ _ _ _ _ _ Hn) as [[tr Hknown] _].
    destruct Hin as [-> | Hin]; [congruence|].
    rewrite (IH w1 c Hin Hkind). destruct (err =? "no-op")%string; reflexivity.
  - destruct (notify_raises _ _ _ _ _ Hn) as [-> _]. reflexivity.
Qed.

(** X22.  If an enabled channel of the check has a kind without a branch in
    [transport] - ["zendesk"], which [CHANNEL_KINDS] lists, or any kind
    outside [CHANNEL_KINDS] - [send_alerts] ends in
    [NotImplementedError]; every other kind of [CHANNEL_KINDS] has a
    transport. *)
Theorem send_alerts_stops_at_unknown_kind (self : Flip) (w : World)
    (owner : Check) (c : Channel) :
  new_status self = "down" \/
  (new_status self = "up" /\ old_status self <> "new" /\
   old_status self <> "paused") ->
  find_check (flip_owner self) w = Some owner ->
  In c (enabled_channels (check_id owner) w) ->
  (channel_kind c = "zendesk" \/
   str_in (channel_kind c) CHANNEL_KINDS = false ->
   send_alerts self w = Raise NotImplementedError) /\
  (str_in (channel_kind c) CHANNEL_KINDS = true ->
   channel_kind c <> "zendesk" ->
   exists tr, transport c = Ok tr).
Proof.
  intros Hnew Hfind Hin. split; [|apply transport_known_kind].
  intros Hkind.
  assert (Hgo : send_alerts self w
                = send_loop owner (enabled_channels (check_id owner) w) w).
  { unfold send_alerts. rewrite Hfind.
    destruct Hnew as [-> | (-> & Hn & Hp)]; [reflexivity|].
    rewrite !str_in_cons, (eqb_neq_false _ _ Hn), (eqb_neq_false _ _ Hp).
    reflexivity. }
  rewrite Hgo.
  exact (send_loop_unknown_kind _ _ _ _ Hin (transport_unknown_kind _ Hkind)).
Qed.

End AlertFacts.

Lemma notify_success_witness :
  exists w' stored,
    @notify Scenario.externals Cases.sms_ok Scenario.check1 true
      Cases.world_alerts = Ok ("", w') /\
    channels w'
    = [Scenario.email_gone;
       {| channel_id := 3; channel_kind := "sms"; value := "+100";
          email_verified := false; disabled := None;
          last_notify := Some 10250000; last_error := "";
          channel_checks := [1] |};
       Cases.sms_off] /\
    last (notifications w') = Some stored /\ error stored = "" /\
    notification_owner stored = None.
Proof.
  destruct (@notify_success Scenario.externals Cases.sms_ok Scenario.check1
              true Cases.world_alerts "Sms" 250000)
    as (w' & Hn & (stored & Hlast & Herr & _ & Hown & _) & _ & _ & Hc & _);
    [reflexivity ..|].
  exists w', stored. repeat split; assumption.
Defined.

Lemma send_alerts_reaches_enabled_witness :
  length (fst Cases.sent) = 2%nat /\
  length (notifications (snd Cases.sent)) = 3%nat /\
  In Cases.sms_off (channels (snd Cases.sent)).
Proof.
  destruct (@send_alerts_reaches_enabled Scenario.externals Cases.flip_down
              Cases.world_alerts (fst Cases.sent) (snd Cases.sent)
              Scenario.check1)
    as (_ & Hcount & _ & Hkeep);
    [left; reflexivity | reflexivity | vm_compute; reflexivity |].
  split; [vm_compute; reflexivity|]. split; [exact Hcount|].
  apply Hkeep.
  - right. right. left. reflexivity.
  - left. reflexivity.
  - intros c' [<- | [<- | []]]; discriminate.
Defined.

Lemma send_alerts_stops_at_unknown_kind_witness :
  @send_alerts Scenario.externals Cases.flip_down Cases.world_zendesk
  = Raise NotImplementedError /\
  @send_alerts Scenario.externals Cases.flip_down Cases.world_fax
  = Raise NotImplementedError /\
  exists tr, @transport Cases.sms_ok = Ok tr.
Proof.
  split; [|split].
  - apply (@send_alerts_stops_at_unknown_kind Scenario.externals
             Cases.flip_down Cases.world_zendesk Scenario.check1
             Cases.zendesk);
      [left; reflexivity | reflexivity | right; left; reflexivity
      | left; reflexivity].
  - apply (@send_alerts_stops_at_unknown_kind Scenario.externals
             Cases.flip_down Cases.world_fax Scenario.check1 Cases.fax);
      [left; reflexivity | reflexivity | right; left; reflexivity
      | right; reflexivity].
  - apply (@send_alerts_stops_at_unknown_kind Scenario.externals
             Cases.flip_down Cases.world_alerts Scenario.check1
             Cases.sms_ok);
      [left; reflexivity | reflexivity | right; left; reflexivity
      | reflexivity | discriminate].
Defined.

(** *** The token bucket and its policies *)

(** X23.  [authorize] reads and writes the bucket of its key only: every other
    bucket and every other table is as before. *)
Theorem authorize_touches_one_key (key : string)
    (capacity refill_time_secs : Z) (w : World) (ok : bool) (w' : World) :
  authorize key capacity refill_time_secs w = Ok (ok, w') ->
  (forall other, other <> key ->
     token_buckets w' !! other = token_buckets w !! other) /\
  checks w' = checks w /\ pings w' = pings w /\ flips w' = flips w /\
  channels w' = channels w /\ notifications w' = notifications w /\
  bucket w' = bucket w /\ now w' = now w.
Proof.
  unfold authorize, get_or_create.
  destruct (token_buckets w !! key) as [obj|] eqn:Hlk;
    destruct (debited _ _ _ _ _) as [balance|]; cbn [bind]; try discriminate;
    destruct (balance <? 0)%float; intros [= <- <-]; cbn;
    (split; [intros other Hne; rewrite ?lookup_insert_ne by congruence;
             reflexivity
            | repeat split]).
Qed.

(** X24.  If the stored balance of a key is not negative before [authorize],
    it is not negative after it, authorised or not. *)
Theorem authorize_keeps_balance_nonnegative (key : string)
    (capacity refill_time_secs : Z) (w : World) (ok : bool) (w' : World) :
  (forall obj, token_buckets w !! key = Some obj ->
               (tokens obj <? 0)%float = false) ->
  authorize key capacity refill_time_secs w = Ok (ok, w') ->
  exists obj', token_buckets w' !! key = Some obj' /\
               (tokens obj' <? 0)%float = false.
Proof.
  intros Hinv. unfold authorize, get_or_create.
  destruct (token_buckets w !! key) as [obj|] eqn:Hlk;
    destruct (debited _ _ _ _ _) as [balance|]; cbn [bind]; try discriminate;
    destruct (balance <? 0)%float eqn:Hneg; intros [= <- <-]; cbn;
    rewrite ?lookup_insert_eq.
  - exists obj. split; [exact Hlk | apply Hinv; reflexivity].
  - eexists. split; [reflexivity | exact Hneg].
  - eexists. split; [reflexivity | reflexivity].
  - eexists. split; [reflexivity | exact Hneg].
Qed.

(** X25.  [authorize] raises [ZeroDivisionError] for capacity 0, and for a
    refill period of 0 when the key is stored; for a key seen for the
    first time the refill period is not used. *)
Theorem authorize_division_by_zero (key : string)
    (capacity refill_time_secs : Z) (w : World) :
  (capacity = 0 ->
   authorize key capacity refill_time_secs w = Raise ZeroDivisionError) /\
  (refill_time_secs = 0 -> is_Some (token_buckets w !! key) ->
   authorize key capacity refill_time_secs w = Raise ZeroDivisionError) /\
  (capacity <> 0 -> token_buckets w !! key = None ->
   exists ok w', authorize key capacity refill_time_secs w = Ok (ok, w')).
Proof.
  unfold authorize, get_or_create, debited. split; [|split].
  - intros ->. destruct (token_buckets w !! key); cbn [bind].
    + destruct (refill_time_secs =? 0); reflexivity.
    + reflexivity.
  - intros -> [obj ->]. reflexivity.
  - intros Hc ->. cbn [bind]. rewrite (proj2 (Z.eqb_neq _ _) Hc). cbn [bind].
    destruct (_ <? 0)%float; eexists _, _; reflexivity.
Qed.

Lemma split_on_absent c s : occurs c s = false -> split_on c s = [s].
Proof.
  induction s as [|x s IH]; cbn [occurs split_on]; [reflexivity|].
  intros Ho. apply orb_false_iff in Ho. destruct Ho as [Hx Hs].
  rewrite Hx, (IH Hs). reflexivity.
Qed.

Lemma split_on_once c a b :
  occurs c a = false ->
  split_on c (a ++ String c b)
  = a :: split_on c b.
Proof.
  induction a as [|x a IH]; intros Ho.
  - change ("" ++ String c b)%string with (String c b).
    cbn [split_on]. rewrite Ascii.eqb_refl. reflexivity.
  - cbn [occurs] in Ho. apply orb_false_iff in Ho. destruct Ho as [Hx Ha].
    rewrite append_cons. cbn [split_on]. rewrite Hx, (IH Ha). reflexivity.
Qed.

Lemma remove_char_append c a b :
  remove_char c (a ++ b) = (remove_char c a ++ remove_char c b)%string.
Proof.
  induction a as [|x a IH]; [reflexivity|].
  rewrite append_cons. cbn [remove_char].
  destruct (Ascii.eqb x c); [exact IH|]. rewrite append_cons, IH. reflexivity.
Qed.

Lemma occurs_remove_other c d s :
  c <> d -> occurs c (remove_char d s) = occurs c s.
Proof.
  intros Hne. induction s as [|x s IH]; [reflexivity|]. cbn [remove_char occurs].
  destruct (Ascii.eqb_spec x d) as [->|Hd].
  - rewrite IH. destruct (Ascii.eqb_spec d c); [congruence|reflexivity].
  - cbn [occurs]. rewrite IH. reflexivity.
Qed.

Section PolicyFacts.
Variable sha1_hex : string -> string.
Variable SECRET_KEY : string.

Lemma count_char_append c a b :
  count_char c (a ++ b) = (count_char c a + count_char c b)%nat.
Proof.
  induction a as [|x a IH]; [reflexivity|].
  rewrite append_cons. cbn [count_char]. rewrite IH. lia.
Qed.

Lemma occurs_false_count c s : occurs c s = false -> count_char c s = 0%nat.
Proof.
  induction s as [|x s IH]; [reflexivity|]. cbn [occurs count_char].
  intros Ho. apply orb_false_iff in Ho. destruct Ho as [-> Hs].
  rewrite (IH Hs). reflexivity.
Qed.

Lemma split_on_nonempty c s : split_on c s <> [].
Proof.
  destruct s as [|x s]; cbn [split_on]; [discriminate|].
  destruct (Ascii.eqb x c); [discriminate|].
  destruct (split_on c s); discriminate.
Qed.

Lemma split_on_one c s b :
  split_on c s = [b] -> s = b /\ occurs c s = false.
Proof.
  revert b. induction s as [|x s IH]; intros b; cbn [split_on occurs].
  - intros [= <-]. split; reflexivity.
  - destruct (Ascii.eqb x c).
    + destruct (split_on c s) eqn:E; [|discriminate].
      exfalso. exact (split_on_nonempty _ _ E).
    + destruct (split_on c s) as [|h [|? ?]] eqn:E; try discriminate;
        [exfalso; exact (split_on_nonempty _ _ E)|].
      intros [= <-]. destruct (IH h eq_refl) as [-> Ho].
      split; [reflexivity | exact Ho].
Qed.

Lemma split_on_two c s a b :
  split_on c s = [a; b] ->
  s = (a ++ String c b)%string /\ occurs c a = false /\ occurs c b = false.
Proof.
  revert a. induction s as [|x s IH]; intros a; cbn [split_on]; [discriminate|].
  destruct (Ascii.eqb_spec x c) as [->|Hx].
  - intros [= <- Hs]. destruct (split_on_one _ _ _ Hs) as [-> Ho].
    repeat split; assumption.
  - destruct (split_on c s) as [|h [|h2 [|? ?]]] eqn:E; try discriminate.
    intros [= <- <-]. destruct (IH h eq_refl) as (-> & Ha & Hb).
    rewrite append_cons. cbn [occurs].
    destruct (Ascii.eqb_spec x c); [congruence|]. repeat split; assumption.
Qed.

(** X26.  An address with dots in the mailbox or a [+tag] after it is
    throttled through the bucket of the address without them. *)
Theorem login_email_aliases (mailbox tag domain : string) (w : World) :
  occurs "@" mailbox = false -> occurs "+" mailbox = false ->
  occurs "@" tag = false -> occurs "@" domain = false ->
  let canonical := (remove_char "." mailbox ++ "@" ++ domain)%string in
  normalized_email (mailbox ++ "+" ++ tag ++ "@" ++ domain) = Ok canonical /\
  normalized_email (mailbox ++ "@" ++ domain) = Ok canonical /\
  authorize_login_email sha1_hex SECRET_KEY
    (mailbox ++ "+" ++ tag ++ "@" ++ domain) w
  = authorize (login_email_value sha1_hex SECRET_KEY canonical) 20 3600 w /\
  authorize_login_email sha1_hex SECRET_KEY (mailbox ++ "@" ++ domain) w
  = authorize (login_email_value sha1_hex SECRET_KEY canonical) 20 3600 w.
Proof.
  intros Hm Hp Ht Hd canonical.
  assert (Hplus : occurs "+" (remove_char "." mailbox) = false)
    by (rewrite occurs_remove_other; [exact Hp | discriminate]).
  assert (H1 : normalized_email (mailbox ++ "+" ++ tag ++ "@" ++ domain)
               = Ok canonical).
  { unfold normalized_email.
    replace (mailbox ++ "+" ++ tag ++ "@" ++ domain)%string
      with ((mailbox ++ "+" ++ tag) ++ String "@" domain)%string
      by (rewrite !append_assoc; reflexivity).
    rewrite split_on_once, (split_on_absent _ _ Hd).
    + rewrite remove_char_append.
      change ("+" ++ tag)%string with (String "+" tag).
      cbn [remove_char Ascii.eqb Bool.eqb].
      rewrite (split_on_once "+" _ _ Hplus). reflexivity.
    + clear -Hm Ht. induction mailbox as [|x m IH].
      * cbn. exact Ht.
      * cbn [occurs] in Hm. apply orb_false_iff in Hm. destruct Hm as [Hx Hm].
        rewrite append_cons. cbn [occurs]. rewrite Hx, (IH Hm). reflexivity. }
  assert (H2 : normalized_email (mailbox ++ "@" ++ domain) = Ok canonical).
  { unfold normalized_email.
    change (mailbox ++ "@" ++ domain)%string
      with (mailbox ++ String "@" domain)%string.
    rewrite (split_on_once _ _ _ Hm), (split_on_absent _ _ Hd).
    rewrite (split_on_absent _ _ Hplus). reflexivity. }
  split; [exact H1|]. split; [exact H2|].
  unfold authorize_login_email. rewrite H1, H2. split; reflexivity.
Qed.

(** X27.  [authorize_login_email] raises [ValueError] for an address without
    [@] or with two, and normalises only an address with exactly one. *)
Theorem login_email_needs_one_at (email : string) (w : World) :
  (occurs "@" email = false ->
   authorize_login_email sha1_hex SECRET_KEY email w = Raise ValueError) /\
  (forall a b c,
     email = (a ++ "@" ++ b ++ "@" ++ c)%string ->
     authorize_login_email sha1_hex SECRET_KEY email w = Raise ValueError) /\
  (forall r, normalized_email email = Ok r ->
     exists mailbox domain,
       email = (mailbox ++ "@" ++ domain)%string /\
       occurs "@" mailbox = false /\ occurs "@" domain = false).
Proof.
  split; [|split].
  - intros Ho. unfold authorize_login_email, normalized_email.
    rewrite (split_on_absent _ _ Ho). reflexivity.
  - intros a b c ->. unfold authorize_login_email.
    destruct (normalized_email _) as [r|e] eqn:E; cbn [bind].
    + exfalso. unfold normalized_email in E.
      destruct (split_on "@" _) as [|m [|d [|? ?]]] eqn:Es; try discriminate.
      destruct (split_on_two _ _ _ _ Es) as (Heq & Hm & Hdm).
      apply (f_equal (count_char "@")) in Heq.
      rewrite !count_char_append in Heq.
      change (count_char "@" (String "@" d)) with (S (count_char "@" d)) in Heq.
      change (count_char "@" "@") with 1%nat in Heq.
      rewrite (occurs_false_count _ _ Hm), (occurs_false_count _ _ Hdm) in Heq.
      lia.
    + unfold normalized_email in E.
      destruct (split_on "@" _) as [|m [|d [|? ?]]]; congruence.
  - intros r. unfold normalized_email.
    destruct (split_on "@" email) as [|m [|d [|? ?]]] eqn:Es; try discriminate.
    intros _. destruct (split_on_two _ _ _ _ Es) as (Heq & Hm & Hdm).
    exists m, d. repeat split; assumption.
Qed.

Lemma head_differs (a b : ascii) (s t : string) :
  a <> b -> String a s <> String b t.
Proof. congruence. Qed.

(** X28.  The keys of the nine policies are pairwise different whatever their
    arguments: no policy draws on the bucket of another. *)
Theorem policy_values_distinct (e1 e2 tg ph po code : string)
    (u1 u2 u3 u4 : Z) :
  NoDup [ login_email_value sha1_hex SECRET_KEY e1;
          invite_value u1;
          login_password_value sha1_hex SECRET_KEY e2;
          telegram_value tg;
          signal_value sha1_hex SECRET_KEY ph;
          pushover_value sha1_hex SECRET_KEY po;
          sudo_value u2;
          totp_value u3;
          totp_code_value u4 code ].
Proof.
  unfold login_email_value, invite_value, login_password_value,
    telegram_value, signal_value, pushover_value, sudo_value, totp_value,
    totp_code_value.
  repeat (apply NoDup_cons; split;
          [ rewrite ?not_elem_of_cons; repeat split;
            try apply not_elem_of_nil;
            rewrite ?append_cons; intros E;
            repeat (injection E as _ E || discriminate E)
          | ]).
  apply NoDup_nil. exact I.
Qed.

End PolicyFacts.

Lemma authorize_touches_one_key_witness :
  authorize "fresh" 2 100 Scenario.world1
  = Ok (true, snd Cases.fresh_call) /\
  token_buckets (snd Cases.fresh_call) !! "drained"
  = token_buckets Scenario.world1 !! "drained" /\
  pings (snd Cases.fresh_call) = pings Scenario.world1.
Proof.
  assert (E : authorize "fresh" 2 100 Scenario.world1
              = Ok (true, snd Cases.fresh_call))
    by (vm_compute; reflexivity).
  destruct (authorize_touches_one_key "fresh" 2 100 Scenario.world1 true
              (snd Cases.fresh_call) E) as (Hother & _ & Hp & _).
  split; [exact E|]. split; [|exact Hp].
  apply Hother. discriminate.
Defined.

Lemma authorize_keeps_balance_nonnegative_witness :
  exists obj',
    token_buckets (snd Cases.fresh_call) !! "fresh" = Some obj' /\
    (tokens obj' <? 0)%float = false.
Proof.
  apply (authorize_keeps_balance_nonnegative "fresh" 2 100 Scenario.world1
           true (snd Cases.fresh_call)).
  - intros obj Hobj. discriminate Hobj.
  - vm_compute. reflexivity.
Defined.

Lemma authorize_division_by_zero_witness :
  authorize "drained" 0 60 Scenario.world1 = Raise ZeroDivisionError /\
  authorize "drained" 6 0 Scenario.world1 = Raise ZeroDivisionError /\
  exists ok w', authorize "fresh" 6 0 Scenario.world1 = Ok (ok, w').
Proof.
  split; [|split].
  - apply (proj1 (authorize_division_by_zero "drained" 0 60 Scenario.world1)).
    reflexivity.
  - apply (proj1 (proj2 (authorize_division_by_zero "drained" 6 0
                           Scenario.world1)));
      [reflexivity | vm_compute; eauto].
  - apply (proj2 (proj2 (authorize_division_by_zero "fresh" 6 0
                           Scenario.world1)));
      [discriminate | reflexivity].
Defined.

Lemma login_email_aliases_witness :
  normalized_email "j.doe+shop@example.org" = Ok "jdoe@example.org" /\
  authorize_login_email Cases.plain "s3cr3t" "j.doe+shop@example.org"
    Scenario.world1
  = authorize_login_email Cases.plain "s3cr3t" "j.doe@example.org"
      Scenario.world1.
Proof.
  destruct (login_email_aliases Cases.plain "s3cr3t" "j.doe" "shop"
              "example.org" Scenario.world1)
    as (H1 & _ & H3 & H4); [reflexivity ..|].
  split; [exact H1|].
  exact (eq_trans H3 (eq_sym H4)).
Defined.

Lemma login_email_needs_one_at_witness :
  authorize_login_email Cases.plain "s3cr3t" "nobody" Scenario.world1
    = Raise ValueError /\
  authorize_login_email Cases.plain "s3cr3t" "a@b@c" Scenario.world1
    = Raise ValueError.
Proof.
  split.
  - apply (proj1 (login_email_needs_one_at Cases.plain "s3cr3t" "nobody"
                    Scenario.world1)). reflexivity.
  - apply (proj1 (proj2 (login_email_needs_one_at Cases.plain "s3cr3t"
                           "a@b@c" Scenario.world1)) "a" "b" "c").
    reflexivity.
Defined.
